(** * Nanohub firmware: event-dispatch kernel and gyroscope bias calibration

    A shallow embedding of two translation units of the sensor-hub firmware,

    - [firmware/os/algos/calibration/gyroscope/gyro_cal.c]  (module [GyroCal])
    - [firmware/src/seos.c]                                 (module [Seos])

    together with the properties of their behaviour that the specification
    states.  Unsigned C integers are modelled as [Z] with the wrap-around
    written out, [float] as IEEE-754 binary32 through [SpecFloat], C structs as
    records, and the file-scope / function-scope statics as explicit state. *)

From Stdlib Require Import ZArith List Bool Lia Arith FinFun.
From Stdlib Require Import Floats.SpecFloat.
Import ListNotations.
Open Scope Z_scope.

(** ** Machine integers *)

Definition u16 (x : Z) : Z := x mod 2 ^ 16.
Definition u32 (x : Z) : Z := x mod 2 ^ 32.
Definition u64 (x : Z) : Z := x mod 2 ^ 64.

Definition is_u16 (x : Z) : Prop := 0 <= x < 2 ^ 16.
Definition is_u32 (x : Z) : Prop := 0 <= x < 2 ^ 32.
Definition is_u64 (x : Z) : Prop := 0 <= x < 2 ^ 64.

(** ** IEEE-754 binary32, the C type [float] of the target *)

Module Float32.

Definition float : Type := spec_float.
Definition prec : Z := 24.
Definition emax : Z := 128.

Definition add (x y : float) : float := SFadd prec emax x y.
Definition sub (x y : float) : float := SFsub prec emax x y.
Definition mul (x y : float) : float := SFmul prec emax x y.
Definition div (x y : float) : float := SFdiv prec emax x y.
Definition neg (x : float) : float := SFopp x.
Definition fabs (x : float) : float := SFabs x.

(** [x < y] and [x > y] of C; both are false as soon as one side is a NaN. *)
Definition ltb (x y : float) : bool := SFltb x y.
Definition gtb (x y : float) : bool := SFltb y x.

(** Conversion of an unsigned integer, rounding to nearest even. *)
Definition of_Z (n : Z) : float := binary_normalize prec emax n 0 false.

Definition zero : float := S754_zero false.
Definition one : float := S754_finite false 8388608 (-23).
(** [FLT_MAX] = (2^24 - 1) * 2^104 and [FLT_MIN] = 2^-126 of <float.h>. *)
Definition FLT_MAX : float := S754_finite false 16777215 104.
Definition FLT_MIN : float := S754_finite false 8388608 (-149).

(** Modelled from the spec: the macro [NANO_ABS] of the math headers, the
    absolute value taken of the temperature change,
    [((x) > 0 ? (x) : -(x))]. *)
Definition NANO_ABS (x : float) : float := if gtb x zero then x else neg x.

End Float32.

Import Float32.

Definition vec3 : Type := (float * float * float)%type.

(** ** The stillness detector, as far as gyro_cal.c reads and writes it

    [struct GyroStillDet] belongs to the per-sensor variance detector.  The
    fields below are the ones gyro_cal.c touches; [det_private] stands for the
    accumulators and counters only the detector itself uses. *)

Module StillDet.

Record GyroStillDet : Type := mkGyroStillDet {
  stillness_window_ready : bool;
  stillness_confidence : float;
  prev_stillness_confidence : float;
  prev_mean_x : float;
  prev_mean_y : float;
  prev_mean_z : float;
  win_mean_x : float;
  win_mean_y : float;
  win_mean_z : float;
  window_start_time : Z;
  last_sample_time : Z;
  det_private : list Z
}.

Definition set_stillness_confidence (v : float) (r : GyroStillDet) : GyroStillDet :=
  let 'mkGyroStillDet rdy conf pconf pmx pmy pmz wmx wmy wmz wst lst priv := r in
  mkGyroStillDet rdy v pconf pmx pmy pmz wmx wmy wmz wst lst priv.

Definition set_prev_stillness_confidence (v : float) (r : GyroStillDet) : GyroStillDet :=
  let 'mkGyroStillDet rdy conf pconf pmx pmy pmz wmx wmy wmz wst lst priv := r in
  mkGyroStillDet rdy conf v pmx pmy pmz wmx wmy wmz wst lst priv.

End StillDet.

(** ** gyro_cal.c *)

Module GyroCal.

(** [MAX_GYRO_BIAS] is [0.1f], i.e. 13421773 * 2^-27 (bit pattern 0x3DCCCCCD). *)
Definition MAX_GYRO_BIAS : float := S754_finite false 13421773 (-27).

Inductive GyroCalTrackerCommand : Type :=
| DO_RESET
| DO_UPDATE_DATA
| DO_STORE_DATA
| DO_EVALUATE.

Record GyroCal : Type := mkGyroCal {
  accel_stillness_detect : StillDet.GyroStillDet;
  gyro_stillness_detect : StillDet.GyroStillDet;
  mag_stillness_detect : StillDet.GyroStillDet;
  bias_x : float;
  bias_y : float;
  bias_z : float;
  bias_temperature_celsius : float;
  calibration_time_nanos : Z;
  prev_still : bool;
  start_still_time_nanos : Z;
  min_still_duration_nanos : Z;
  max_still_duration_nanos : Z;
  window_time_duration_nanos : Z;
  gyro_watchdog_timeout_duration_nanos : Z;
  gyro_watchdog_start_nanos : Z;
  gyro_watchdog_timeout : bool;
  stillness_threshold : float;
  stillness_win_endtime_nanos : Z;
  gyro_calibration_enable : bool;
  stillness_mean_delta_limit : float;
  temperature_delta_limit_celsius : float;
  new_gyro_cal_available : bool;
  using_mag_sensor : bool;
  stillness_confidence : float;
  gyro_winmean_min : vec3;
  gyro_winmean_max : vec3;
  temperature_min_max_celsius : float * float;
  temperature_mean_celsius : float
}.

Definition set_accel_stillness_detect (v : StillDet.GyroStillDet) (r : GyroCal) : GyroCal :=
  let 'mkGyroCal acc gyr mag bx by_ bz btemp ctime pstill sstart dmin dmax wdur wdto
      wdst wdfl thr wend en mlim tlim navail umag sconf wmin wmax tmm tmean := r in
  mkGyroCal v gyr mag bx by_ bz btemp ctime pstill sstart dmin dmax wdur wdto wdst wdfl
      thr wend en mlim tlim navail umag sconf wmin wmax tmm tmean.

Definition set_gyro_stillness_detect (v : StillDet.GyroStillDet) (r : GyroCal) : GyroCal :=
  let 'mkGyroCal acc gyr mag bx by_ bz btemp ctime pstill sstart dmin dmax wdur wdto
      wdst wdfl thr wend en mlim tlim navail umag sconf wmin wmax tmm tmean := r in
  mkGyroCal acc v mag bx by_ bz btemp ctime pstill sstart dmin dmax wdur wdto wdst wdfl
      thr wend en mlim tlim navail umag sconf wmin wmax tmm tmean.

Definition set_mag_stillness_detect (v : StillDet.GyroStillDet) (r : GyroCal) : GyroCal :=
  let 'mkGyroCal acc gyr mag bx by_ bz btemp ctime pstill sstart dmin dmax wdur wdto
      wdst wdfl thr wend en mlim tlim navail umag sconf wmin wmax tmm tmean := r in
  mkGyroCal acc gyr v bx by_ bz btemp ctime pstill sstart dmin dmax wdur wdto wdst wdfl
      thr wend en mlim tlim navail umag sconf wmin wmax tmm tmean.

Definition set_bias_x (v : float) (r : GyroCal) : GyroCal :=
  let 'mkGyroCal acc gyr mag bx by_ bz btemp ctime pstill sstart dmin dmax wdur wdto
      wdst wdfl thr wend en mlim tlim navail umag sconf wmin wmax tmm tmean := r in
  mkGyroCal acc gyr mag v by_ bz btemp ctime pstill sstart dmin dmax wdur wdto wdst
      wdfl thr wend en mlim tlim navail umag sconf wmin wmax tmm tmean.

Definition set_bias_y (v : float) (r : GyroCal) : GyroCal :=
  let 'mkGyroCal acc gyr mag bx by_ bz btemp ctime pstill sstart dmin dmax wdur wdto
      wdst wdfl thr wend en mlim tlim navail umag sconf wmin wmax tmm tmean := r in
  mkGyroCal acc gyr mag bx v bz btemp ctime pstill sstart dmin dmax wdur wdto wdst wdfl
      thr wend en mlim tlim navail umag sconf wmin wmax tmm tmean.

Definition set_bias_z (v : float) (r : GyroCal) : GyroCal :=
  let 'mkGyroCal acc gyr mag bx by_ bz btemp ctime pstill sstart dmin dmax wdur wdto
      wdst wdfl thr wend en mlim tlim navail umag sconf wmin wmax tmm tmean := r in
  mkGyroCal acc gyr mag bx by_ v btemp ctime pstill sstart dmin dmax wdur wdto wdst
      wdfl thr wend en mlim tlim navail umag sconf wmin wmax tmm tmean.

Definition set_bias_temperature_celsius (v : float) (r : GyroCal) : GyroCal :=
  let 'mkGyroCal acc gyr mag bx by_ bz btemp ctime pstill sstart dmin dmax wdur wdto
      wdst wdfl thr wend en mlim tlim navail umag sconf wmin wmax tmm tmean := r in
  mkGyroCal acc gyr mag bx by_ bz v ctime pstill sstart dmin dmax wdur wdto wdst wdfl
      thr wend en mlim tlim navail umag sconf wmin wmax tmm tmean.

Definition set_calibration_time_nanos (v : Z) (r : GyroCal) : GyroCal :=
  let 'mkGyroCal acc gyr mag bx by_ bz btemp ctime pstill sstart dmin dmax wdur wdto
      wdst wdfl thr wend en mlim tlim navail umag sconf wmin wmax tmm tmean := r in
  mkGyroCal acc gyr mag bx by_ bz btemp v pstill sstart dmin dmax wdur wdto wdst wdfl
      thr wend en mlim tlim navail umag sconf wmin wmax tmm tmean.

Definition set_prev_still (v : bool) (r : GyroCal) : GyroCal :=
  let 'mkGyroCal acc gyr mag bx by_ bz btemp ctime pstill sstart dmin dmax wdur wdto
      wdst wdfl thr wend en mlim tlim navail umag sconf wmin wmax tmm tmean := r in
  mkGyroCal acc gyr mag bx by_ bz btemp ctime v sstart dmin dmax wdur wdto wdst wdfl
      thr wend en mlim tlim navail umag sconf wmin wmax tmm tmean.

Definition set_start_still_time_nanos (v : Z) (r : GyroCal) : GyroCal :=
  let 'mkGyroCal acc gyr mag bx by_ bz btemp ctime pstill sstart dmin dmax wdur wdto
      wdst wdfl thr wend en mlim tlim navail umag sconf wmin wmax tmm tmean := r in
  mkGyroCal acc gyr mag bx by_ bz btemp ctime pstill v dmin dmax wdur wdto wdst wdfl
      thr wend en mlim tlim navail umag sconf wmin wmax tmm tmean.

Definition set_gyro_watchdog_start_nanos (v : Z) (r : GyroCal) : GyroCal :=
  let 'mkGyroCal acc gyr mag bx by_ bz btemp ctime pstill sstart dmin dmax wdur wdto
      wdst wdfl thr wend en mlim tlim navail umag sconf wmin wmax tmm tmean := r in
  mkGyroCal acc gyr mag bx by_ bz btemp ctime pstill sstart dmin dmax wdur wdto v wdfl
      thr wend en mlim tlim navail umag sconf wmin wmax tmm tmean.

Definition set_gyro_watchdog_timeout (v : bool) (r : GyroCal) : GyroCal :=
  let 'mkGyroCal acc gyr mag bx by_ bz btemp ctime pstill sstart dmin dmax wdur wdto
      wdst wdfl thr wend en mlim tlim navail umag sconf wmin wmax tmm tmean := r in
  mkGyroCal acc gyr mag bx by_ bz btemp ctime pstill sstart dmin dmax wdur wdto wdst v
      thr wend en mlim tlim navail umag sconf wmin wmax tmm tmean.

Definition set_stillness_win_endtime_nanos (v : Z) (r : GyroCal) : GyroCal :=
  let 'mkGyroCal acc gyr mag bx by_ bz btemp ctime pstill sstart dmin dmax wdur wdto
      wdst wdfl thr wend en mlim tlim navail umag sconf wmin wmax tmm tmean := r in
  mkGyroCal acc gyr mag bx by_ bz btemp ctime pstill sstart dmin dmax wdur wdto wdst
      wdfl thr v en mlim tlim navail umag sconf wmin wmax tmm tmean.

Definition set_new_gyro_cal_available (v : bool) (r : GyroCal) : GyroCal :=
  let 'mkGyroCal acc gyr mag bx by_ bz btemp ctime pstill sstart dmin dmax wdur wdto
      wdst wdfl thr wend en mlim tlim navail umag sconf wmin wmax tmm tmean := r in
  mkGyroCal acc gyr mag bx by_ bz btemp ctime pstill sstart dmin dmax wdur wdto wdst
      wdfl thr wend en mlim tlim v umag sconf wmin wmax tmm tmean.

Definition set_using_mag_sensor (v : bool) (r : GyroCal) : GyroCal :=
  let 'mkGyroCal acc gyr mag bx by_ bz btemp ctime pstill sstart dmin dmax wdur wdto
      wdst wdfl thr wend en mlim tlim navail umag sconf wmin wmax tmm tmean := r in
  mkGyroCal acc gyr mag bx by_ bz btemp ctime pstill sstart dmin dmax wdur wdto wdst
      wdfl thr wend en mlim tlim navail v sconf wmin wmax tmm tmean.

Definition set_stillness_confidence (v : float) (r : GyroCal) : GyroCal :=
  let 'mkGyroCal acc gyr mag bx by_ bz btemp ctime pstill sstart dmin dmax wdur wdto
      wdst wdfl thr wend en mlim tlim navail umag sconf wmin wmax tmm tmean := r in
  mkGyroCal acc gyr mag bx by_ bz btemp ctime pstill sstart dmin dmax wdur wdto wdst
      wdfl thr wend en mlim tlim navail umag v wmin wmax tmm tmean.

Definition set_gyro_winmean_min (v : vec3) (r : GyroCal) : GyroCal :=
  let 'mkGyroCal acc gyr mag bx by_ bz btemp ctime pstill sstart dmin dmax wdur wdto
      wdst wdfl thr wend en mlim tlim navail umag sconf wmin wmax tmm tmean := r in
  mkGyroCal acc gyr mag bx by_ bz btemp ctime pstill sstart dmin dmax wdur wdto wdst
      wdfl thr wend en mlim tlim navail umag sconf v wmax tmm tmean.

Definition set_gyro_winmean_max (v : vec3) (r : GyroCal) : GyroCal :=
  let 'mkGyroCal acc gyr mag bx by_ bz btemp ctime pstill sstart dmin dmax wdur wdto
      wdst wdfl thr wend en mlim tlim navail umag sconf wmin wmax tmm tmean := r in
  mkGyroCal acc gyr mag bx by_ bz btemp ctime pstill sstart dmin dmax wdur wdto wdst
      wdfl thr wend en mlim tlim navail umag sconf wmin v tmm tmean.

Definition set_temperature_min_max_celsius (v : float * float) (r : GyroCal) : GyroCal :=
  let 'mkGyroCal acc gyr mag bx by_ bz btemp ctime pstill sstart dmin dmax wdur wdto
      wdst wdfl thr wend en mlim tlim navail umag sconf wmin wmax tmm tmean := r in
  mkGyroCal acc gyr mag bx by_ bz btemp ctime pstill sstart dmin dmax wdur wdto wdst
      wdfl thr wend en mlim tlim navail umag sconf wmin wmax v tmean.

Definition set_temperature_mean_celsius (v : float) (r : GyroCal) : GyroCal :=
  let 'mkGyroCal acc gyr mag bx by_ bz btemp ctime pstill sstart dmin dmax wdur wdto
      wdst wdfl thr wend en mlim tlim navail umag sconf wmin wmax tmm tmean := r in
  mkGyroCal acc gyr mag bx by_ bz btemp ctime pstill sstart dmin dmax wdur wdto wdst
      wdfl thr wend en mlim tlim navail umag sconf wmin wmax tmm v.

(** The function-scope statics of the two trackers and of [gyroCalUpdateGyro]. *)
Module Statics.
Record t : Type := mk {
  mean_accumulator : float;
  temperature_min_max_celsius : float * float;
  num_points : Z;
  gyro_winmean_min : vec3;
  gyro_winmean_max : vec3;
  latest_temperature_celsius : float
}.

(** Their values at program start. *)
Definition init : t :=
  mk zero (zero, zero) 0 (zero, zero, zero) (zero, zero, zero) zero.
End Statics.

(** *** Bias accessors *)

Definition gyroCalGetBias (gyro_cal : GyroCal) : float * float * float * float :=
  (bias_x gyro_cal, bias_y gyro_cal, bias_z gyro_cal,
   bias_temperature_celsius gyro_cal).

Definition gyroCalSetBias (gyro_cal : GyroCal) (bx by_ bz : float)
  (calibration_time : Z) : GyroCal :=
  let gyro_cal := set_bias_x bx gyro_cal in
  let gyro_cal := set_bias_y by_ gyro_cal in
  let gyro_cal := set_bias_z bz gyro_cal in
  set_calibration_time_nanos calibration_time gyro_cal.

(** [gyroCalRemoveBias] writes through the three out-pointers only inside the
    [if].  [out] is what [*xo], [*yo], [*zo] hold when the function is entered;
    the result is what they hold when it returns. *)
Definition gyroCalRemoveBias (gyro_cal : GyroCal) (xi yi zi : float)
  (out : float * float * float) : float * float * float :=
  if gyro_calibration_enable gyro_cal then
    (sub xi (bias_x gyro_cal), sub yi (bias_y gyro_cal), sub zi (bias_z gyro_cal))
  else out.

Definition gyroCalNewBiasAvailable (gyro_cal : GyroCal) : bool * GyroCal :=
  (gyro_calibration_enable gyro_cal && new_gyro_cal_available gyro_cal,
   set_new_gyro_cal_available false gyro_cal).

(** *** Trackers *)

(** [-1.0f * (FLT_MAX - 1.0f)], the value the running maxima are reset to. *)
Definition FLT_LOWEST_INIT : float := mul (neg one) (sub FLT_MAX one).

Definition gyroTemperatureStatsTracker (gyro_cal : GyroCal) (st : Statics.t)
  (temperature_celsius : float) (do_this : GyroCalTrackerCommand)
  : bool * GyroCal * Statics.t :=
  let '(Statics.mk acc tmm n wmin wmax latest) := st in
  match do_this with
  | DO_RESET =>
      (false, gyro_cal, Statics.mk zero (FLT_MAX, FLT_LOWEST_INIT) 0 wmin wmax latest)
  | DO_UPDATE_DATA =>
      let acc := add acc temperature_celsius in
      let n := u32 (n + 1) in
      let t0 := if gtb (fst tmm) temperature_celsius
                then temperature_celsius else fst tmm in
      let t1 := if ltb (snd tmm) temperature_celsius
                then temperature_celsius else snd tmm in
      (false, gyro_cal, Statics.mk acc (t0, t1) n wmin wmax latest)
  | DO_STORE_DATA =>
      if 0 <? n then
        let gyro_cal := set_temperature_min_max_celsius tmm gyro_cal in
        let gyro_cal := set_temperature_mean_celsius (div acc (of_Z n)) gyro_cal in
        (false, gyro_cal, st)
      else (false, gyro_cal, st)
  | DO_EVALUATE =>
      if 0 <? n then
        (gtb (sub (snd tmm) (fst tmm)) (temperature_delta_limit_celsius gyro_cal),
         gyro_cal, st)
      else (false, gyro_cal, st)
  end.

Definition track_min (m x : float) : float := if gtb m x then x else m.
Definition track_max (m x : float) : float := if ltb m x then x else m.

Definition gyroStillMeanTracker (gyro_cal : GyroCal) (st : Statics.t)
  (do_this : GyroCalTrackerCommand) : bool * GyroCal * Statics.t :=
  let '(Statics.mk acc tmm n wmin wmax latest) := st in
  match do_this with
  | DO_RESET =>
      (false, gyro_cal,
       Statics.mk acc tmm n (FLT_MAX, FLT_MAX, FLT_MAX)
         (FLT_LOWEST_INIT, FLT_LOWEST_INIT, FLT_LOWEST_INIT) latest)
  | DO_UPDATE_DATA =>
      let g := gyro_stillness_detect gyro_cal in
      let '(mn0, mn1, mn2) := wmin in
      let '(mx0, mx1, mx2) := wmax in
      (false, gyro_cal,
       Statics.mk acc tmm n
         (track_min mn0 (StillDet.win_mean_x g), track_min mn1 (StillDet.win_mean_y g),
          track_min mn2 (StillDet.win_mean_z g))
         (track_max mx0 (StillDet.win_mean_x g), track_max mx1 (StillDet.win_mean_y g),
          track_max mx2 (StillDet.win_mean_z g)) latest)
  | DO_STORE_DATA =>
      let gyro_cal := set_gyro_winmean_min wmin gyro_cal in
      let gyro_cal := set_gyro_winmean_max wmax gyro_cal in
      (false, gyro_cal, st)
  | DO_EVALUATE =>
      let '(mn0, mn1, mn2) := wmin in
      let '(mx0, mx1, mx2) := wmax in
      let lim := stillness_mean_delta_limit gyro_cal in
      (gtb (sub mx0 mn0) lim || gtb (sub mx1 mn1) lim || gtb (sub mx2 mn2) lim,
       gyro_cal, st)
  end.

(** *** The calibration state machine

    [gyroStillDetUpdate], [gyroStillDetCompute] and [gyroStillDetReset] are the
    entry points of the detector primitive (gyro_stillness_detect.c); the state
    machine is written over them. *)

Section StateMachine.

Variable gyroStillDetUpdate :
  StillDet.GyroStillDet -> Z -> Z -> float -> float -> float -> StillDet.GyroStillDet.
Variable gyroStillDetCompute : StillDet.GyroStillDet -> StillDet.GyroStillDet.
Variable gyroStillDetReset : StillDet.GyroStillDet -> bool -> StillDet.GyroStillDet.

(** Calculates a new gyro bias offset calibration value. *)
Definition computeGyroCal (gyro_cal : GyroCal) (calibration_time : Z) : GyroCal :=
  let g := gyro_stillness_detect gyro_cal in
  if negb (ltb (StillDet.prev_mean_x g) MAX_GYRO_BIAS &&
           gtb (StillDet.prev_mean_x g) (neg MAX_GYRO_BIAS) &&
           ltb (StillDet.prev_mean_y g) MAX_GYRO_BIAS &&
           gtb (StillDet.prev_mean_y g) (neg MAX_GYRO_BIAS) &&
           ltb (StillDet.prev_mean_z g) MAX_GYRO_BIAS &&
           gtb (StillDet.prev_mean_z g) (neg MAX_GYRO_BIAS))
  then gyro_cal (* Outside of range. Ignore, reset, and continue. *)
  else
    let gyro_cal := set_bias_x (StillDet.prev_mean_x g) gyro_cal in
    let gyro_cal := set_bias_y (StillDet.prev_mean_y g) gyro_cal in
    let gyro_cal := set_bias_z (StillDet.prev_mean_z g) gyro_cal in
    let gyro_cal :=
      set_bias_temperature_celsius (temperature_mean_celsius gyro_cal) gyro_cal in
    let gyro_cal := set_calibration_time_nanos calibration_time gyro_cal in
    let gyro_cal :=
      set_stillness_confidence
        (mul (mul (StillDet.prev_stillness_confidence (gyro_stillness_detect gyro_cal))
                  (StillDet.prev_stillness_confidence (accel_stillness_detect gyro_cal)))
             (StillDet.prev_stillness_confidence (mag_stillness_detect gyro_cal)))
        gyro_cal in
    set_new_gyro_cal_available true gyro_cal.

(** The three [gyroStillDetReset] calls that always come together. *)
Definition reset_detectors (reset_stats : bool) (gyro_cal : GyroCal) : GyroCal :=
  let gyro_cal :=
    set_accel_stillness_detect
      (gyroStillDetReset (accel_stillness_detect gyro_cal) reset_stats) gyro_cal in
  let gyro_cal :=
    set_gyro_stillness_detect
      (gyroStillDetReset (gyro_stillness_detect gyro_cal) reset_stats) gyro_cal in
  set_mag_stillness_detect
    (gyroStillDetReset (mag_stillness_detect gyro_cal) reset_stats) gyro_cal.

(** Check for a watchdog timeout condition. *)
Definition checkWatchdog (gyro_cal : GyroCal) (st : Statics.t)
  (sample_time_nanos : Z) : GyroCal * Statics.t :=
  if gyro_watchdog_start_nanos gyro_cal <=? 0 then (gyro_cal, st)
  else
    let watchdog_timeout :=
      sample_time_nanos >?
      u64 (gyro_watchdog_timeout_duration_nanos gyro_cal +
           gyro_watchdog_start_nanos gyro_cal) in
    if watchdog_timeout then
      let gyro_cal := reset_detectors true gyro_cal in
      let '(_, gyro_cal, st) :=
        gyroTemperatureStatsTracker gyro_cal st zero DO_RESET in
      let '(_, gyro_cal, st) := gyroStillMeanTracker gyro_cal st DO_RESET in
      let gyro_cal := set_stillness_win_endtime_nanos 0 gyro_cal in
      let gyro_cal :=
        set_accel_stillness_detect
          (StillDet.set_prev_stillness_confidence zero
             (accel_stillness_detect gyro_cal)) gyro_cal in
      let gyro_cal :=
        set_gyro_stillness_detect
          (StillDet.set_prev_stillness_confidence zero
             (gyro_stillness_detect gyro_cal)) gyro_cal in
      let gyro_cal :=
        set_mag_stillness_detect
          (StillDet.set_prev_stillness_confidence zero
             (mag_stillness_detect gyro_cal)) gyro_cal in
      let gyro_cal := set_stillness_confidence zero gyro_cal in
      let gyro_cal := set_prev_still false gyro_cal in
      let gyro_cal :=
        if negb (StillDet.stillness_window_ready (mag_stillness_detect gyro_cal)) &&
           using_mag_sensor gyro_cal
        then set_using_mag_sensor false gyro_cal
        else gyro_cal in
      let gyro_cal :=
        set_gyro_watchdog_timeout
          (gyro_watchdog_timeout gyro_cal || watchdog_timeout) gyro_cal in
      let gyro_cal := set_gyro_watchdog_start_nanos 0 gyro_cal in
      (gyro_cal, st)
    else (gyro_cal, st).

(** Checks the state of all stillness detectors to determine whether the
    device is "still". *)
Definition deviceStillnessCheck (gyro_cal : GyroCal) (st : Statics.t)
  (sample_time_nanos : Z) : GyroCal * Statics.t :=
  let '(gyro_cal, st) := checkWatchdog gyro_cal st sample_time_nanos in
  if (negb (StillDet.stillness_window_ready (mag_stillness_detect gyro_cal)) &&
      using_mag_sensor gyro_cal) ||
     negb (StillDet.stillness_window_ready (accel_stillness_detect gyro_cal)) ||
     negb (StillDet.stillness_window_ready (gyro_stillness_detect gyro_cal))
  then (gyro_cal, st) (* Not yet, wait for more data. *)
  else
    let gyro_cal :=
      set_stillness_win_endtime_nanos
        (u64 (sample_time_nanos + window_time_duration_nanos gyro_cal)) gyro_cal in
    let gyro_cal :=
      set_accel_stillness_detect
        (gyroStillDetCompute (accel_stillness_detect gyro_cal)) gyro_cal in
    let gyro_cal :=
      set_gyro_stillness_detect
        (gyroStillDetCompute (gyro_stillness_detect gyro_cal)) gyro_cal in
    let gyro_cal :=
      if using_mag_sensor gyro_cal then
        set_mag_stillness_detect
          (gyroStillDetCompute (mag_stillness_detect gyro_cal)) gyro_cal
      else
        set_mag_stillness_detect
          (StillDet.set_stillness_confidence one (mag_stillness_detect gyro_cal))
          gyro_cal in
    let '(_, gyro_cal, st) := gyroStillMeanTracker gyro_cal st DO_UPDATE_DATA in
    let conf_not_rot :=
      mul (StillDet.stillness_confidence (gyro_stillness_detect gyro_cal))
          (StillDet.stillness_confidence (mag_stillness_detect gyro_cal)) in
    let conf_not_accel :=
      StillDet.stillness_confidence (accel_stillness_detect gyro_cal) in
    let conf_still := mul conf_not_rot conf_not_accel in
    let '(mean_not_stable, gyro_cal, st) :=
      gyroStillMeanTracker gyro_cal st DO_EVALUATE in
    let '(min_max_temp_exceeded, gyro_cal, st) :=
      gyroTemperatureStatsTracker gyro_cal st zero DO_EVALUATE in
    let device_is_still :=
      gtb conf_still (stillness_threshold gyro_cal) &&
      negb mean_not_stable && negb min_max_temp_exceeded in
    let '(gyro_cal, st) :=
      if device_is_still then
        let gyro_cal :=
          if negb (prev_still gyro_cal) then
            set_start_still_time_nanos
              (StillDet.window_start_time (gyro_stillness_detect gyro_cal)) gyro_cal
          else gyro_cal in
        let stillness_duration_exceeded :=
          u64 (StillDet.last_sample_time (gyro_stillness_detect gyro_cal) -
               start_still_time_nanos gyro_cal) >?
          max_still_duration_nanos gyro_cal in
        let '(_, gyro_cal, st) := gyroStillMeanTracker gyro_cal st DO_STORE_DATA in
        let '(_, gyro_cal, st) :=
          gyroTemperatureStatsTracker gyro_cal st zero DO_STORE_DATA in
        if stillness_duration_exceeded then
          let gyro_cal := reset_detectors true gyro_cal in
          let '(_, gyro_cal, st) := gyroStillMeanTracker gyro_cal st DO_RESET in
          let '(_, gyro_cal, st) :=
            gyroTemperatureStatsTracker gyro_cal st zero DO_RESET in
          let gyro_cal :=
            computeGyroCal gyro_cal
              (StillDet.last_sample_time (gyro_stillness_detect gyro_cal)) in
          (set_prev_still false gyro_cal, st)
        else
          let gyro_cal := reset_detectors false gyro_cal in
          (set_prev_still true gyro_cal, st)
      else
        let stillness_duration_too_short :=
          u64 (StillDet.window_start_time (gyro_stillness_detect gyro_cal) -
               start_still_time_nanos gyro_cal) <?
          min_still_duration_nanos gyro_cal in
        let gyro_cal :=
          if prev_still gyro_cal && negb stillness_duration_too_short then
            computeGyroCal gyro_cal
              (StillDet.window_start_time (gyro_stillness_detect gyro_cal))
          else gyro_cal in
        let gyro_cal := reset_detectors true gyro_cal in
        let '(_, gyro_cal, st) :=
          gyroTemperatureStatsTracker gyro_cal st zero DO_RESET in
        let '(_, gyro_cal, st) := gyroStillMeanTracker gyro_cal st DO_RESET in
        (set_prev_still false gyro_cal, st) in
    (set_gyro_watchdog_start_nanos sample_time_nanos gyro_cal, st).

(** Update the gyro calibration with gyro data [rad/sec]. *)
Definition gyroCalUpdateGyro (gyro_cal : GyroCal) (st : Statics.t)
  (sample_time_nanos : Z) (x y z temperature_celsius : float)
  : GyroCal * Statics.t :=
  let gyro_cal :=
    if stillness_win_endtime_nanos gyro_cal <=? 0 then
      let gyro_cal :=
        set_stillness_win_endtime_nanos
          (u64 (sample_time_nanos + window_time_duration_nanos gyro_cal)) gyro_cal in
      set_gyro_watchdog_start_nanos sample_time_nanos gyro_cal
    else gyro_cal in
  let '(gyro_cal, st) :=
    if gtb (NANO_ABS (sub temperature_celsius (Statics.latest_temperature_celsius st)))
           FLT_MIN
    then
      let '(_, gyro_cal, st) :=
        gyroTemperatureStatsTracker gyro_cal st temperature_celsius DO_UPDATE_DATA in
      (gyro_cal, st)
    else (gyro_cal, st) in
  let gyro_cal :=
    set_gyro_stillness_detect
      (gyroStillDetUpdate (gyro_stillness_detect gyro_cal)
         (stillness_win_endtime_nanos gyro_cal) sample_time_nanos x y z) gyro_cal in
  deviceStillnessCheck gyro_cal st sample_time_nanos.

(** Update the gyro calibration with mag data [micro Tesla]. *)
Definition gyroCalUpdateMag (gyro_cal : GyroCal) (st : Statics.t)
  (sample_time_nanos : Z) (x y z : float) : GyroCal * Statics.t :=
  let gyro_cal :=
    set_mag_stillness_detect
      (gyroStillDetUpdate (mag_stillness_detect gyro_cal)
         (stillness_win_endtime_nanos gyro_cal) sample_time_nanos x y z) gyro_cal in
  let gyro_cal := set_using_mag_sensor true gyro_cal in
  deviceStillnessCheck gyro_cal st sample_time_nanos.

(** Update the gyro calibration with accel data [m/sec^2]. *)
Definition gyroCalUpdateAccel (gyro_cal : GyroCal) (st : Statics.t)
  (sample_time_nanos : Z) (x y z : float) : GyroCal * Statics.t :=
  let gyro_cal :=
    set_accel_stillness_detect
      (gyroStillDetUpdate (accel_stillness_detect gyro_cal)
         (stillness_win_endtime_nanos gyro_cal) sample_time_nanos x y z) gyro_cal in
  deviceStillnessCheck gyro_cal st sample_time_nanos.

End StateMachine.

End GyroCal.

(** ** seos.c *)

Module Seos.

Definition EVT_SUBSCRIBE_TO_EVT : Z := 0.
Definition EVT_UNSUBSCRIBE_TO_EVT : Z := 1.
Definition EVT_DEFERRED_CALLBACK : Z := 2.
Definition EVT_PRIVATE_EVT : Z := 3.

(** Modelled from the spec: [EVENT_TYPE_BIT_DISCARDABLE] of seos.h, the top
    bit of a 32-bit event type. *)
Definition EVENT_TYPE_BIT_DISCARDABLE : Z := 2 ^ 31.

(** Modelled from the spec: [TaggedPtr] of util.h, one word carrying either a
    free-callback address or an unsigned task id, as the two-variant sum type
    the specification describes.  Zero in either form means "no free action". *)
Inductive TaggedPtr : Type :=
| TaggedFn (fn : Z)
| TaggedUint (u : Z).

Definition taggedPtrIsPtr (t : TaggedPtr) : bool :=
  match t with TaggedFn _ => true | TaggedUint _ => false end.
Definition taggedPtrIsUint (t : TaggedPtr) : bool :=
  match t with TaggedFn _ => false | TaggedUint _ => true end.
Definition taggedPtrToPtr (t : TaggedPtr) : Z :=
  match t with TaggedFn fn => fn | TaggedUint _ => 0 end.
Definition taggedPtrToUint (t : TaggedPtr) : Z :=
  match t with TaggedFn _ => 0 | TaggedUint u => u end.
Definition taggedPtrMakeFromPtr (fn : Z) : TaggedPtr := TaggedFn fn.
Definition taggedPtrMakeFromUint (u : Z) : TaggedPtr := TaggedUint u.

(** [union InternalThing]: the members overlay the same four words. *)
Record InternalThing : Type := mkThing {
  word0 : Z;
  word1 : Z;
  word2 : TaggedPtr;
  word3 : Z
}.

Definition evtSub_tid (da : InternalThing) : Z := word0 da.
Definition evtSub_evt (da : InternalThing) : Z := word1 da.
Definition deferred_callback (da : InternalThing) : Z := word0 da.
Definition deferred_cookie (da : InternalThing) : Z := word1 da.
Definition privateEvt_evtType (da : InternalThing) : Z := word0 da.
Definition privateEvt_evtData (da : InternalThing) : Z := word1 da.
Definition privateEvt_evtFreeInfo (da : InternalThing) : TaggedPtr := word2 da.
Definition privateEvt_toTid (da : InternalThing) : Z := word3 da.

(** What an event's [void *evtData] points to: memory the kernel never looks
    into, or an [InternalThing] taken from [mMiscInternalThingsSlab]. *)
Inductive EvtData : Type :=
| DataPtr (p : Z)
| DataThing (da : InternalThing).

Record Event : Type := mkEvent {
  evtType : Z;
  evtData : EvtData;
  evtFreeingInfo : TaggedPtr
}.

(** The last argument of [cpuAppHandle]: the event data, or the
    [struct AppEventFreeData] built for [EVT_APP_FREE_EVT_DATA]. *)
Inductive HandlerArg : Type :=
| ArgData (d : EvtData)
| ArgFreeData (evtType : Z) (evtData : EvtData).

(** Calls that leave the kernel, and the two bookkeeping points the
    properties talk about ([TrFree]: [handleEventFreeing] was entered;
    [TrRetain]: [osRetainCurrentEvent] returned). *)
Inductive TraceEv : Type :=
| TrFree (evtType : Z) (evtData : EvtData) (evtFreeData : TaggedPtr)
| TrCallFreeF (fn : Z) (evtData : EvtData)
| TrAppHandle (tid : Z) (evtType : Z) (arg : HandlerArg)
| TrDeferred (callback cookie : Z)
| TrRetain (ok : bool) (copied : option TaggedPtr)
| TrLogError
| TrHeapAlloc (bytes : Z) (ok : bool)
| TrHeapFree (blk : list Z).

(** Where [task->subbedEvents] points: nowhere, to the embedded array
    [subbedEventsInt], or to a heap chunk (shown by its contents). *)
Inductive SubPtr : Type :=
| SubNull
| SubEmbedded
| SubHeap (blk : list Z).

(** [struct Task]; the per-platform [platInfo] is only handed through to the
    cpu layer and is left out. *)
Record Task : Type := mkTask {
  tid : Z;
  subbedEvtCount : Z;
  subbedEvtListSz : Z;
  subbedEvents : SubPtr;
  appHdr : Z;
  subbedEventsInt : list Z
}.

Definition set_subbedEvtCount (v : Z) (r : Task) : Task :=
  let 'mkTask t cnt sz p hdr emb := r in
  mkTask t v sz p hdr emb.

Definition set_subbedEvtListSz (v : Z) (r : Task) : Task :=
  let 'mkTask t cnt sz p hdr emb := r in
  mkTask t cnt v p hdr emb.

Definition set_subbedEvents (v : SubPtr) (r : Task) : Task :=
  let 'mkTask t cnt sz p hdr emb := r in
  mkTask t cnt sz v hdr emb.

Definition set_subbedEventsInt (v : list Z) (r : Task) : Task :=
  let 'mkTask t cnt sz p hdr emb := r in
  mkTask t cnt sz p hdr v.

Definition set_tid (v : Z) (r : Task) : Task :=
  let 'mkTask t cnt sz p hdr emb := r in
  mkTask v cnt sz p hdr emb.

(** The file-scope statics of seos.c, the heap as a sequence of future
    [heapAlloc] outcomes ([None]: the request fails; [Some junk]: it succeeds
    and the chunk initially holds [junk]), and the trace. *)
Record Kernel : Type := mkKernel {
  mTasks : list Task;
  mTaskCnt : Z;
  mNextTidInfo : Z;
  mCurEvtEventFreeingInfo : option TaggedPtr;
  mEvtsInternal : list Event;
  slab_avail : Z;
  heap : list (option (list Z));
  trace : list TraceEv
}.

Definition set_mTasks (v : list Task) (r : Kernel) : Kernel :=
  let 'mkKernel ts n nt cur q sl h tr := r in
  mkKernel v n nt cur q sl h tr.

Definition set_mTaskCnt (v : Z) (r : Kernel) : Kernel :=
  let 'mkKernel ts n nt cur q sl h tr := r in
  mkKernel ts v nt cur q sl h tr.

Definition set_mNextTidInfo (v : Z) (r : Kernel) : Kernel :=
  let 'mkKernel ts n nt cur q sl h tr := r in
  mkKernel ts n v cur q sl h tr.

Definition set_mCurEvtEventFreeingInfo (v : option TaggedPtr) (r : Kernel) : Kernel :=
  let 'mkKernel ts n nt cur q sl h tr := r in
  mkKernel ts n nt v q sl h tr.

Definition set_mEvtsInternal (v : list Event) (r : Kernel) : Kernel :=
  let 'mkKernel ts n nt cur q sl h tr := r in
  mkKernel ts n nt cur v sl h tr.

Definition set_slab_avail (v : Z) (r : Kernel) : Kernel :=
  let 'mkKernel ts n nt cur q sl h tr := r in
  mkKernel ts n nt cur q v h tr.

Definition set_heap (v : list (option (list Z))) (r : Kernel) : Kernel :=
  let 'mkKernel ts n nt cur q sl h tr := r in
  mkKernel ts n nt cur q sl v tr.

Definition set_trace (v : list TraceEv) (r : Kernel) : Kernel :=
  let 'mkKernel ts n nt cur q sl h tr := r in
  mkKernel ts n nt cur q sl h v.

Definition emit (ev : TraceEv) (k : Kernel) : Kernel :=
  set_trace (trace k ++ [ev]) k.

(** Calls an app or a callback can make back into the kernel while it runs. *)
Inductive Syscall : Type :=
| SysRetainCurrentEvent
| SysEventSubscribe (tid evtType : Z)
| SysEventUnsubscribe (tid evtType : Z)
| SysEnqueueEvt (evtType : Z) (evtData : Z) (evtFreeF : Z).

(** What seos.c takes from its headers and from the code it calls. *)
Record Platform : Type := mkPlatform {
  FIRST_VALID_TID : Z;
  LAST_VALID_TID : Z;
  EVT_NO_FIRST_USER_EVENT : Z;
  EVT_APP_FREE_EVT_DATA : Z;
  (** address of the static function [osDeferredActionFreeF] *)
  osDeferredActionFreeF : Z;
  (** admission policy of eventQ.c: the queue after the event was taken, or
      [None] when it is refused *)
  evtQueueEnqueue : list Event -> Event -> bool -> option (list Event);
  (** what the app with header [appHdr] does when [cpuAppHandle] enters it *)
  appCode : Z -> Z -> list Syscall;
  (** what the free callback at address [fn] does *)
  freeCode : Z -> list Syscall;
  (** what the deferred callback at address [callback] does with [cookie] *)
  deferCode : Z -> Z -> list Syscall
}.

(** *** Arrays *)

Fixpoint list_set {A : Type} (l : list A) (i : nat) (v : A) : list A :=
  match l, i with
  | [], _ => []
  | _ :: l', O => v :: l'
  | x :: l', S i' => x :: list_set l' i' v
  end.

Definition znth (l : list Z) (i : Z) : Z := nth (Z.to_nat i) l 0.
Definition zset {A : Type} (l : list A) (i : Z) (v : A) : list A :=
  list_set l (Z.to_nat i) v.

(** *** Task registry *)

(** [for (i = 0; i < mTaskCnt; i++) if (mTasks[i].tid && mTasks[i].tid == tid)]
    over the slots from [i] on; the result is the index of the slot found. *)
Fixpoint find_tid_from (slots : list Task) (n : nat) (i : Z) (t : Z) : option Z :=
  match n, slots with
  | S n', s :: slots' =>
      if negb (tid s =? 0) && (tid s =? t) then Some i
      else find_tid_from slots' n' (i + 1) t
  | _, _ => None
  end.

Definition osTaskFindByTid (k : Kernel) (t : Z) : option Z :=
  find_tid_from (mTasks k) (Z.to_nat (mTaskCnt k)) 0 t.

Definition task_at (k : Kernel) (i : Z) : option Task :=
  nth_error (mTasks k) (Z.to_nat i).

Section WithPlatform.

Variable P : Platform.

(** One pass of the [do ... while] body of [osGetFreeTid]. *)
Definition advance_tid (c : Z) : Z :=
  if c =? LAST_VALID_TID P then FIRST_VALID_TID P else u32 (c + 1).

(** [osGetFreeTid]; the loop has no bound of its own, [fuel] bounds the number
    of passes and [None] means they were all used up. *)
Fixpoint osGetFreeTid (fuel : nat) (k : Kernel) : option (Z * Kernel) :=
  match fuel with
  | O => None
  | S fuel' =>
      let k := set_mNextTidInfo (advance_tid (mNextTidInfo k)) k in
      match osTaskFindByTid k (mNextTidInfo k) with
      | Some _ => osGetFreeTid fuel' k
      | None => Some (mNextTidInfo k, k)
      end
  end.

(** *** Heap and slab *)

(** A chunk of [bytes] bytes as 32-bit words, holding [junk] at first. *)
Definition chunk (bytes : Z) (junk : list Z) : list Z :=
  let n := Z.to_nat (bytes / 4) in firstn n (junk ++ repeat 0 n).

(** Modelled from the spec: [heapAlloc] and [heapFree] of heap.c.  The
    specification takes the allocator as given and names only its failure;
    every request is answered by the next recorded outcome, and a request
    beyond the recorded ones fails. *)
Definition heapAlloc (bytes : Z) (k : Kernel) : option (list Z) * Kernel :=
  match heap k with
  | Some junk :: h =>
      (Some (chunk bytes junk), emit (TrHeapAlloc bytes true) (set_heap h k))
  | None :: h => (None, emit (TrHeapAlloc bytes false) (set_heap h k))
  | [] => (None, emit (TrHeapAlloc bytes false) k)
  end.

Definition heapFree (blk : list Z) (k : Kernel) : Kernel := emit (TrHeapFree blk) k.

(** Modelled from the spec: [slabAllocatorAlloc] and [slabAllocatorFree] of
    slab.c on [mMiscInternalThingsSlab], a fixed-size slab: allocation fails
    when no item is left. *)
Definition slabAllocatorAlloc (k : Kernel) : option Kernel :=
  if 0 <? slab_avail k then Some (set_slab_avail (slab_avail k - 1) k) else None.

Definition slabAllocatorFree (k : Kernel) : Kernel :=
  set_slab_avail (slab_avail k + 1) k.

(** *** Subscription lists *)

(** The array [task->subbedEvents] points to. *)
Definition sub_buf (t : Task) : list Z :=
  match subbedEvents t with
  | SubNull => []
  | SubEmbedded => subbedEventsInt t
  | SubHeap blk => blk
  end.

(** [task->subbedEvents[i] = v]. *)
Definition sub_store (i v : Z) (t : Task) : Task :=
  match subbedEvents t with
  | SubNull => t
  | SubEmbedded => set_subbedEventsInt (zset (subbedEventsInt t) i v) t
  | SubHeap blk => set_subbedEvents (SubHeap (zset blk i v)) t
  end.

(** [for (i = 0; i < count && buf[i] != evt; i++);] started at [i] with [n]
    slots to go: the value of [i] when the loop is left. *)
Fixpoint sub_scan (buf : list Z) (evt : Z) (n : nat) (i : Z) : Z :=
  match n with
  | O => i
  | S n' => if znth buf i =? evt then i else sub_scan buf evt n' (i + 1)
  end.

Definition sub_index (t : Task) (evt : Z) : Z :=
  sub_scan (sub_buf t) evt (Z.to_nat (subbedEvtCount t)) 0.

(** The subscribed event types, in list order. *)
Definition subscriptions (t : Task) : list Z :=
  firstn (Z.to_nat (subbedEvtCount t)) (sub_buf t).

(** [memcpy(newList, task->subbedEvents, sizeof(uint32_t[n]))]. *)
Definition memcpy_words (dst src : list Z) (n : Z) : list Z :=
  firstn (Z.to_nat n) src ++ skipn (Z.to_nat n) dst.

(** The "enlarge the list" block of [osInternalEvtHandle]. *)
Definition sub_enlarge (t : Task) (k : Kernel) : Task * Kernel :=
  let newSz := u32 ((subbedEvtListSz t * 3 + 1) / 2) in
  let '(newList, k) := heapAlloc (4 * newSz) k in
  match newList with
  | Some newList =>
      let newList := memcpy_words newList (sub_buf t) (subbedEvtListSz t) in
      let k :=
        match subbedEvents t with
        | SubHeap old => heapFree old k
        | _ => k
        end in
      let t := set_subbedEvents (SubHeap newList) t in
      (set_subbedEvtListSz (u16 newSz) t, k)
  | None => (t, k)
  end.

(** The [EVT_SUBSCRIBE_TO_EVT] / [EVT_UNSUBSCRIBE_TO_EVT] case of
    [osInternalEvtHandle], once the task has been found. *)
Definition sub_unsub (evtType evt : Z) (t : Task) (k : Kernel) : Task * Kernel :=
  let i := sub_index t evt in
  if (evtType =? EVT_UNSUBSCRIBE_TO_EVT) && negb (i =? subbedEvtCount t) then
    let t := set_subbedEvtCount (u16 (subbedEvtCount t - 1)) t in
    (sub_store i (znth (sub_buf t) (subbedEvtCount t)) t, k)
  else if (evtType =? EVT_SUBSCRIBE_TO_EVT) && (i =? subbedEvtCount t) then
    let '(t, k) :=
      if subbedEvtListSz t =? subbedEvtCount t then sub_enlarge t k else (t, k) in
    if subbedEvtListSz t >? subbedEvtCount t then
      let t := sub_store (subbedEvtCount t) evt t in
      (set_subbedEvtCount (u16 (subbedEvtCount t + 1)) t, k)
    else (t, k)
  else (t, k).

(** *** Retaining *)

(** [osRetainCurrentEvent]: the bool result and what it wrote to
    [*evtFreeingInfoP]. *)
Definition osRetainCurrentEvent (k : Kernel) : bool * option TaggedPtr * Kernel :=
  match mCurEvtEventFreeingInfo k with
  | None => (false, None, k)
  | Some info => (true, Some info, set_mCurEvtEventFreeingInfo None k)
  end.

(** *** Enqueueing *)

Definition osEnqueueEvt (evtType : Z) (evtData : EvtData) (evtFreeF : Z)
  (k : Kernel) : bool * Kernel :=
  match evtQueueEnqueue P (mEvtsInternal k)
          (mkEvent evtType evtData (taggedPtrMakeFromPtr evtFreeF)) false with
  | Some q => (true, set_mEvtsInternal q k)
  | None => (false, k)
  end.

Definition osEnqueueEvtAsApp (evtType : Z) (evtData : EvtData) (fromAppTid : Z)
  (k : Kernel) : bool * Kernel :=
  match evtQueueEnqueue P (mEvtsInternal k)
          (mkEvent evtType evtData (taggedPtrMakeFromUint fromAppTid)) false with
  | Some q => (true, set_mEvtsInternal q k)
  | None => (false, k)
  end.

(** [osEnqueueEvtOrFree] as the kernel itself uses it, with
    [osDeferredActionFreeF] (a [slabAllocatorFree]) as the free function. *)
Definition osEnqueueEvtOrFree_internal (evtType : Z) (act : InternalThing)
  (k : Kernel) : bool * Kernel :=
  let '(success, k) :=
    osEnqueueEvt evtType (DataThing act) (osDeferredActionFreeF P) k in
  if negb success && negb (osDeferredActionFreeF P =? 0)
  then (success, slabAllocatorFree k)
  else (success, k).

(** The words of the slab item the function does not write are shown as zero. *)
Definition osEventSubscribeUnsubscribe (tid evtType : Z) (sub : bool)
  (k : Kernel) : bool * Kernel :=
  match slabAllocatorAlloc k with
  | None => (false, k)
  | Some k =>
      let act := mkThing tid evtType (TaggedFn 0) 0 in
      osEnqueueEvtOrFree_internal
        (if sub then EVT_SUBSCRIBE_TO_EVT else EVT_UNSUBSCRIBE_TO_EVT) act k
  end.

Definition osEventSubscribe (tid evtType : Z) (k : Kernel) : bool * Kernel :=
  osEventSubscribeUnsubscribe tid evtType true k.

Definition osEventUnsubscribe (tid evtType : Z) (k : Kernel) : bool * Kernel :=
  osEventSubscribeUnsubscribe tid evtType false k.

Definition osDefer (callback cookie : Z) (urgent : bool) (k : Kernel) : bool * Kernel :=
  match slabAllocatorAlloc k with
  | None => (false, k)
  | Some k =>
      let act := mkThing callback cookie (TaggedFn 0) 0 in
      match evtQueueEnqueue P (mEvtsInternal k)
              (mkEvent EVT_DEFERRED_CALLBACK (DataThing act)
                 (taggedPtrMakeFromPtr (osDeferredActionFreeF P))) urgent with
      | Some q => (true, set_mEvtsInternal q k)
      | None => (false, slabAllocatorFree k)
      end
  end.

Definition osEnqueuePrivateEvtEx (evtType evtData : Z) (evtFreeInfo : TaggedPtr)
  (toTid : Z) (k : Kernel) : bool * Kernel :=
  match slabAllocatorAlloc k with
  | None => (false, k)
  | Some k =>
      let act := mkThing evtType evtData evtFreeInfo toTid in
      osEnqueueEvtOrFree_internal EVT_PRIVATE_EVT act k
  end.

Definition osEnqueuePrivateEvt (evtType evtData evtFreeF toTid : Z) (k : Kernel)
  : bool * Kernel :=
  osEnqueuePrivateEvtEx evtType evtData (taggedPtrMakeFromPtr evtFreeF) toTid k.

Definition osEnqueuePrivateEvtAsApp (evtType evtData fromAppTid toTid : Z)
  (k : Kernel) : bool * Kernel :=
  osEnqueuePrivateEvtEx evtType evtData (taggedPtrMakeFromUint fromAppTid) toTid k.

(** *** Code entered from the kernel *)

Definition syscall (c : Syscall) (k : Kernel) : Kernel :=
  match c with
  | SysRetainCurrentEvent =>
      let '(ok, copied, k) := osRetainCurrentEvent k in
      emit (TrRetain ok copied) k
  | SysEventSubscribe tid evtType => snd (osEventSubscribe tid evtType k)
  | SysEventUnsubscribe tid evtType => snd (osEventUnsubscribe tid evtType k)
  | SysEnqueueEvt evtType evtData evtFreeF =>
      snd (osEnqueueEvt evtType (DataPtr evtData) evtFreeF k)
  end.

Definition run (code : list Syscall) (k : Kernel) : Kernel :=
  fold_left (fun k c => syscall c k) code k.

Definition cpuAppHandle (t : Task) (evtType : Z) (arg : HandlerArg)
  (k : Kernel) : Kernel :=
  run (appCode P (appHdr t) evtType) (emit (TrAppHandle (tid t) evtType arg) k).

(** [((EventFreeF)fn)(evtData)]. *)
Definition callEventFreeF (fn : Z) (evtData : EvtData) (k : Kernel) : Kernel :=
  let k := emit (TrCallFreeF fn evtData) k in
  if fn =? osDeferredActionFreeF P then slabAllocatorFree k
  else run (freeCode P fn) k.

(** *** Freeing, internal actions, the dispatch loop *)

Definition handleEventFreeing (evtType : Z) (evtData : EvtData)
  (evtFreeData : TaggedPtr) (k : Kernel) : Kernel :=
  let k := emit (TrFree evtType evtData evtFreeData) k in
  if (taggedPtrIsPtr evtFreeData && (taggedPtrToPtr evtFreeData =? 0)) ||
     (taggedPtrIsUint evtFreeData && (taggedPtrToUint evtFreeData =? 0))
  then k
  else if taggedPtrIsPtr evtFreeData then
    callEventFreeF (taggedPtrToPtr evtFreeData) evtData k
  else
    match osTaskFindByTid k (taggedPtrToUint evtFreeData) with
    | None => emit TrLogError k
    | Some i =>
        match task_at k i with
        | Some task =>
            cpuAppHandle task (EVT_APP_FREE_EVT_DATA P) (ArgFreeData evtType evtData) k
        | None => k
        end
    end.


(** [osInternalEvtHandle].  An internal event whose data is not a slab item
    is not something the kernel's own entry points produce; the loop would
    read foreign memory as an [InternalThing], and the model stops there. *)
Definition osInternalEvtHandle (evtType : Z) (evtData : EvtData) (k : Kernel)
  : Kernel :=
  match evtData with
  | DataPtr _ => k
  | DataThing da =>
      if (evtType =? EVT_SUBSCRIBE_TO_EVT) || (evtType =? EVT_UNSUBSCRIBE_TO_EVT) then
        match osTaskFindByTid k (evtSub_tid da) with
        | None => k
        | Some i =>
            match task_at k i with
            | Some task =>
                let '(task, k) := sub_unsub evtType (evtSub_evt da) task k in
                set_mTasks (zset (mTasks k) i task) k
            | None => k
            end
        end
      else if evtType =? EVT_DEFERRED_CALLBACK then
        let k := emit (TrDeferred (deferred_callback da) (deferred_cookie da)) k in
        run (deferCode P (deferred_callback da) (deferred_cookie da)) k
      else if evtType =? EVT_PRIVATE_EVT then
        let k :=
          match osTaskFindByTid k (privateEvt_toTid da) with
          | Some i =>
              match task_at k i with
              | Some task =>
                  (* private events cannot be retained *)
                  let tmp := mCurEvtEventFreeingInfo k in
                  let k := set_mCurEvtEventFreeingInfo None k in
                  let k :=
                    cpuAppHandle task (privateEvt_evtType da)
                      (ArgData (DataPtr (privateEvt_evtData da))) k in
                  set_mCurEvtEventFreeingInfo tmp k
              | None => k
              end
          | None => k
          end in
        handleEventFreeing (privateEvt_evtType da) (DataPtr (privateEvt_evtData da))
          (privateEvt_evtFreeInfo da) k
      else k
  end.

(** [evtType & ~EVENT_TYPE_BIT_DISCARDABLE]. *)
Definition clear_discardable (evtType : Z) : Z :=
  Z.ldiff evtType EVENT_TYPE_BIT_DISCARDABLE.

(** The body of the outer [for] of [osMainDequeueLoop] for slot [i]. *)
Definition deliver_to_slot (i : Z) (evtType : Z) (evtData : EvtData)
  (k : Kernel) : Kernel :=
  match task_at k i with
  | None => k
  | Some task =>
      match subbedEvents task with
      | SubNull => k (* only check real tasks *)
      | _ =>
          if sub_index task (clear_discardable evtType) =? subbedEvtCount task
          then k
          else cpuAppHandle task (clear_discardable evtType) (ArgData evtData) k
      end
  end.

(** [for (i = ...; i < mTaskCnt; i++)], with [mTaskCnt] read afresh before
    every pass; [n] bounds the passes and is the number of array slots. *)
Fixpoint deliver_from (n : nat) (i : Z) (evtType : Z) (evtData : EvtData)
  (k : Kernel) : Kernel :=
  match n with
  | O => k
  | S n' =>
      if i <? mTaskCnt k
      then deliver_from n' (i + 1) evtType evtData (deliver_to_slot i evtType evtData k)
      else k
  end.

(** Everything [osMainDequeueLoop] does with a dequeued event before it
    comes to "free it". *)
Definition deliver (e : Event) (k : Kernel) : Kernel :=
  let k := set_mCurEvtEventFreeingInfo (Some (evtFreeingInfo e)) k in
  if evtType e <? EVT_NO_FIRST_USER_EVENT P then
    osInternalEvtHandle (evtType e) (evtData e) k
  else
    deliver_from (length (mTasks k)) 0 (evtType e) (evtData e) k.

(** The "free it" step and the final clearing of the slot. *)
Definition release (e : Event) (k : Kernel) : Kernel :=
  let k :=
    match mCurEvtEventFreeingInfo k with
    | Some _ => handleEventFreeing (evtType e) (evtData e) (evtFreeingInfo e) k
    | None => k
    end in
  set_mCurEvtEventFreeingInfo None k.

Definition process_event (e : Event) (k : Kernel) : Kernel :=
  release e (deliver e k).

(** Modelled from the spec: [evtQueueDequeue] of eventQ.c returns the oldest
    pending event, and nothing when the queue is empty. *)
Definition evtQueueDequeue (q : list Event) : option (Event * list Event) :=
  match q with
  | [] => None
  | e :: q' => Some (e, q')
  end.

Definition osMainDequeueLoop (k : Kernel) : Kernel :=
  match evtQueueDequeue (mEvtsInternal k) with
  | None => k
  | Some (e, q) => process_event e (set_mEvtsInternal q k)
  end.

End WithPlatform.

End Seos.


(** ** gyro_cal.c: initialisation *)

Module GyroCalSetup.

Import GyroCal.

(** What [memset(gyro_cal, 0, sizeof(struct GyroCal))] leaves: every flag
    false, every integer 0 and every float +0.0; the detector's own words are
    [det_words] zeros. *)
Definition det_zeroed (det_words : nat) : StillDet.GyroStillDet :=
  StillDet.mkGyroStillDet false zero zero zero zero zero zero zero zero 0 0
    (repeat 0 det_words).

Definition zeroed (det_words : nat) : GyroCal :=
  mkGyroCal (det_zeroed det_words) (det_zeroed det_words) (det_zeroed det_words)
    zero zero zero zero 0 false 0 0 0 0 0 0 false zero 0 false
    zero zero false false zero (zero, zero, zero) (zero, zero, zero) (zero, zero) zero.

Section Init.

(** [gyroStillDetInit] of the detector primitive and the size of its part of
    [struct GyroStillDet]. *)
Variable gyroStillDetInit : StillDet.GyroStillDet -> float -> float -> StillDet.GyroStillDet.
Variable det_words : nat.

(** Initialize the gyro calibration data structure.  [st] holds the trackers'
    statics when the function is entered. *)
Definition gyroCalInit (st : Statics.t)
  (min_still_duration_nanos max_still_duration_nanos : Z)
  (bias_x bias_y bias_z : float) (calibration_time_nanos : Z)
  (window_time_duration_nanos : Z)
  (gyro_var_threshold gyro_confidence_delta : float)
  (accel_var_threshold accel_confidence_delta : float)
  (mag_var_threshold mag_confidence_delta : float)
  (stillness_threshold stillness_mean_delta_limit : float)
  (temperature_delta_limit_celsius : float) (gyro_calibration_enable : bool)
  : GyroCal * Statics.t :=
  let 'mkGyroCal acc gyr mag bx by_ bz btemp ctime pstill sstart dmin dmax wdur wdto
      wdst wdfl thr wend en mlim tlim navail umag sconf wmin wmax tmm tmean :=
    zeroed det_words in
  let gyr := gyroStillDetInit gyr gyro_var_threshold gyro_confidence_delta in
  let acc := gyroStillDetInit acc accel_var_threshold accel_confidence_delta in
  let mag := gyroStillDetInit mag mag_var_threshold mag_confidence_delta in
  let pstill := false in
  let sstart := 0 in
  let dmin := min_still_duration_nanos in
  let dmax := max_still_duration_nanos in
  let wdur := window_time_duration_nanos in
  let wdto := u64 (2 * window_time_duration_nanos) in
  let bx := bias_x in
  let by_ := bias_y in
  let bz := bias_z in
  let ctime := calibration_time_nanos in
  let thr := stillness_threshold in
  let wend := 0 in
  let en := gyro_calibration_enable in
  let mlim := stillness_mean_delta_limit in
  let tlim := temperature_delta_limit_celsius in
  let gyro_cal :=
    mkGyroCal acc gyr mag bx by_ bz btemp ctime pstill sstart dmin dmax wdur wdto
      wdst wdfl thr wend en mlim tlim navail umag sconf wmin wmax tmm tmean in
  let '(_, gyro_cal, st) := gyroStillMeanTracker gyro_cal st DO_RESET in
  let '(_, gyro_cal, st) := gyroTemperatureStatsTracker gyro_cal st zero DO_RESET in
  (gyro_cal, st).

End Init.

End GyroCalSetup.

(** ** seos.c: apps and the task table *)

Module SeosApps.

Import Seos.

(** Modelled from the spec: [struct AppHdr] of seos.h, the descriptor an app
    starts with, by the fields seos.c reads from a loaded app's header. *)
Record AppHdr : Type := mkAppHdr {
  marker : Z;
  appId : Z;
  appVer : Z;
  rel_end : Z
}.

(** What the task-table code takes from its headers, from flash and from the
    cpu layer.  [cpuAppUnload] releases what the loader set up for the app
    and touches nothing of seos.c; it does not appear. *)
Record Cpu : Type := mkCpu {
  MAX_TASKS : Z;
  MAX_EMBEDDED_EVT_SUBS : Z;
  APP_HDR_MARKER_INTERNAL : Z;
  (** the header a [const struct AppHdr *] points to *)
  app_at : Z -> AppHdr;
  cpuAppLoad : Z -> bool;
  cpuInternalAppLoad : Z -> bool;
  (** [cpuAppInit] for the app with this header and tid: the calls its init
      function makes, and its result *)
  cpuAppInit : Z -> Z -> bool * list Syscall;
  (** the calls the app's end function makes *)
  cpuAppEnd : Z -> list Syscall
}.

Definition set_appHdr (v : Z) (r : Task) : Task :=
  let 'mkTask t cnt sz p hdr emb := r in
  mkTask t cnt sz p v emb.

Section WithCpu.

Variable C : Cpu.
Variable P : Platform.

(** [for (i = 0; i < mTaskCnt; i++)
       if (mTasks[i].appHdr && mTasks[i].appHdr->appId == appID)]
    over the slots from [i] on: the index of the slot found.  The loop is
    written out three times in seos.c, in [osTaskFindByAppID], [osTidById]
    and [osAppInfoById]. *)
Fixpoint find_app_from (slots : list Task) (n : nat) (i : Z) (id : Z) : option Z :=
  match n, slots with
  | S n', s :: slots' =>
      if negb (appHdr s =? 0) && (appId (app_at C (appHdr s)) =? id) then Some i
      else find_app_from slots' n' (i + 1) id
  | _, _ => None
  end.

Definition osTaskFindByAppID (k : Kernel) (appID : Z) : option Z :=
  find_app_from (mTasks k) (Z.to_nat (mTaskCnt k)) 0 appID.

(** [osTidById]: what is stored to [*tid]; [None] is the result [false]. *)
Definition osTidById (k : Kernel) (appID : Z) : option Z :=
  match find_app_from (mTasks k) (Z.to_nat (mTaskCnt k)) 0 appID with
  | Some i => option_map tid (task_at k i)
  | None => None
  end.

(** [osAppInfoById]: what is stored to [*appIdx], [*appVer], [*appSize]. *)
Definition osAppInfoById (k : Kernel) (appID : Z) : option (Z * Z * Z) :=
  match find_app_from (mTasks k) (Z.to_nat (mTaskCnt k)) 0 appID with
  | Some i =>
      option_map
        (fun t => (i, appVer (app_at C (appHdr t)), rel_end (app_at C (appHdr t))))
        (task_at k i)
  | None => None
  end.

(** [osAppInfoByIndex]: what is stored to [*appId], [*appVer], [*appSize]. *)
Definition osAppInfoByIndex (k : Kernel) (appIdx : Z) : option (Z * Z * Z) :=
  if appIdx <? mTaskCnt k then
    match task_at k appIdx with
    | Some t =>
        if appHdr t =? 0 then None
        else Some (appId (app_at C (appHdr t)), appVer (app_at C (appHdr t)),
                   rel_end (app_at C (appHdr t)))
    | None => None
    end
  else None.

(** [osLoadApp]: the index of the slot taken, or [None] for [NULL].  The
    header pointer is stored in the slot behind the live ones before the
    loader is tried, and stays there when it fails.  A table without such a
    slot does not occur while [mTaskCnt] is at most [MAX_TASKS], the size of
    the array; the model stops there. *)
Definition osLoadApp (app : Z) (k : Kernel) : option Z * Kernel :=
  if mTaskCnt k =? MAX_TASKS C then (None, k)
  else
    let i := mTaskCnt k in
    match task_at k i with
    | None => (None, k)
    | Some task =>
        let k := set_mTasks (zset (mTasks k) i (set_appHdr app task)) k in
        let done :=
          if marker (app_at C app) =? APP_HDR_MARKER_INTERNAL C
          then cpuInternalAppLoad C app
          else cpuAppLoad C app in
        if negb done then (None, k)
        else (Some i, set_mTaskCnt (u32 (mTaskCnt k + 1)) k)
    end.

(** [osUnloadApp] for the task in slot [i]: the last live slot is copied over
    it, unless it is the last one itself. *)
Definition osUnloadApp (i : Z) (k : Kernel) : Kernel :=
  let last := u32 (mTaskCnt k - 1) in
  let k :=
    if last >? i then
      match task_at k last with
      | Some t => set_mTasks (zset (mTasks k) i t) k
      | None => k
      end
    else k in
  set_mTaskCnt (u32 (mTaskCnt k - 1)) k.

(** [osStartApp]; [fuel] is handed to [osGetFreeTid], and [None] means that
    it was used up there. *)
Definition osStartApp (fuel : nat) (app : Z) (k : Kernel) : option (bool * Kernel) :=
  match osLoadApp app k with
  | (None, k) => Some (false, k)
  | (Some i, k) =>
      match task_at k i with
      | None => Some (false, k)
      | Some task =>
          let task := set_subbedEvtListSz (u16 (MAX_EMBEDDED_EVT_SUBS C)) task in
          let task := set_subbedEvents SubEmbedded task in
          let k := set_mTasks (zset (mTasks k) i task) k in
          match osGetFreeTid P fuel k with
          | None => None
          | Some (t, k) =>
              let task := set_tid t task in
              let k := set_mTasks (zset (mTasks k) i task) k in
              let '(done, code) := cpuAppInit C (appHdr task) t in
              let k := run P code k in
              if negb done then Some (false, osUnloadApp i k)
              else Some (true, k)
          end
      end
  end.

(** [osStopTask]; [task] is the slot index, [None] for [NULL]. *)
Definition osStopTask (task : option Z) (k : Kernel) : bool * Kernel :=
  match task with
  | None => (false, k)
  | Some i =>
      match task_at k i with
      | None => (false, k)
      | Some t =>
          let k := run P (cpuAppEnd C (appHdr t)) k in
          (true, osUnloadApp i k)
      end
  end.

End WithCpu.

End SeosApps.

(** * seos.c: the iterator over the apps of the shared flash area *)

Module SeosExtApps.

(** [struct ExtAppIterator].  Pointers are byte addresses; [NULL] is 0. *)
Record ExtAppIterator : Type := mkExtAppIterator {
  shared : Z;
  sharedEnd : Z;
  app : Z;
  appLen : Z
}.

Definition NULL : Z := 0.

(** What the iterator reads and is not in seos.c: the flash contents, the
    shared area [platGetSharedAreaInfo] reports (its start and its [uint32_t]
    size) and the constant [BL_FLASH_APP_ID]. *)
Record Flash : Type := mkFlash {
  contents : Z -> Z;
  platGetSharedAreaInfo : Z * Z;
  BL_FLASH_APP_ID : Z
}.

Section WithFlash.

Variable F : Flash.

(** [p[i]] for a [const uint8_t *p]. *)
Definition byte_at (p : Z) : Z := contents F p mod 2 ^ 8.

Definition osExtAppIteratorInit (it : ExtAppIterator) : ExtAppIterator :=
  let '(area, sz) := platGetSharedAreaInfo F in
  mkExtAppIterator area (area + u32 sz) NULL 0.

(** The [do ... while] of [osExtAppIteratorNext], from the address [p] on.
    [Some None] is the [return false] inside the loop; [Some (Some (p, len,
    app))] are the locals when the loop is left; [None] is the fuel running
    out.  Addresses do not wrap: the C code compares pointers into one area. *)
Fixpoint next_record (sharedEnd : Z) (fuel : nat) (p : Z)
  : option (option (Z * Z * Z)) :=
  match fuel with
  | O => None
  | S fuel' =>
      let id1 := Z.land (byte_at p) 15 in
      let id2 := Z.land (Z.shiftr (byte_at p) 4) 15 in
      let len :=
        u32 (Z.lor (Z.lor (Z.shiftl (byte_at (p + 1)) 16)
                          (Z.shiftl (byte_at (p + 2)) 8))
                   (byte_at (p + 3))) in
      let total_len := u32 (u32 (4 + Z.land (u32 (len + 3)) (u32 (Z.lnot 3))) + 4) in
      if p + total_len >? sharedEnd then Some None
      else
        let app := p + 4 in
        let p := p + total_len in
        if negb (id1 =? id2) && negb (id1 =? BL_FLASH_APP_ID F)
        then next_record sharedEnd fuel' p
        else Some (Some (p, len, app))
  end.

Definition osExtAppIteratorNext (fuel : nat) (it : ExtAppIterator)
  : option (bool * ExtAppIterator) :=
  match next_record (sharedEnd it) fuel (shared it) with
  | None => None
  | Some None => Some (false, it)
  | Some (Some (p, len, app)) =>
      Some (true, mkExtAppIterator p (sharedEnd it) app len)
  end.

End WithFlash.

End SeosExtApps.
(** * Concrete inputs *)

Module Examples.

Import GyroCal.

(** A detector and a [GyroCal] as [memset(.., 0, ..)] leaves them. *)
Definition det0 : StillDet.GyroStillDet :=
  StillDet.mkGyroStillDet false zero zero zero zero zero zero zero zero 0 0 [].

Definition gc0 : GyroCal :=
  mkGyroCal det0 det0 det0 zero zero zero zero 0 false 0 0 0 0 0 0 false zero 0 false
    zero zero false false zero (zero, zero, zero) (zero, zero, zero) (zero, zero) zero.

(** 0.5f, 0.001f, -0.002f, 0.0005f and 0.2f. *)
Definition f_half : float := S754_finite false 8388608 (-24).
Definition f_0_001 : float := S754_finite false 8589935 (-33).
Definition f_m0_002 : float := S754_finite true 8589935 (-32).
Definition f_0_0005 : float := S754_finite false 8589935 (-34).
Definition f_0_2 : float := S754_finite false 13421773 (-26).

(** Calibration disabled, bias (0.5, 0.5, 0.5). *)
Definition gc_disabled : GyroCal :=
  set_bias_x f_half (set_bias_y f_half (set_bias_z f_half gc0)).

(** A gyro detector whose previous window means are (0.001, -0.002, 0.0005),
    as in the "accept" scenario, and one with (0.2, 0, 0), as in the
    "reject out-of-range" scenario. *)
Definition det_small_means : StillDet.GyroStillDet :=
  StillDet.mkGyroStillDet false one one f_0_001 f_m0_002 f_0_0005 zero zero zero
    1000 3000 [].

Definition det_large_mean : StillDet.GyroStillDet :=
  StillDet.mkGyroStillDet false one one f_0_2 zero zero zero zero zero 1000 3000 [].

Definition gc_accept : GyroCal := set_gyro_stillness_detect det_small_means gc0.
Definition gc_reject : GyroCal := set_gyro_stillness_detect det_large_mean gc0.

(** A detector reset that clears the window-ready flag and, with
    [reset_stats], the accumulators. *)
Definition reset_flag (d : StillDet.GyroStillDet) (reset_stats : bool)
  : StillDet.GyroStillDet :=
  let 'StillDet.mkGyroStillDet rdy conf pconf pmx pmy pmz wmx wmy wmz wst lst priv := d in
  StillDet.mkGyroStillDet false conf pconf pmx pmy pmz wmx wmy wmz wst lst
    (if reset_stats then [] else priv).

(** Window of 500 ms, watchdog armed at t = 1 ns, mag in use with a window
    that never became ready, confidences left over from earlier windows. *)
Definition det_stale : StillDet.GyroStillDet :=
  StillDet.mkGyroStillDet false one f_half zero zero zero zero zero zero 0 0 [1; 2; 3].

Definition gc_stalled : GyroCal :=
  mkGyroCal det_stale det_stale det_stale zero zero zero zero 0 true 0 0 0
    500000000 1000000000 1 false zero 500000001 true
    zero zero false true f_half (zero, zero, zero) (zero, zero, zero) (zero, zero) zero.

(** *** seos.c *)

Import Seos.

(** A queue that admits events while fewer than 512 are pending, urgent ones
    at the front. *)
Definition fifo512 (q : list Event) (e : Event) (urgent : bool) : option (list Event) :=
  if (Z.of_nat (length q) <? 512)
  then Some (if urgent then e :: q else q ++ [e])
  else None.

Definition no_code : Z -> Z -> list Syscall := fun _ _ => [].

(** Tids 1 .. 0x0fffffff, user events from 0x100, apps and callbacks that make
    no calls back into the kernel. *)
Definition plat : Platform :=
  mkPlatform 1 268435455 256 255 4096 fifo512 no_code (fun _ => []) no_code.


(** A task with an empty embedded subscription array of six entries. *)
Definition task_with (t hdr : Z) : Task :=
  mkTask t 0 6 SubEmbedded hdr [0; 0; 0; 0; 0; 0].

Definition kernel_with (tasks : list Task) (next : Z) : Kernel :=
  mkKernel tasks (Z.of_nat (length tasks)) next None [] 64 [] [].

(** Counter one below the range, tid 1 live. *)
Definition k_skip_live : Kernel := kernel_with [task_with 1 100] 0.



(** Task 5 with its six embedded slots all in use. *)
Definition task_full : Task := mkTask 5 6 6 SubEmbedded 100 [10; 11; 12; 13; 14; 15].

(** A kernel holding [task_full] whose heap refuses the next request, and one
    whose heap serves it with a chunk of zeroes. *)
Definition k_heap_exhausted : Kernel := kernel_with [task_full] 1.

Definition k_heap_serves : Kernel :=
  mkKernel [task_full] 1 1 None [] 64 [Some []] [].



(** As [plat], except that the app with header 100 tries to retain whatever
    it is handed. *)
Definition plat_app_retains : Platform :=
  mkPlatform 1 268435455 256 255 4096 fifo512
    (fun hdr _ => if hdr =? 100 then [SysRetainCurrentEvent] else [])
    (fun _ => []) no_code.

(** Task 5 (header 100) with no subscriptions, and a user event it owns:
    type 0x400, free-info "task 5". *)
Definition k_owner : Kernel := kernel_with [task_with 5 100] 1.

Definition ev_owned : Event := mkEvent 1024 (DataPtr 4242) (TaggedUint 5).

(** A private event for task 5: type 0x400, data 4242, free callback 8192. *)
Definition private_for_5 : InternalThing := mkThing 1024 4242 (TaggedFn 8192) 5.

End Examples.


(** ** Further concrete inputs *)

Module GyroScenes.

Import GyroCal.

(** Detector stand-ins: an update and a confidence computation that leave the
    detector as it is. *)
Definition update_keep (d : StillDet.GyroStillDet) (win_end sample_time : Z)
  (x y z : float) : StillDet.GyroStillDet := d.

Definition compute_keep (d : StillDet.GyroStillDet) : StillDet.GyroStillDet := d.

Definition init_keep (d : StillDet.GyroStillDet) (var_threshold confidence_delta : float)
  : StillDet.GyroStillDet := d.

(** A detector with a window ready: confidence 1, window from t = 1000 to
    t = 3000. *)
Definition det_ready : StillDet.GyroStillDet :=
  StillDet.mkGyroStillDet true one one zero zero zero zero zero zero 1000 3000 [].

(** All three detectors ready, magnetometer not in use, watchdog not armed,
    window 500 ms, stillness threshold 0.5, maximum stillness 10 s. *)
Definition gc_window_ready : GyroCal :=
  mkGyroCal det_ready det_ready det_ready zero zero zero zero 0 false 0 0 10000000000
    500000000 1000000000 0 false Examples.f_half 3000 true
    Examples.f_half Examples.f_half false false zero
    (zero, zero, zero) (zero, zero, zero) (zero, zero) zero.

(** The same with the watchdog flag raised by an earlier timeout. *)
Definition gc_flagged : GyroCal := set_gyro_watchdog_timeout true gc_window_ready.

End GyroScenes.

Module KernelScenes.

Import Seos.

(** As [Examples.plat], except that the app with header 100, whenever it is
    entered, subscribes task 6 to event 0x400. *)
Definition plat_busy : Platform :=
  mkPlatform 1 268435455 256 255 4096 Examples.fifo512
    (fun hdr _ => if hdr =? 100 then [SysEventSubscribe 6 1024] else [])
    (fun _ => []) Examples.no_code.

(** Tasks 5 and 7 subscribed to event 0x400, task 6 to nothing. *)
Definition k_three : Kernel :=
  Examples.kernel_with
    [mkTask 5 1 6 SubEmbedded 100 [1024; 0; 0; 0; 0; 0];
     Examples.task_with 6 101;
     mkTask 7 2 6 SubEmbedded 102 [7; 1024; 0; 0; 0; 0]] 7.

(** Event 0x400, marked discardable, with no free action. *)
Definition ev_discardable : Event := mkEvent (1024 + 2 ^ 31) (DataPtr 4242) (TaggedFn 0).

(** A kernel whose slab has no item left. *)
Definition k_no_slab : Kernel := mkKernel [] 0 0 None [] 0 [] [].

End KernelScenes.

Module RegistryScenes.

Import Seos SeosApps.

(** A slot nothing has been stored in. *)
Definition empty_slot : Task := mkTask 0 0 0 SubNull 0 [].

(** Sixteen task slots, six embedded subscriptions; every app loads, and its
    init subscribes it to event 0x400 and succeeds. *)
Definition cpu16 : Cpu :=
  mkCpu 16 6 1 (fun app => mkAppHdr 2 (app + 1000) 1 64)
    (fun _ => true) (fun _ => true)
    (fun _ t => (true, [SysEventSubscribe t 1024])) (fun _ => []).

(** A table with room for one task only. *)
Definition cpu1 : Cpu :=
  mkCpu 1 6 1 (fun app => mkAppHdr 2 (app + 1000) 1 64)
    (fun _ => true) (fun _ => true) (fun _ _ => (true, [])) (fun _ => []).

(** Tasks 10, 20 and 30 in a table of sixteen slots, tid counter at 30. *)
Definition k_abc : Kernel :=
  mkKernel
    (Examples.task_with 10 100 :: Examples.task_with 20 101 ::
     Examples.task_with 30 102 :: repeat empty_slot 13)
    3 30 None [] 64 [] [].

End RegistryScenes.

Module FlashScenes.

Import SeosExtApps.

(** A shared area of 64 bytes at 0x1000 holding three records: a skipped one
    (marker nibbles 1 and 2, 5 bytes), an app (marker 0x33, 6 bytes) and a
    record whose length runs past the end of the area. *)
Definition flash_bytes (a : Z) : Z :=
  if a =? 4096 then 33 else
  if a =? 4099 then 5 else
  if a =? 4112 then 51 else
  if a =? 4115 then 6 else
  if a =? 4128 then 68 else
  if a =? 4130 then 1 else 0.

Definition flash0 : Flash := mkFlash flash_bytes (4096, 64) 10.

Definition it0 : ExtAppIterator :=
  osExtAppIteratorInit flash0 (mkExtAppIterator 0 0 0 0).

End FlashScenes.
(** * Properties of gyro_cal.c *)

Module GyroCalFacts.

Import GyroCal.

(** ** Removing the bias *)

(** The stated property: with calibration disabled the three outputs equal
    the three inputs. *)
Definition remove_bias_copies_input (gc : GyroCal) (xi yi zi : float)
  (out : float * float * float) : Prop :=
  gyro_calibration_enable gc = false ->
  gyroCalRemoveBias gc xi yi zi out = (xi, yi, zi).

(** C1, as stated, fails: with calibration disabled and output cells that
    hold (0, 0, 0), the sample (1, 1, 1) comes back as (0, 0, 0). *)
Lemma C1_counterexample :
  ~ remove_bias_copies_input Examples.gc_disabled one one one (zero, zero, zero).
Proof.
  unfold remove_bias_copies_input. intros H.
  specialize (H eq_refl). discriminate H.
Qed.

(** C1, amended: with [gyro_calibration_enable] false, [gyroCalRemoveBias]
    writes nothing, so [*xo], [*yo], [*zo] keep what they held before the call;
    they equal the inputs exactly when they already held the inputs (the
    in-place call, where the outputs are the sample's own variables). *)
Theorem C1_remove_bias_disabled (gc : GyroCal) (xi yi zi : float)
  (out : float * float * float) :
  gyro_calibration_enable gc = false ->
  gyroCalRemoveBias gc xi yi zi out = out /\
  (gyroCalRemoveBias gc xi yi zi out = (xi, yi, zi) <-> out = (xi, yi, zi)).
Proof.
  intros Hen. unfold gyroCalRemoveBias. rewrite Hen. split; [ reflexivity | tauto ].
Qed.

Lemma C1_remove_bias_disabled_witness :
  gyro_calibration_enable Examples.gc_disabled = false /\
  gyroCalRemoveBias Examples.gc_disabled one one one (zero, zero, zero)
    = (zero, zero, zero) /\
  (gyroCalRemoveBias Examples.gc_disabled one one one (zero, zero, zero)
     = (one, one, one) <-> (zero, zero, zero) = (one, one, one)).
Proof.
  split; [ reflexivity | ].
  apply (C1_remove_bias_disabled Examples.gc_disabled one one one (zero, zero, zero)).
  reflexivity.
Defined.

(** With calibration enabled the bias is subtracted from each axis. *)
Lemma gyroCalRemoveBias_enabled (gc : GyroCal) (xi yi zi : float)
  (out : float * float * float) :
  gyro_calibration_enable gc = true ->
  gyroCalRemoveBias gc xi yi zi out =
  (sub xi (bias_x gc), sub yi (bias_y gc), sub zi (bias_z gc)).
Proof. intros Hen. unfold gyroCalRemoveBias. now rewrite Hen. Qed.

(** ** Comparisons against [MAX_GYRO_BIAS] *)

Lemma ltb_fabs_of_bounds (x : float) :
  ltb x MAX_GYRO_BIAS = true ->
  gtb x (neg MAX_GYRO_BIAS) = true ->
  ltb (fabs x) MAX_GYRO_BIAS = true.
Proof.
  unfold ltb, gtb, SFltb, MAX_GYRO_BIAS, neg, fabs.
  destruct x as [s | s | | s m e]; cbn [SFcompare SFabs SFopp negb];
    try (destruct s; congruence); try congruence.
  destruct s; [ | congruence ].
  intros _.
  rewrite (Z.compare_antisym e (-27)).
  destruct (e ?= -27); cbn [CompOpp]; try congruence.
  rewrite (Pos.compare_cont_antisym 13421773 m Eq). cbn [CompOpp].
  trivial.
Qed.

(** The acceptance test of [computeGyroCal] on one axis, and on the three. *)
Definition strictly_within (m : float) : bool :=
  ltb m MAX_GYRO_BIAS && gtb m (neg MAX_GYRO_BIAS).

Definition bias_acceptable (g : StillDet.GyroStillDet) : bool :=
  strictly_within (StillDet.prev_mean_x g) &&
  strictly_within (StillDet.prev_mean_y g) &&
  strictly_within (StillDet.prev_mean_z g).

Lemma strictly_within_fabs (m : float) :
  strictly_within m = true -> ltb (fabs m) MAX_GYRO_BIAS = true.
Proof.
  unfold strictly_within. intros H.
  apply andb_true_iff in H. destruct H as [H1 H2].
  now apply ltb_fabs_of_bounds.
Qed.

(** A NaN mean is never accepted. *)
Lemma strictly_within_nan : strictly_within S754_nan = false.
Proof. reflexivity. Qed.

(** The state [computeGyroCal] leaves when it accepts: seven fields written,
    every other field as before. *)
Definition committed (gc : GyroCal) (calibration_time : Z) : GyroCal :=
  let g := gyro_stillness_detect gc in
  mkGyroCal (accel_stillness_detect gc) g (mag_stillness_detect gc)
    (StillDet.prev_mean_x g) (StillDet.prev_mean_y g) (StillDet.prev_mean_z g)
    (temperature_mean_celsius gc) calibration_time
    (prev_still gc) (start_still_time_nanos gc) (min_still_duration_nanos gc)
    (max_still_duration_nanos gc) (window_time_duration_nanos gc)
    (gyro_watchdog_timeout_duration_nanos gc) (gyro_watchdog_start_nanos gc)
    (gyro_watchdog_timeout gc) (stillness_threshold gc)
    (stillness_win_endtime_nanos gc) (gyro_calibration_enable gc)
    (stillness_mean_delta_limit gc) (temperature_delta_limit_celsius gc)
    true (using_mag_sensor gc)
    (mul (mul (StillDet.prev_stillness_confidence g)
              (StillDet.prev_stillness_confidence (accel_stillness_detect gc)))
         (StillDet.prev_stillness_confidence (mag_stillness_detect gc)))
    (gyro_winmean_min gc) (gyro_winmean_max gc) (temperature_min_max_celsius gc)
    (temperature_mean_celsius gc).

Lemma computeGyroCal_eq (gc : GyroCal) (t : Z) :
  computeGyroCal gc t =
  if bias_acceptable (gyro_stillness_detect gc) then committed gc t else gc.
Proof.
  unfold computeGyroCal, bias_acceptable, strictly_within, committed.
  destruct gc as [acc gyr mag bx by_ bz btemp ctime pstill sstart dmin dmax wdur
                  wdto wdst wdfl thr wend en mlim tlim navail umag sconf wmin wmax
                  tmm tmean].
  cbn [gyro_stillness_detect].
  rewrite <- !andb_assoc.
  generalize (ltb (StillDet.prev_mean_x gyr) MAX_GYRO_BIAS),
             (gtb (StillDet.prev_mean_x gyr) (neg MAX_GYRO_BIAS)),
             (ltb (StillDet.prev_mean_y gyr) MAX_GYRO_BIAS),
             (gtb (StillDet.prev_mean_y gyr) (neg MAX_GYRO_BIAS)),
             (ltb (StillDet.prev_mean_z gyr) MAX_GYRO_BIAS),
             (gtb (StillDet.prev_mean_z gyr) (neg MAX_GYRO_BIAS)).
  intros b1 b2 b3 b4 b5 b6.
  destruct (b1 && (b2 && (b3 && (b4 && (b5 && b6))))); reflexivity.
Qed.

(** C3: [computeGyroCal] commits a new bias (bias_x/y/z, the bias temperature,
    the calibration time, the stillness confidence, and the
    new-calibration flag) exactly when every axis of the gyro detector's
    previous window mean is strictly inside (-MAX_GYRO_BIAS, +MAX_GYRO_BIAS);
    otherwise the state is left as it was.  Every committed bias therefore has
    |b| < MAX_GYRO_BIAS on each axis. *)
Theorem C3_computeGyroCal_gate (gc : GyroCal) (t : Z) :
  let g := gyro_stillness_detect gc in
  (bias_acceptable g = true ->
     computeGyroCal gc t = committed gc t /\
     bias_x (computeGyroCal gc t) = StillDet.prev_mean_x g /\
     bias_y (computeGyroCal gc t) = StillDet.prev_mean_y g /\
     bias_z (computeGyroCal gc t) = StillDet.prev_mean_z g /\
     bias_temperature_celsius (computeGyroCal gc t) = temperature_mean_celsius gc /\
     calibration_time_nanos (computeGyroCal gc t) = t /\
     new_gyro_cal_available (computeGyroCal gc t) = true /\
     ltb (fabs (bias_x (computeGyroCal gc t))) MAX_GYRO_BIAS = true /\
     ltb (fabs (bias_y (computeGyroCal gc t))) MAX_GYRO_BIAS = true /\
     ltb (fabs (bias_z (computeGyroCal gc t))) MAX_GYRO_BIAS = true) /\
  (bias_acceptable g = false -> computeGyroCal gc t = gc).
Proof.
  intros g. rewrite computeGyroCal_eq. fold g.
  split; intros Hacc; rewrite Hacc; [ | reflexivity ].
  unfold bias_acceptable in Hacc.
  apply andb_true_iff in Hacc. destruct Hacc as [Hxy Hz].
  apply andb_true_iff in Hxy. destruct Hxy as [Hx Hy].
  unfold committed. fold g. cbn [bias_x bias_y bias_z bias_temperature_celsius
    calibration_time_nanos new_gyro_cal_available].
  repeat split; auto using strictly_within_fabs.
Qed.

Lemma C3_computeGyroCal_gate_witness :
  (bias_acceptable (gyro_stillness_detect Examples.gc_accept) = true /\
   bias_x (computeGyroCal Examples.gc_accept 3000) = Examples.f_0_001 /\
   new_gyro_cal_available (computeGyroCal Examples.gc_accept 3000) = true) /\
  (bias_acceptable (gyro_stillness_detect Examples.gc_reject) = false /\
   computeGyroCal Examples.gc_reject 3000 = Examples.gc_reject).
Proof.
  split.
  - split; [ reflexivity | ].
    destruct (C3_computeGyroCal_gate Examples.gc_accept 3000) as [Hyes _].
    destruct (Hyes eq_refl) as (_ & Hx & _ & _ & _ & _ & Hnew & _).
    split; [ exact Hx | exact Hnew ].
  - split; [ reflexivity | ].
    destruct (C3_computeGyroCal_gate Examples.gc_reject 3000) as [_ Hno].
    exact (Hno eq_refl).
Defined.

(** [MAX_GYRO_BIAS] is the binary32 value of 1/10, and the initial maximum
    of the trackers is [-FLT_MAX]. *)
Example MAX_GYRO_BIAS_is_a_tenth : div one (of_Z 10) = MAX_GYRO_BIAS.
Proof. vm_compute. reflexivity. Qed.

Example FLT_LOWEST_INIT_value : FLT_LOWEST_INIT = neg FLT_MAX.
Proof. vm_compute. reflexivity. Qed.

(** ** The bias across an update call *)

Definition same_bias (a b : GyroCal) : Prop :=
  bias_x a = bias_x b /\ bias_y a = bias_y b /\ bias_z a = bias_z b.

Definition bias_bounded (gc : GyroCal) : Prop :=
  ltb (fabs (bias_x gc)) MAX_GYRO_BIAS = true /\
  ltb (fabs (bias_y gc)) MAX_GYRO_BIAS = true /\
  ltb (fabs (bias_z gc)) MAX_GYRO_BIAS = true.

(** The bias of [g] is the one [gc0] had, or one that passed the range test. *)
Definition bias_kept_or_bounded (gc0 g : GyroCal) : Prop :=
  same_bias g gc0 \/ bias_bounded g.

Lemma kept_or_bounded_same (gc0 g g' : GyroCal) :
  same_bias g' g -> bias_kept_or_bounded gc0 g -> bias_kept_or_bounded gc0 g'.
Proof.
  unfold bias_kept_or_bounded, same_bias, bias_bounded.
  intros (Hx & Hy & Hz) [(Hx0 & Hy0 & Hz0) | (Bx & By & Bz)].
  - left. repeat split; congruence.
  - right. rewrite Hx, Hy, Hz. auto.
Qed.

Lemma kept_or_bounded_refl (gc0 : GyroCal) : bias_kept_or_bounded gc0 gc0.
Proof. left. repeat split. Qed.

Ltac frame_setter :=
  intros; eapply kept_or_bounded_same; [ | eassumption ];
  match goal with |- same_bias _ ?g => destruct g; repeat split; reflexivity end.

Create HintDb bias.

Section BiasFrame.

Variable gc0 : GyroCal.

Let Q := bias_kept_or_bounded gc0.

Lemma kob_set_accel v g : Q g -> Q (set_accel_stillness_detect v g).
Proof. frame_setter. Qed.

Lemma kob_set_gyro v g : Q g -> Q (set_gyro_stillness_detect v g).
Proof. frame_setter. Qed.

Lemma kob_set_mag v g : Q g -> Q (set_mag_stillness_detect v g).
Proof. frame_setter. Qed.

Lemma kob_set_prev_still v g : Q g -> Q (set_prev_still v g).
Proof. frame_setter. Qed.

Lemma kob_set_start_still v g : Q g -> Q (set_start_still_time_nanos v g).
Proof. frame_setter. Qed.

Lemma kob_set_watchdog_start v g : Q g -> Q (set_gyro_watchdog_start_nanos v g).
Proof. frame_setter. Qed.

Lemma kob_set_watchdog_flag v g : Q g -> Q (set_gyro_watchdog_timeout v g).
Proof. frame_setter. Qed.

Lemma kob_set_win_end v g : Q g -> Q (set_stillness_win_endtime_nanos v g).
Proof. frame_setter. Qed.

Lemma kob_set_using_mag v g : Q g -> Q (set_using_mag_sensor v g).
Proof. frame_setter. Qed.

Lemma kob_set_confidence v g : Q g -> Q (set_stillness_confidence v g).
Proof. frame_setter. Qed.

Lemma kob_set_winmean_min v g : Q g -> Q (set_gyro_winmean_min v g).
Proof. frame_setter. Qed.

Lemma kob_set_winmean_max v g : Q g -> Q (set_gyro_winmean_max v g).
Proof. frame_setter. Qed.

Lemma kob_set_temp_min_max v g : Q g -> Q (set_temperature_min_max_celsius v g).
Proof. frame_setter. Qed.

Lemma kob_set_temp_mean v g : Q g -> Q (set_temperature_mean_celsius v g).
Proof. frame_setter. Qed.

Lemma kob_if (b : bool) g1 g2 : Q g1 -> Q g2 -> Q (if b then g1 else g2).
Proof. destruct b; auto. Qed.

#[local] Hint Resolve kob_set_accel kob_set_gyro kob_set_mag kob_set_prev_still
  kob_set_start_still kob_set_watchdog_start kob_set_watchdog_flag kob_set_win_end
  kob_set_using_mag kob_set_confidence kob_set_winmean_min kob_set_winmean_max
  kob_set_temp_min_max kob_set_temp_mean kob_if : bias.

Lemma kob_temperature_tracker g st x c :
  Q g -> Q (snd (fst (gyroTemperatureStatsTracker g st x c))).
Proof.
  intros H. unfold gyroTemperatureStatsTracker.
  destruct st as [macc stmm n swmin swmax latest].
  destruct c; cbn [fst snd]; auto; destruct (0 <? n); cbn [fst snd]; auto with bias.
Qed.

Lemma kob_mean_tracker g st c : Q g -> Q (snd (fst (gyroStillMeanTracker g st c))).
Proof.
  intros H. unfold gyroStillMeanTracker.
  destruct st as [macc stmm n [[mn0 mn1] mn2] [[mx0 mx1] mx2] latest].
  destruct c; cbn [fst snd]; auto with bias.
Qed.

Lemma kob_computeGyroCal g t : Q g -> Q (computeGyroCal g t).
Proof.
  intros H. rewrite computeGyroCal_eq.
  destruct (bias_acceptable (gyro_stillness_detect g)) eqn:E; [ | assumption ].
  right. unfold bias_bounded, committed. cbn [bias_x bias_y bias_z].
  unfold bias_acceptable in E.
  apply andb_true_iff in E. destruct E as [E Hz].
  apply andb_true_iff in E. destruct E as [Hx Hy].
  auto using strictly_within_fabs.
Qed.

Variable gyroStillDetUpdate :
  StillDet.GyroStillDet -> Z -> Z -> float -> float -> float -> StillDet.GyroStillDet.
Variable gyroStillDetCompute : StillDet.GyroStillDet -> StillDet.GyroStillDet.
Variable gyroStillDetReset : StillDet.GyroStillDet -> bool -> StillDet.GyroStillDet.

Lemma kob_reset_detectors b g : Q g -> Q (reset_detectors gyroStillDetReset b g).
Proof. intros H. unfold reset_detectors. auto with bias. Qed.

#[local] Hint Resolve kob_temperature_tracker kob_mean_tracker kob_computeGyroCal
  kob_reset_detectors : bias.

(** Takes the next call whose result is matched against a pair, states the
    invariant for the [GyroCal] it returns, and names its components. *)
Ltac split_call H :=
  match goal with
  | |- context [match ?x with pair _ _ => _ end] =>
      lazymatch type of x with
      | (bool * GyroCal * Statics.t)%type =>
          assert (H : Q (snd (fst x))) by auto 30 with bias;
          destruct x as [[? ?] ?]; cbn [fst snd] in H
      | (GyroCal * Statics.t)%type =>
          assert (H : Q (fst x)) by auto 30 with bias;
          destruct x as [? ?]; cbn [fst snd] in H
      end
  end.

Ltac split_if :=
  match goal with
  | |- context [match (if ?b then _ else _) with pair _ _ => _ end] => destruct b
  | |- context [fst (if ?b then _ else _)] => destruct b
  end.

Ltac walk :=
  repeat first [ let H1 := fresh "H" in split_call H1 | split_if ];
  cbn [fst]; auto 30 with bias.

Lemma kob_checkWatchdog g st t :
  Q g -> Q (fst (checkWatchdog gyroStillDetReset g st t)).
Proof. intros H. unfold checkWatchdog. walk. Qed.

#[local] Hint Resolve kob_checkWatchdog : bias.

Lemma kob_deviceStillnessCheck g st t :
  Q g -> Q (fst (deviceStillnessCheck gyroStillDetCompute gyroStillDetReset g st t)).
Proof. intros H. unfold deviceStillnessCheck. walk. Qed.

#[local] Hint Resolve kob_deviceStillnessCheck : bias.

(** No update entry point leaves a bias that is neither the one it found nor
    one inside the range. *)
Lemma update_bias_kept_or_bounded (st : Statics.t) (t : Z) (x y z temp : float) :
  Q (fst (gyroCalUpdateGyro gyroStillDetUpdate gyroStillDetCompute gyroStillDetReset
            gc0 st t x y z temp)) /\
  Q (fst (gyroCalUpdateMag gyroStillDetUpdate gyroStillDetCompute gyroStillDetReset
            gc0 st t x y z)) /\
  Q (fst (gyroCalUpdateAccel gyroStillDetUpdate gyroStillDetCompute gyroStillDetReset
            gc0 st t x y z)).
Proof.
  pose proof (kept_or_bounded_refl gc0) as H0. fold Q in H0.
  split; [ | split ].
  - unfold gyroCalUpdateGyro. walk.
  - unfold gyroCalUpdateMag. auto 30 with bias.
  - unfold gyroCalUpdateAccel. auto 30 with bias.
Qed.

End BiasFrame.

(** ** The watchdog *)

Lemma watchdog_condition (gc : GyroCal) (t : Z) :
  t < 2 ^ 64 ->
  0 <= gyro_watchdog_timeout_duration_nanos gc ->
  0 < gyro_watchdog_start_nanos gc ->
  t - gyro_watchdog_start_nanos gc > gyro_watchdog_timeout_duration_nanos gc ->
  (gyro_watchdog_start_nanos gc <=? 0) = false /\
  (t >? u64 (gyro_watchdog_timeout_duration_nanos gc + gyro_watchdog_start_nanos gc))
    = true.
Proof.
  intros Ht Hto Hst Hgt. split.
  - apply Z.leb_gt. lia.
  - unfold u64. rewrite Z.mod_small by lia. apply Z.gtb_lt. lia.
Qed.

Section Watchdog.

Variable gyroStillDetReset : StillDet.GyroStillDet -> bool -> StillDet.GyroStillDet.

(** What the state machine relies on from the detector primitive: a reset
    does not make a window ready. *)
Hypothesis gyroStillDetReset_keeps_not_ready :
  forall d reset_stats,
    StillDet.stillness_window_ready d = false ->
    StillDet.stillness_window_ready (gyroStillDetReset d reset_stats) = false.


End Watchdog.

Section WatchdogAndReset.

Variable gyroStillDetCompute : StillDet.GyroStillDet -> StillDet.GyroStillDet.
Variable gyroStillDetReset : StillDet.GyroStillDet -> bool -> StillDet.GyroStillDet.

(** The detector's reset clears the window-ready flag. *)
Hypothesis gyroStillDetReset_not_ready :
  forall d reset_stats,
    StillDet.stillness_window_ready (gyroStillDetReset d reset_stats) = false.

(** With such a reset the magnetometer is out of use after every timeout (the
    flag is tested after the reset), and no detector has a ready window. *)
Lemma watchdog_timeout_flags (gc : GyroCal) (st : Statics.t) (t : Z) :
  t < 2 ^ 64 ->
  0 <= gyro_watchdog_timeout_duration_nanos gc ->
  0 < gyro_watchdog_start_nanos gc ->
  t - gyro_watchdog_start_nanos gc > gyro_watchdog_timeout_duration_nanos gc ->
  let gc' := fst (checkWatchdog gyroStillDetReset gc st t) in
  using_mag_sensor gc' = false /\
  StillDet.stillness_window_ready (accel_stillness_detect gc') = false /\
  StillDet.stillness_window_ready (gyro_stillness_detect gc') = false /\
  StillDet.stillness_window_ready (mag_stillness_detect gc') = false.
Proof.
  intros Ht Hto Hst Hgt.
  destruct (watchdog_condition gc t Ht Hto Hst Hgt) as [Hc1 Hc2].
  unfold checkWatchdog. rewrite Hc1, Hc2.
  destruct gc as [acc gyr mag bx by_ bz btemp ctime pstill sstart dmin dmax wdur
                  wdto wdst wdfl thr wend en mlim tlim navail umag sconf wmin wmax
                  tmm tmean].
  destruct st as [macc stmm n swmin swmax latest].
  cbn -[zero].
  pose proof (gyroStillDetReset_not_ready acc true) as Hra.
  pose proof (gyroStillDetReset_not_ready gyr true) as Hrg.
  pose proof (gyroStillDetReset_not_ready mag true) as Hrm.
  destruct (gyroStillDetReset acc true) as [a1 a2 a3 a4 a5 a6 a7 a8 a9 a10 a11 a12].
  destruct (gyroStillDetReset gyr true) as [g1 g2 g3 g4 g5 g6 g7 g8 g9 g10 g11 g12].
  destruct (gyroStillDetReset mag true) as [m1 m2 m3 m4 m5 m6 m7 m8 m9 m10 m11 m12].
  cbn -[zero] in *. subst a1 g1 m1. cbn -[zero].
  destruct umag; cbn -[zero]; repeat split; auto.
Qed.

(** The stillness check that finds the watchdog expired does nothing beyond
    the watchdog's reset: it waits for new windows. *)
Lemma deviceStillnessCheck_after_timeout (gc : GyroCal) (st : Statics.t) (t : Z) :
  t < 2 ^ 64 ->
  0 <= gyro_watchdog_timeout_duration_nanos gc ->
  0 < gyro_watchdog_start_nanos gc ->
  t - gyro_watchdog_start_nanos gc > gyro_watchdog_timeout_duration_nanos gc ->
  deviceStillnessCheck gyroStillDetCompute gyroStillDetReset gc st t =
  checkWatchdog gyroStillDetReset gc st t.
Proof.
  intros Ht Hto Hst Hgt.
  destruct (watchdog_timeout_flags gc st t Ht Hto Hst Hgt) as (_ & Ha & _).
  unfold deviceStillnessCheck.
  destruct (checkWatchdog gyroStillDetReset gc st t) as [g1 s1].
  cbn [fst] in Ha. rewrite Ha. cbn [negb]. rewrite orb_true_r. reflexivity.
Qed.

End WatchdogAndReset.


(** The "watchdog recovery" scenario with a 500 ms window: a gyro sample at
    t = 1.6 s, 1.6 s after the last one, resets the state; the next gyro
    sample arms the window again. *)
Example watchdog_recovery_rearms :
  let upd := fun (d : StillDet.GyroStillDet) (_ _ : Z) (_ _ _ : float) => d in
  let cmp := fun d : StillDet.GyroStillDet => d in
  let gc1 := fst (gyroCalUpdateGyro upd cmp Examples.reset_flag Examples.gc_stalled
                    Statics.init 1600000001 zero zero zero zero) in
  let gc2 := fst (gyroCalUpdateGyro upd cmp Examples.reset_flag gc1
                    Statics.init 1610000000 zero zero zero zero) in
  stillness_win_endtime_nanos gc1 = 0 /\ gyro_watchdog_start_nanos gc1 = 0 /\
  using_mag_sensor gc1 = false /\
  stillness_win_endtime_nanos gc2 = 2110000000 /\
  gyro_watchdog_start_nanos gc2 = 1610000000.
Proof. vm_compute. repeat split. Qed.

End GyroCalFacts.

(** * Properties of seos.c *)

Module SeosFacts.

Import Seos.

(** ** Record bookkeeping *)

Lemma find_tid_set_next (c : Z) (k : Kernel) (t : Z) :
  osTaskFindByTid (set_mNextTidInfo c k) t = osTaskFindByTid k t.
Proof. destruct k; reflexivity. Qed.

Lemma next_set_next (c : Z) (k : Kernel) : mNextTidInfo (set_mNextTidInfo c k) = c.
Proof. destruct k; reflexivity. Qed.

Lemma set_next_set_next (c d : Z) (k : Kernel) :
  set_mNextTidInfo d (set_mNextTidInfo c k) = set_mNextTidInfo d k.
Proof. destruct k; reflexivity. Qed.

(** ** Task ids *)

Section Registry.

Variable P : Platform.

Definition tid_range_ok : Prop :=
  1 <= FIRST_VALID_TID P /\ FIRST_VALID_TID P <= LAST_VALID_TID P /\
  LAST_VALID_TID P < 2 ^ 32.

Definition in_tid_range (v : Z) : Prop :=
  FIRST_VALID_TID P <= v <= LAST_VALID_TID P.

(** The counter is inside the range, or one below it. *)
Definition counter_ok (k : Kernel) : Prop :=
  FIRST_VALID_TID P - 1 <= mNextTidInfo k <= LAST_VALID_TID P.

Definition range_size : Z := LAST_VALID_TID P - FIRST_VALID_TID P + 1.

Definition live (k : Kernel) (v : Z) : Prop := osTaskFindByTid k v <> None.

(** [x] comes strictly after [c] and strictly before [r] on the way round the
    range. *)
Definition passed_over (c r x : Z) : Prop :=
  if c <? r then c < x < r
  else c < x <= LAST_VALID_TID P \/ FIRST_VALID_TID P <= x < r.

Lemma advance_tid_range (c : Z) :
  tid_range_ok ->
  FIRST_VALID_TID P - 1 <= c <= LAST_VALID_TID P ->
  in_tid_range (advance_tid P c) /\
  (c = LAST_VALID_TID P -> advance_tid P c = FIRST_VALID_TID P) /\
  (c <> LAST_VALID_TID P -> advance_tid P c = c + 1).
Proof.
  intros (H1 & H2 & H3) Hc. unfold advance_tid, in_tid_range, u32.
  destruct (Z.eqb_spec c (LAST_VALID_TID P)) as [-> | Hne].
  - repeat split; try lia; intros; congruence.
  - rewrite Z.mod_small by lia. repeat split; try lia; intros; congruence.
Qed.

Lemma osGetFreeTid_step (fuel : nat) (k : Kernel) :
  osGetFreeTid P (S fuel) k =
  let c := advance_tid P (mNextTidInfo k) in
  match osTaskFindByTid k c with
  | Some _ => osGetFreeTid P fuel (set_mNextTidInfo c k)
  | None => Some (c, set_mNextTidInfo c k)
  end.
Proof.
  cbn [osGetFreeTid]. rewrite next_set_next, find_tid_set_next. reflexivity.
Qed.

(** What a returned tid is: the first value after the counter, going round
    the range, that no live task holds. *)
Lemma osGetFreeTid_sound (fuel : nat) :
  tid_range_ok ->
  forall k r k',
    counter_ok k ->
    osGetFreeTid P fuel k = Some (r, k') ->
    k' = set_mNextTidInfo r k /\
    in_tid_range r /\
    osTaskFindByTid k r = None /\
    (forall x, passed_over (mNextTidInfo k) r x -> live k x).
Proof.
  intros Hok. induction fuel as [ | fuel IH]; intros k r k' Hc Hrun.
  - discriminate.
  - rewrite osGetFreeTid_step in Hrun. cbv zeta in Hrun.
    destruct (advance_tid_range (mNextTidInfo k) Hok Hc) as (Hin & HL & HnL).
    set (c := mNextTidInfo k) in *. set (c1 := advance_tid P c) in *.
    destruct (osTaskFindByTid k c1) as [i | ] eqn:Hfind.
    + apply IH in Hrun.
      2:{ unfold counter_ok. rewrite next_set_next. unfold in_tid_range in Hin. lia. }
      rewrite set_next_set_next, next_set_next, find_tid_set_next in Hrun.
      destruct Hrun as (Hk' & Hr & Hfree & Hskip).
      repeat split; try assumption; try apply Hr.
      intros x Hx.
      assert (Hr1 : r <> c1) by (intros ->; congruence).
      assert (Hcase : x = c1 \/ passed_over c1 r x).
      { destruct Hok as (H1 & H2 & H3). unfold counter_ok in Hc. fold c in Hc.
        unfold in_tid_range in Hin, Hr. unfold passed_over in *.
        destruct (Z.eq_dec c (LAST_VALID_TID P)) as [HcL | HcL].
        - rewrite (HL HcL) in *.
          destruct (Z.ltb_spec c r); destruct (Z.ltb_spec (FIRST_VALID_TID P) r); lia.
        - rewrite (HnL HcL) in *.
          destruct (Z.ltb_spec c r); destruct (Z.ltb_spec (c + 1) r); lia. }
      destruct Hcase as [-> | Hcase].
      * unfold live. rewrite Hfind. discriminate.
      * specialize (Hskip x Hcase). unfold live in *.
        now rewrite find_tid_set_next in Hskip.
    + injection Hrun as <- <-.
      repeat split; try assumption; try apply Hin.
      intros x Hx. exfalso.
      destruct Hok as (H1 & H2 & H3). unfold counter_ok in Hc. fold c in Hc.
      unfold passed_over in Hx.
      destruct (Z.eq_dec c (LAST_VALID_TID P)) as [HcL | HcL].
      * rewrite (HL HcL) in *. destruct (Z.ltb_spec c (FIRST_VALID_TID P)); lia.
      * rewrite (HnL HcL) in *. destruct (Z.ltb_spec c (c + 1)); lia.
Qed.

(** How many passes are left before the loop reaches [v], once the counter
    stands at [a]. *)
Definition passes_to (a v : Z) : Z := if a <=? v then v - a else v - a + range_size.

Lemma osGetFreeTid_reaches (d : nat) :
  tid_range_ok ->
  forall k v,
    counter_ok k ->
    in_tid_range v ->
    osTaskFindByTid k v = None ->
    passes_to (advance_tid P (mNextTidInfo k)) v = Z.of_nat d ->
    forall fuel, (d < fuel)%nat ->
      exists r, osGetFreeTid P fuel k = Some (r, set_mNextTidInfo r k).
Proof.
  intros Hok. induction d as [ | d IH]; intros k v Hc Hv Hfree Hd fuel Hfuel;
    (destruct fuel as [ | fuel]; [ lia | ]);
    rewrite osGetFreeTid_step; cbv zeta;
    destruct (advance_tid_range (mNextTidInfo k) Hok Hc) as (Hin & HL & HnL);
    set (c1 := advance_tid P (mNextTidInfo k)) in *;
    (destruct (osTaskFindByTid k c1) as [i | ] eqn:Hfind; [ | eauto ]).
  - exfalso. unfold passes_to, range_size, in_tid_range in *.
    assert (c1 = v) by (destruct (Z.leb_spec c1 v); lia). congruence.
  - assert (Hne : c1 <> v) by congruence.
    destruct (IH (set_mNextTidInfo c1 k) v) with (fuel := fuel) as [r Hr].
    + unfold counter_ok. rewrite next_set_next. unfold in_tid_range in Hin. lia.
    + assumption.
    + now rewrite find_tid_set_next.
    + rewrite next_set_next.
      assert (Hc1 : FIRST_VALID_TID P - 1 <= c1 <= LAST_VALID_TID P)
        by (unfold in_tid_range in Hin; lia).
      destruct (advance_tid_range c1 Hok Hc1) as (_ & HL1 & HnL1).
      destruct Hok as (H1 & H2 & H3).
      unfold passes_to, range_size, in_tid_range in *.
      destruct (Z.eq_dec c1 (LAST_VALID_TID P)) as [E | E].
      * rewrite (HL1 E).
        destruct (Z.leb_spec c1 v); destruct (Z.leb_spec (FIRST_VALID_TID P) v); lia.
      * rewrite (HnL1 E).
        destruct (Z.leb_spec c1 v); destruct (Z.leb_spec (c1 + 1) v); lia.
    + lia.
    + rewrite set_next_set_next in Hr. eauto.
Qed.

Lemma passes_to_bound (a v : Z) :
  in_tid_range a -> in_tid_range v -> 0 <= passes_to a v < range_size.
Proof.
  unfold in_tid_range, passes_to, range_size. intros Ha Hv.
  destruct (Z.leb_spec a v); lia.
Qed.

(** The loop ends as soon as some value of the range is free, within
    [range_size] passes. *)
Lemma osGetFreeTid_terminates (k : Kernel) :
  tid_range_ok ->
  counter_ok k ->
  (exists v, in_tid_range v /\ osTaskFindByTid k v = None) ->
  exists r,
    forall fuel, (Z.to_nat range_size <= fuel)%nat ->
      osGetFreeTid P fuel k = Some (r, set_mNextTidInfo r k).
Proof.
  intros Hok Hc (v & Hv & Hfree).
  destruct (advance_tid_range (mNextTidInfo k) Hok Hc) as (Hin & _ & _).
  pose proof (passes_to_bound _ _ Hin Hv) as Hb.
  set (d := Z.to_nat (passes_to (advance_tid P (mNextTidInfo k)) v)).
  assert (Hd : passes_to (advance_tid P (mNextTidInfo k)) v = Z.of_nat d)
    by (unfold d; lia).
  destruct (osGetFreeTid_reaches d Hok k v Hc Hv Hfree Hd (S d) (Nat.lt_succ_diag_r d))
    as [r Hr].
  exists r. intros fuel Hfuel.
  destruct (osGetFreeTid_reaches d Hok k v Hc Hv Hfree Hd fuel) as [r' Hr'].
  - unfold d. lia.
  - destruct (osGetFreeTid_sound (S d) Hok k r _ Hc Hr) as (_ & _ & Hf & Hskip).
    destruct (osGetFreeTid_sound fuel Hok k r' _ Hc Hr') as (_ & Hr'in & Hf' & Hskip').
    destruct (osGetFreeTid_sound (S d) Hok k r _ Hc Hr) as (_ & Hrin & _ & _).
    assert (r' = r); [ | now subst ].
    destruct (Z.eq_dec r' r) as [ | Hne]; [ assumption | exfalso ].
    destruct Hok as (H1 & H2 & H3). unfold counter_ok in Hc.
    unfold in_tid_range in *.
    assert (passed_over (mNextTidInfo k) r r' \/ passed_over (mNextTidInfo k) r' r)
      as [Hp | Hp].
    { unfold passed_over.
      destruct (Z.ltb_spec (mNextTidInfo k) r);
        destruct (Z.ltb_spec (mNextTidInfo k) r'); lia. }
    + apply Hskip in Hp. now apply Hp.
    + apply Hskip' in Hp. now apply Hp.
Qed.


(** *** Fewer task slots in use than values in the range *)

Lemma find_tid_from_In (slots : list Task) (n : nat) (i t j : Z) :
  find_tid_from slots n i t = Some j -> In t (map tid (firstn n slots)).
Proof.
  revert slots i. induction n as [ | n IH]; intros [ | s slots] i; cbn; try discriminate.
  destruct (negb (tid s =? 0) && (tid s =? t)) eqn:E.
  - intros _. left. apply andb_true_iff in E. destruct E as [_ E].
    now apply Z.eqb_eq in E.
  - intros H. right. eapply IH, H.
Qed.

Lemma some_value_missing (l S : list Z) :
  NoDup S -> (length l < length S)%nat -> exists v, In v S /\ ~ In v l.
Proof.
  intros Hnd Hlen.
  assert (Hdec : (forall v, In v S -> In v l) \/ (exists v, In v S /\ ~ In v l)).
  { clear. induction S as [ | a S IH].
    - left. intros v [].
    - destruct IH as [IH | (v & Hv & Hn)].
      + destruct (in_dec Z.eq_dec a l) as [Ha | Ha].
        * left. intros v [<- | Hv]; auto.
        * right. exists a. split; [ now left | assumption ].
      + right. exists v. split; [ now right | assumption ]. }
  destruct Hdec as [Hincl | Hex]; [ | assumption ].
  pose proof (NoDup_incl_length Hnd Hincl). lia.
Qed.

Lemma free_tid_exists (k : Kernel) :
  tid_range_ok ->
  0 <= mTaskCnt k < range_size ->
  exists v, in_tid_range v /\ osTaskFindByTid k v = None.
Proof.
  intros (H1 & H2 & H3) Hcnt. unfold range_size in *.
  set (n := Z.to_nat (LAST_VALID_TID P - FIRST_VALID_TID P + 1)).
  set (S := map (fun i => FIRST_VALID_TID P + Z.of_nat i) (seq 0 n)).
  set (l := map tid (firstn (Z.to_nat (mTaskCnt k)) (mTasks k))).
  destruct (some_value_missing l S) as (v & HvS & Hvl).
  - apply Injective_map_NoDup; [ | apply seq_NoDup ].
    intros a b Hab. lia.
  - unfold l, S. rewrite !length_map, length_seq, length_firstn. unfold n. lia.
  - exists v. split.
    + unfold S in HvS. apply in_map_iff in HvS. destruct HvS as (i & <- & Hi).
      apply in_seq in Hi. unfold in_tid_range, n in *. lia.
    + destruct (osTaskFindByTid k v) as [j | ] eqn:Hfind; [ | reflexivity ].
      exfalso. apply Hvl. unfold osTaskFindByTid in Hfind.
      eapply find_tid_from_In, Hfind.
Qed.

End Registry.

(** C6: with the counter in (or one below) the range and some value of the
    range free, [osGetFreeTid] returns a value of [FIRST_VALID_TID,
    LAST_VALID_TID] that no live task holds, and leaves the counter at that
    value; every value it passed over on the way round (wrapping from
    [LAST_VALID_TID] to [FIRST_VALID_TID]) is live.  From
    [FIRST_VALID_TID - 1], with [FIRST_VALID_TID] live and the next value
    free, the result is [FIRST_VALID_TID + 1]. *)
Theorem C6_osGetFreeTid_allocates (P : Platform) (k : Kernel) :
  tid_range_ok P ->
  counter_ok P k ->
  (exists v, in_tid_range P v /\ osTaskFindByTid k v = None) ->
  exists r,
    (forall fuel, (Z.to_nat (range_size P) <= fuel)%nat ->
       osGetFreeTid P fuel k = Some (r, set_mNextTidInfo r k)) /\
    in_tid_range P r /\
    osTaskFindByTid k r = None /\
    (forall x, passed_over P (mNextTidInfo k) r x -> live k x) /\
    (mNextTidInfo k = FIRST_VALID_TID P - 1 ->
     live k (FIRST_VALID_TID P) ->
     osTaskFindByTid k (FIRST_VALID_TID P + 1) = None ->
     FIRST_VALID_TID P + 1 <= LAST_VALID_TID P ->
     r = FIRST_VALID_TID P + 1).
Proof.
  intros Hok Hc Hfree.
  destruct (osGetFreeTid_terminates P k Hok Hc Hfree) as [r Hr].
  exists r. split; [ exact Hr | ].
  destruct (osGetFreeTid_sound P _ Hok k r _ Hc (Hr _ (Nat.le_refl _)))
    as (_ & Hin & Hnone & Hskip).
  repeat split; try assumption; try apply Hin.
  intros Hcnt Hlive1 Hfree2 Hle.
  destruct (Z.eq_dec r (FIRST_VALID_TID P + 1)) as [ | Hne]; [ assumption | exfalso ].
  unfold in_tid_range in Hin.
  destruct (Z.eq_dec r (FIRST_VALID_TID P)) as [-> | Hne1].
  - now apply Hlive1.
  - apply (Hskip (FIRST_VALID_TID P + 1)); [ | assumption ].
    unfold passed_over. rewrite Hcnt.
    destruct (Z.ltb_spec (FIRST_VALID_TID P - 1) r); lia.
Qed.

Lemma C6_osGetFreeTid_allocates_witness :
  (tid_range_ok Examples.plat /\ counter_ok Examples.plat Examples.k_skip_live /\
   in_tid_range Examples.plat 2 /\ osTaskFindByTid Examples.k_skip_live 2 = None) /\
  exists r,
    (forall fuel, (Z.to_nat (range_size Examples.plat) <= fuel)%nat ->
       osGetFreeTid Examples.plat fuel Examples.k_skip_live
       = Some (r, set_mNextTidInfo r Examples.k_skip_live)) /\
    r = 2.
Proof.
  assert (Hok : tid_range_ok Examples.plat) by (cbv; intuition congruence).
  assert (Hc : counter_ok Examples.plat Examples.k_skip_live)
    by (cbv; intuition congruence).
  assert (Hin : in_tid_range Examples.plat 2) by (cbv; intuition congruence).
  assert (Hfree : osTaskFindByTid Examples.k_skip_live 2 = None) by reflexivity.
  split; [ repeat split; assumption || apply Hok || apply Hc || apply Hin | ].
  destruct (C6_osGetFreeTid_allocates Examples.plat Examples.k_skip_live Hok Hc
              (ex_intro _ 2 (conj Hin Hfree)))
    as (r & Hrun & _ & _ & _ & Hscen).
  exists r. split; [ exact Hrun | ].
  apply Hscen; [ reflexivity | discriminate | reflexivity | cbv; congruence ].
Defined.

(** The "allocate-tid skip live" scenario, run. *)
Example osGetFreeTid_skips_live_tid :
  osGetFreeTid Examples.plat 2 Examples.k_skip_live
  = Some (2, set_mNextTidInfo 2 Examples.k_skip_live).
Proof. reflexivity. Qed.





End SeosFacts.

(** ** Subscription lists *)

Module SubscriptionFacts.

Import Seos.

(** *** Arrays updated by index *)

Lemma length_list_set {A : Type} (l : list A) (i : nat) (v : A) :
  length (list_set l i v) = length l.
Proof.
  revert i. induction l as [ | x l IH]; intros [ | i]; cbn; auto.
Qed.


Lemma list_set_app_r {A : Type} (l r : list A) (a v : A) :
  list_set (l ++ a :: r) (length l) v = l ++ v :: r.
Proof. induction l as [ | x l IH]; cbn; [ reflexivity | now f_equal ]. Qed.

Lemma firstn_succ_list_set (l : list Z) (c : nat) (v : Z) :
  (c < length l)%nat -> firstn (S c) (list_set l c v) = firstn c l ++ [v].
Proof.
  revert c. induction l as [ | x l IH]; intros [ | c] Hc; cbn in *; try lia; auto.
  f_equal. apply IH. lia.
Qed.




(** *** Reading and writing a task's list *)

Lemma sub_store_view (i v : Z) (t : Task) :
  sub_buf (sub_store i v t) = zset (sub_buf t) i v /\
  subbedEvtCount (sub_store i v t) = subbedEvtCount t /\
  subbedEvtListSz (sub_store i v t) = subbedEvtListSz t.
Proof. destruct t as [ti cnt sz [ | | blk] hdr emb]; cbn; auto. Qed.

Lemma set_count_view (c : Z) (t : Task) :
  sub_buf (set_subbedEvtCount c t) = sub_buf t /\
  subbedEvtCount (set_subbedEvtCount c t) = c /\
  subbedEvtListSz (set_subbedEvtCount c t) = subbedEvtListSz t.
Proof. destruct t as [ti cnt sz [ | | blk] hdr emb]; cbn; auto. Qed.

Lemma sub_scan_spec (buf : list Z) (evt : Z) (n : nat) :
  forall i,
    let r := sub_scan buf evt n i in
    i <= r <= i + Z.of_nat n /\
    (r < i + Z.of_nat n -> znth buf r = evt) /\
    (forall j, i <= j < r -> znth buf j <> evt).
Proof.
  induction n as [ | n IH]; intros i; cbn [sub_scan].
  - cbv zeta. split; [ lia | split; intros; lia ].
  - destruct (Z.eqb_spec (znth buf i) evt) as [E | E]; cbv zeta.
    + split; [ lia | split; intros; [ assumption | lia ] ].
    + specialize (IH (i + 1)). cbv zeta in IH. destruct IH as (H1 & H2 & H3).
      split; [ lia | split ].
      * intros H. apply H2. lia.
      * intros j Hj. destruct (Z.eq_dec j i) as [-> | ]; [ assumption | ].
        apply H3. lia.
Qed.

Definition count_fits (t : Task) : Prop :=
  0 <= subbedEvtCount t <= Z.of_nat (length (sub_buf t)).

Lemma subscriptions_nth (t : Task) (j : Z) :
  0 <= j < subbedEvtCount t ->
  nth (Z.to_nat j) (subscriptions t) 0 = znth (sub_buf t) j.
Proof.
  intros Hj. unfold subscriptions, znth. rewrite nth_firstn.
  destruct (Nat.ltb_spec (Z.to_nat j) (Z.to_nat (subbedEvtCount t))); [ reflexivity | lia ].
Qed.

Lemma length_subscriptions (t : Task) :
  count_fits t -> length (subscriptions t) = Z.to_nat (subbedEvtCount t).
Proof. unfold count_fits, subscriptions. intros H. rewrite length_firstn. lia. Qed.

Lemma In_subscriptions (t : Task) (evt : Z) :
  count_fits t ->
  In evt (subscriptions t) <->
  exists j, 0 <= j < subbedEvtCount t /\ znth (sub_buf t) j = evt.
Proof.
  intros Hfit. split.
  - intros Hin. destruct (In_nth _ _ 0 Hin) as (n & Hn & Hnth).
    rewrite length_subscriptions in Hn by assumption.
    exists (Z.of_nat n). split; [ lia | ].
    rewrite <- subscriptions_nth by lia. now rewrite Nat2Z.id.
  - intros (j & Hj & Hnth). rewrite <- subscriptions_nth in Hnth by assumption.
    rewrite <- Hnth. apply nth_In. rewrite length_subscriptions by assumption. lia.
Qed.

Lemma sub_index_range (t : Task) (evt : Z) :
  0 <= subbedEvtCount t -> 0 <= sub_index t evt <= subbedEvtCount t.
Proof.
  intros H. unfold sub_index.
  pose proof (sub_scan_spec (sub_buf t) evt (Z.to_nat (subbedEvtCount t)) 0) as S.
  cbv zeta in S. lia.
Qed.

Lemma sub_index_found (t : Task) (evt : Z) :
  count_fits t ->
  In evt (subscriptions t) ->
  0 <= sub_index t evt < subbedEvtCount t /\
  nth (Z.to_nat (sub_index t evt)) (subscriptions t) 0 = evt.
Proof.
  intros Hfit Hin. apply In_subscriptions in Hin; [ | assumption ].
  destruct Hin as (j & Hj & Hnth). unfold sub_index.
  pose proof (sub_scan_spec (sub_buf t) evt (Z.to_nat (subbedEvtCount t)) 0) as S.
  cbv zeta in S. destruct S as (S1 & S2 & S3).
  set (r := sub_scan (sub_buf t) evt (Z.to_nat (subbedEvtCount t)) 0) in *.
  assert (Hr : r < subbedEvtCount t).
  { destruct (Z_lt_ge_dec r (subbedEvtCount t)) as [ | Hge]; [ assumption | ].
    exfalso. apply (S3 j); [ lia | assumption ]. }
  split; [ lia | ]. rewrite subscriptions_nth by lia. apply S2. lia.
Qed.

Lemma sub_index_absent (t : Task) (evt : Z) :
  count_fits t -> ~ In evt (subscriptions t) -> sub_index t evt = subbedEvtCount t.
Proof.
  intros Hfit Hnin. unfold sub_index.
  pose proof (sub_scan_spec (sub_buf t) evt (Z.to_nat (subbedEvtCount t)) 0) as S.
  cbv zeta in S. destruct S as (S1 & S2 & S3).
  set (r := sub_scan (sub_buf t) evt (Z.to_nat (subbedEvtCount t)) 0) in *.
  destruct (Z_lt_ge_dec r (subbedEvtCount t)) as [Hlt | Hge]; [ exfalso | unfold count_fits in Hfit; lia ].
  apply Hnin, In_subscriptions; [ assumption | ].
  exists r. split; [ unfold count_fits in Hfit; lia | apply S2; lia ].
Qed.

(** *** The cases of the subscribe / unsubscribe handler *)

(** What every task's list satisfies: the count and the capacity are 16-bit
    values within the array, and no event type is listed twice. *)
Definition sub_inv (t : Task) : Prop :=
  count_fits t /\ subbedEvtCount t < 2 ^ 16 /\
  0 <= subbedEvtListSz t < 2 ^ 16 /\
  subbedEvtListSz t <= Z.of_nat (length (sub_buf t)) /\
  NoDup (subscriptions t).

(** The "have space ?" block. *)
Definition sub_append (evt : Z) (t : Task) : Task :=
  if subbedEvtListSz t >? subbedEvtCount t then
    let t := sub_store (subbedEvtCount t) evt t in
    set_subbedEvtCount (u16 (subbedEvtCount t + 1)) t
  else t.




Lemma subscribe_absent (evt : Z) (t : Task) (k : Kernel) :
  count_fits t -> ~ In evt (subscriptions t) ->
  sub_unsub EVT_SUBSCRIBE_TO_EVT evt t k =
  (sub_append evt
     (fst (if subbedEvtListSz t =? subbedEvtCount t then sub_enlarge t k else (t, k))),
   snd (if subbedEvtListSz t =? subbedEvtCount t then sub_enlarge t k else (t, k))).
Proof.
  intros Hfit Hnin. unfold sub_unsub, sub_append. cbv zeta.
  change (EVT_SUBSCRIBE_TO_EVT =? EVT_UNSUBSCRIBE_TO_EVT) with false.
  change (EVT_SUBSCRIBE_TO_EVT =? EVT_SUBSCRIBE_TO_EVT) with true.
  rewrite (sub_index_absent t evt Hfit Hnin), Z.eqb_refl.
  cbn [andb].
  destruct (if subbedEvtListSz t =? subbedEvtCount t then sub_enlarge t k else (t, k))
    as [t1 k1].
  cbn [fst snd].
  destruct (subbedEvtListSz t1 >? subbedEvtCount t1); reflexivity.
Qed.


Lemma sub_append_room (evt : Z) (t : Task) :
  count_fits t ->
  subbedEvtListSz t < 2 ^ 16 ->
  subbedEvtListSz t <= Z.of_nat (length (sub_buf t)) ->
  subbedEvtCount t < subbedEvtListSz t ->
  subscriptions (sub_append evt t) = subscriptions t ++ [evt] /\
  subbedEvtCount (sub_append evt t) = subbedEvtCount t + 1 /\
  subbedEvtListSz (sub_append evt t) = subbedEvtListSz t /\
  sub_buf (sub_append evt t) = zset (sub_buf t) (subbedEvtCount t) evt.
Proof.
  intros Hfit HL HLlen Hroom. unfold sub_append.
  destruct (Z.gtb_spec (subbedEvtListSz t) (subbedEvtCount t)); [ | lia ].
  cbv zeta.
  destruct (sub_store_view (subbedEvtCount t) evt t) as (Hb1 & Hc1 & Hl1).
  set (t1 := sub_store (subbedEvtCount t) evt t) in *.
  destruct (set_count_view (u16 (subbedEvtCount t1 + 1)) t1) as (Hb2 & Hc2 & Hl2).
  unfold count_fits in Hfit.
  assert (Hu : u16 (subbedEvtCount t + 1) = subbedEvtCount t + 1)
    by (unfold u16; apply Z.mod_small; lia).
  rewrite Hc1, Hu in *.
  split; [ | split; [ assumption | split; congruence ] ].
  unfold subscriptions. rewrite Hb2, Hc2, Hb1. unfold zset.
  replace (Z.to_nat (subbedEvtCount t + 1)) with (S (Z.to_nat (subbedEvtCount t)))
    by lia.
  apply firstn_succ_list_set. lia.
Qed.

Lemma sub_append_full (evt : Z) (t : Task) :
  subbedEvtListSz t <= subbedEvtCount t -> sub_append evt t = t.
Proof.
  intros H. unfold sub_append.
  destruct (Z.gtb_spec (subbedEvtListSz t) (subbedEvtCount t)); [ lia | reflexivity ].
Qed.

(** *** Growing the list *)

(** The capacity asked for when a list of capacity [old] is full. *)
Definition grown_size (old : Z) : Z := (old * 3 + 1) / 2.

Lemma grown_size_bounds (old : Z) :
  0 <= old < 2 ^ 16 ->
  old <= grown_size old < 2 ^ 32 /\ (1 <= old -> old < grown_size old) /\
  (old <= 43690 -> grown_size old < 2 ^ 16).
Proof.
  intros H. unfold grown_size.
  assert (H2 : 2 * ((old * 3 + 1) / 2) <= old * 3 + 1 < 2 * ((old * 3 + 1) / 2) + 2)
    by (pose proof (Z.mul_div_le (old * 3 + 1) 2);
        pose proof (Z.mul_succ_div_gt (old * 3 + 1) 2); lia).
  lia.
Qed.

Lemma length_chunk (n : Z) (junk : list Z) :
  0 <= n -> length (chunk (4 * n) junk) = Z.to_nat n.
Proof.
  intros Hn. unfold chunk. rewrite Z.mul_comm, Z.div_mul by lia. cbv zeta.
  rewrite length_firstn, length_app, repeat_length. lia.
Qed.

Lemma length_memcpy_words (dst src : list Z) (n : Z) :
  0 <= n -> n <= Z.of_nat (length src) -> n <= Z.of_nat (length dst) ->
  length (memcpy_words dst src n) = length dst.
Proof.
  intros H0 Hs Hd. unfold memcpy_words.
  rewrite length_app, length_firstn, length_skipn. lia.
Qed.

Lemma firstn_memcpy_words (dst src : list Z) (n : Z) :
  0 <= n -> n <= Z.of_nat (length src) ->
  firstn (Z.to_nat n) (memcpy_words dst src n) = firstn (Z.to_nat n) src.
Proof.
  intros H0 Hs. unfold memcpy_words.
  rewrite firstn_app, length_firstn.
  replace (Z.to_nat n - Nat.min (Z.to_nat n) (length src))%nat with 0%nat by lia.
  cbn [firstn]. rewrite app_nil_r, firstn_firstn. f_equal. lia.
Qed.

Lemma kernel_emit_view (ev : TraceEv) (k : Kernel) :
  trace (emit ev k) = trace k ++ [ev] /\ heap (emit ev k) = heap k /\
  mTasks (emit ev k) = mTasks k /\ mTaskCnt (emit ev k) = mTaskCnt k /\
  mCurEvtEventFreeingInfo (emit ev k) = mCurEvtEventFreeingInfo k.
Proof. destruct k; cbn; auto. Qed.

Lemma heapAlloc_fails (bytes : Z) (k : Kernel) :
  (forall junk h, heap k <> Some junk :: h) ->
  fst (heapAlloc bytes k) = None /\
  trace (snd (heapAlloc bytes k)) = trace k ++ [TrHeapAlloc bytes false].
Proof.
  intros Hfail. unfold heapAlloc.
  destruct k as [ts n nt cur q sl h tr]. cbn in *.
  destruct h as [ | [junk | ] h]; cbn; auto.
  exfalso. eapply Hfail. reflexivity.
Qed.

Lemma heapAlloc_succeeds (bytes : Z) (k : Kernel) (junk : list Z)
  (h : list (option (list Z))) :
  heap k = Some junk :: h ->
  fst (heapAlloc bytes k) = Some (chunk bytes junk) /\
  trace (snd (heapAlloc bytes k)) = trace k ++ [TrHeapAlloc bytes true] /\
  heap (snd (heapAlloc bytes k)) = h.
Proof.
  intros Hh. unfold heapAlloc. rewrite Hh.
  destruct k as [ts n nt cur q sl h0 tr]. cbn. auto.
Qed.

Lemma sub_enlarge_fails (t : Task) (k : Kernel) :
  0 <= subbedEvtListSz t < 2 ^ 16 ->
  (forall junk h, heap k <> Some junk :: h) ->
  fst (sub_enlarge t k) = t /\
  trace (snd (sub_enlarge t k)) =
    trace k ++ [TrHeapAlloc (4 * grown_size (subbedEvtListSz t)) false].
Proof.
  intros HL Hfail. unfold sub_enlarge. fold (grown_size (subbedEvtListSz t)).
  assert (Hu : u32 (grown_size (subbedEvtListSz t)) = grown_size (subbedEvtListSz t))
    by (unfold u32; apply Z.mod_small; pose proof (grown_size_bounds _ HL); lia).
  rewrite Hu. cbv zeta.
  destruct (heapAlloc_fails (4 * grown_size (subbedEvtListSz t)) k Hfail) as [H1 H2].
  destruct (heapAlloc (4 * grown_size (subbedEvtListSz t)) k) as [r k1].
  cbn [fst snd] in *. subst r. cbn [fst snd]. auto.
Qed.

Lemma sub_enlarge_succeeds (t : Task) (k : Kernel) (junk : list Z)
  (h : list (option (list Z))) :
  0 <= subbedEvtListSz t < 2 ^ 16 ->
  heap k = Some junk :: h ->
  let newSz := grown_size (subbedEvtListSz t) in
  let t1 := fst (sub_enlarge t k) in
  let k1 := snd (sub_enlarge t k) in
  subbedEvents t1 =
    SubHeap (memcpy_words (chunk (4 * newSz) junk) (sub_buf t) (subbedEvtListSz t)) /\
  subbedEvtCount t1 = subbedEvtCount t /\
  subbedEvtListSz t1 = u16 newSz /\
  heap k1 = h /\
  trace k1 =
    trace k ++ TrHeapAlloc (4 * newSz) true ::
    match subbedEvents t with SubHeap old => [TrHeapFree old] | _ => [] end.
Proof.
  intros HL Hh. cbv zeta. unfold sub_enlarge. fold (grown_size (subbedEvtListSz t)).
  assert (Hu : u32 (grown_size (subbedEvtListSz t)) = grown_size (subbedEvtListSz t))
    by (unfold u32; apply Z.mod_small; pose proof (grown_size_bounds _ HL); lia).
  rewrite Hu. cbv zeta.
  destruct (heapAlloc_succeeds (4 * grown_size (subbedEvtListSz t)) k junk h Hh)
    as (H1 & H2 & H3).
  destruct (heapAlloc (4 * grown_size (subbedEvtListSz t)) k) as [r k1].
  cbn [fst snd] in *. subst r.
  destruct t as [ti cnt sz p hdr emb]. cbn [subbedEvtListSz subbedEvtCount] in *.
  destruct p as [ | | old]; cbn [fst snd set_subbedEvents set_subbedEvtListSz
    subbedEvents subbedEvtCount subbedEvtListSz sub_buf heapFree];
    repeat split; try assumption.
  - unfold heapFree.
    destruct (kernel_emit_view (TrHeapFree old) k1) as (_ & He & _). now rewrite He.
  - unfold heapFree.
    destruct (kernel_emit_view (TrHeapFree old) k1) as (He & _). rewrite He, H2.
    now rewrite <- app_assoc.
Qed.

Lemma sub_buf_heap (t : Task) (blk : list Z) :
  subbedEvents t = SubHeap blk -> sub_buf t = blk.
Proof. unfold sub_buf. now intros ->. Qed.

(** After a successful enlargement the list is the same, in a chunk of the
    new capacity. *)
Lemma sub_enlarge_keeps_list (t : Task) (k : Kernel) (junk : list Z)
  (h : list (option (list Z))) :
  sub_inv t ->
  subbedEvtCount t <= subbedEvtListSz t ->
  heap k = Some junk :: h ->
  let t1 := fst (sub_enlarge t k) in
  subscriptions t1 = subscriptions t /\
  Z.of_nat (length (sub_buf t1)) = grown_size (subbedEvtListSz t) /\
  firstn (Z.to_nat (subbedEvtListSz t)) (sub_buf t1) =
    firstn (Z.to_nat (subbedEvtListSz t)) (sub_buf t).
Proof.
  intros (Hfit & Hc16 & HL & HLlen & Hnd) Hle Hh. cbv zeta.
  destruct (sub_enlarge_succeeds t k junk h HL Hh) as (Hp & Hc & Hl & _).
  cbv zeta in Hp, Hc, Hl.
  pose proof (grown_size_bounds _ HL) as (Hg & _).
  assert (Hbuf : sub_buf (fst (sub_enlarge t k)) =
                 memcpy_words (chunk (4 * grown_size (subbedEvtListSz t)) junk)
                   (sub_buf t) (subbedEvtListSz t))
    by (apply sub_buf_heap, Hp).
  assert (Hlen : Z.of_nat (length (sub_buf (fst (sub_enlarge t k)))) =
                 grown_size (subbedEvtListSz t)).
  { rewrite Hbuf, length_memcpy_words; rewrite ?length_chunk; lia. }
  assert (Hfirst : firstn (Z.to_nat (subbedEvtListSz t)) (sub_buf (fst (sub_enlarge t k))) =
                   firstn (Z.to_nat (subbedEvtListSz t)) (sub_buf t)).
  { rewrite Hbuf. apply firstn_memcpy_words; lia. }
  split; [ | split; assumption ].
  unfold subscriptions. rewrite Hc.
  unfold count_fits in Hfit.
  replace (Z.to_nat (subbedEvtCount t))
    with (Nat.min (Z.to_nat (subbedEvtCount t)) (Z.to_nat (subbedEvtListSz t))) by lia.
  rewrite <- !firstn_firstn. now rewrite Hfirst.
Qed.

Lemma sub_enlarge_inv (t : Task) (k : Kernel) :
  sub_inv t ->
  subbedEvtListSz t = subbedEvtCount t ->
  sub_inv (fst (sub_enlarge t k)) /\
  subscriptions (fst (sub_enlarge t k)) = subscriptions t.
Proof.
  intros Hinv Heq.
  destruct (heap k) as [ | [junk | ] h] eqn:Hh.
  2:{ destruct (sub_enlarge_keeps_list t k junk h Hinv ltac:(lia) Hh) as (Hs & Hlen & _).
      destruct Hinv as (Hfit & Hc16 & HL & HLlen & Hnd).
      destruct (sub_enlarge_succeeds t k junk h HL Hh) as (_ & Hc & Hl & _).
      cbv zeta in *. pose proof (grown_size_bounds _ HL) as (Hg & _).
      split; [ | assumption ].
      unfold sub_inv, count_fits in *. rewrite Hc, Hl, Hs, Hlen. unfold u16.
      pose proof (Z.mod_pos_bound (grown_size (subbedEvtListSz t)) (2 ^ 16) ltac:(lia)).
      pose proof (Z.mod_le (grown_size (subbedEvtListSz t)) (2 ^ 16) ltac:(lia) ltac:(lia)).
      repeat split; try lia; assumption. }
  all: destruct (sub_enlarge_fails t k) as [Hf _];
    [ apply Hinv | intros junk h'; congruence | rewrite Hf; auto ].
Qed.



(** *** Sequences of actions *)

Definition act_type (sub : bool) : Z :=
  if sub then EVT_SUBSCRIBE_TO_EVT else EVT_UNSUBSCRIBE_TO_EVT.




(** Largest capacity whose enlargement is still a 16-bit value. *)
Definition MAX_GROWABLE : Z := 43690.







(** *** The subscription list of a task (C5) *)




Lemma sub_inv_task_full : sub_inv Examples.task_full.
Proof.
  unfold sub_inv, count_fits. cbn.
  repeat split; try lia.
  repeat (constructor; [ cbn; intuition discriminate | ]). constructor.
Qed.


(** *** Growing a full list (C8) *)

(** [ceil(n / 2)]. *)
Definition ceil_half (n : Z) : Z := (n + 1) / 2.

(** The stated property: the enlargement asks for [ceil((old * 3 + 1) / 2)]
    elements. *)
Definition asks_for_stated_size (t : Task) (k : Kernel) (evt : Z) : Prop :=
  exists ok,
    In (TrHeapAlloc (4 * ceil_half (subbedEvtListSz t * 3 + 1)) ok)
       (trace (snd (sub_unsub EVT_SUBSCRIBE_TO_EVT evt t k))).

(** C8, as stated, fails: for a full list of six the code asks for nine
    elements (36 bytes), not for ceil(19 / 2) = 10. *)
Lemma C8_counterexample :
  ~ asks_for_stated_size Examples.task_full Examples.k_heap_serves 99.
Proof.
  intros [ok Hin]. vm_compute in Hin.
  destruct Hin as [Hin | []]. discriminate Hin.
Qed.

(** C8, amended: when a subscribe for a new type finds the list full, the
    chunk asked for has [(old * 3 + 1) / 2] elements with C's truncating
    division, that is ceil(old * 3 / 2); when the heap serves it, the existing
    entries are copied to the front of the new chunk and the new entry is
    stored behind them. *)
Theorem C8_list_growth (t : Task) (k : Kernel) (evt : Z) (junk : list Z)
  (h : list (option (list Z))) :
  sub_inv t ->
  ~ In evt (subscriptions t) ->
  subbedEvtListSz t = subbedEvtCount t ->
  1 <= subbedEvtListSz t <= MAX_GROWABLE ->
  heap k = Some junk :: h ->
  let old := subbedEvtListSz t in
  let t' := fst (sub_unsub EVT_SUBSCRIBE_TO_EVT evt t k) in
  let k' := snd (sub_unsub EVT_SUBSCRIBE_TO_EVT evt t k) in
  3 * old <= 2 * grown_size old <= 3 * old + 1 /\
  trace k' =
    trace k ++ TrHeapAlloc (4 * grown_size old) true ::
    match subbedEvents t with SubHeap blk => [TrHeapFree blk] | _ => [] end /\
  Z.of_nat (length (sub_buf t')) = grown_size old /\
  subbedEvtListSz t' = grown_size old /\
  firstn (Z.to_nat old) (sub_buf t') = subscriptions t /\
  znth (sub_buf t') old = evt /\
  subscriptions t' = subscriptions t ++ [evt].
Proof.
  intros Hinv Hnin Heq Hrange Hh. cbv zeta.
  pose proof Hinv as (Hfit & Hc16 & HL & HLlen & Hnd).
  rewrite subscribe_absent by assumption. cbn [fst snd].
  rewrite Heq, Z.eqb_refl. rewrite <- Heq.
  destruct (sub_enlarge_inv t k Hinv Heq) as [Hinv1 Hs1].
  destruct (sub_enlarge_succeeds t k junk h HL Hh) as (_ & Hc1 & Hl1 & _ & Htr).
  destruct (sub_enlarge_keeps_list t k junk h Hinv ltac:(lia) Hh) as (_ & Hlen1 & _).
  cbv zeta in Hc1, Hl1, Htr, Hlen1.
  pose proof (grown_size_bounds _ HL) as (Hg & Hg1 & Hg16).
  unfold MAX_GROWABLE in Hrange.
  assert (Hu : u16 (grown_size (subbedEvtListSz t)) = grown_size (subbedEvtListSz t))
    by (unfold u16; apply Z.mod_small; lia).
  rewrite Hu in Hl1.
  set (t1 := fst (sub_enlarge t k)) in *.
  destruct Hinv1 as (Hfit1 & _ & HL1 & HLlen1 & _).
  destruct (sub_append_room evt t1 Hfit1 ltac:(lia) HLlen1 ltac:(lia))
    as (Hs & Hc & Hl & Hb).
  assert (Hsubs : subscriptions (sub_append evt t1) = subscriptions t ++ [evt])
    by (now rewrite Hs, Hs1).
  assert (Hlens : length (subscriptions t) = Z.to_nat (subbedEvtListSz t))
    by (rewrite length_subscriptions by assumption; lia).
  assert (Hfirst : firstn (S (Z.to_nat (subbedEvtListSz t))) (sub_buf (sub_append evt t1))
                   = subscriptions t ++ [evt]).
  { rewrite <- Hsubs. unfold subscriptions. f_equal. lia. }
  split; [ | split; [ exact Htr | split; [ | split; [ | split; [ | split ] ] ] ] ].
  - unfold grown_size.
    pose proof (Z.mul_div_le (subbedEvtListSz t * 3 + 1) 2).
    pose proof (Z.mul_succ_div_gt (subbedEvtListSz t * 3 + 1) 2). lia.
  - rewrite Hb. unfold zset. rewrite length_list_set. exact Hlen1.
  - now rewrite Hl.
  - replace (Z.to_nat (subbedEvtListSz t))
      with (Nat.min (Z.to_nat (subbedEvtListSz t)) (S (Z.to_nat (subbedEvtListSz t))))
      by lia.
    rewrite <- firstn_firstn, Hfirst, firstn_app, Hlens, Nat.sub_diag.
    cbn [firstn]. rewrite app_nil_r, <- Hlens. apply firstn_all.
  - unfold znth.
    rewrite <- (firstn_skipn (S (Z.to_nat (subbedEvtListSz t)))
                  (sub_buf (sub_append evt t1))).
    rewrite Hfirst, <- app_assoc, app_nth2 by lia.
    rewrite Hlens, Nat.sub_diag. reflexivity.
  - exact Hsubs.
Qed.

Lemma C8_list_growth_witness :
  (sub_inv Examples.task_full /\ ~ In 99 (subscriptions Examples.task_full) /\
   subbedEvtListSz Examples.task_full = subbedEvtCount Examples.task_full /\
   1 <= subbedEvtListSz Examples.task_full <= MAX_GROWABLE /\
   heap Examples.k_heap_serves = [Some []]) /\
  grown_size 6 = 9 /\
  trace (snd (sub_unsub EVT_SUBSCRIBE_TO_EVT 99 Examples.task_full Examples.k_heap_serves))
    = [TrHeapAlloc 36 true] /\
  subscriptions
    (fst (sub_unsub EVT_SUBSCRIBE_TO_EVT 99 Examples.task_full Examples.k_heap_serves))
    = [10; 11; 12; 13; 14; 15; 99].
Proof.
  assert (Hnin : ~ In 99 (subscriptions Examples.task_full))
    by (intros H; vm_compute in H; intuition discriminate).
  assert (Hrange : 1 <= subbedEvtListSz Examples.task_full <= MAX_GROWABLE)
    by (cbn; unfold MAX_GROWABLE; lia).
  split; [ repeat split; try apply sub_inv_task_full; try assumption; apply Hrange | ].
  split; [ reflexivity | ].
  destruct (C8_list_growth Examples.task_full Examples.k_heap_serves 99 [] []
              sub_inv_task_full Hnin eq_refl Hrange eq_refl)
    as (_ & Htr & _ & _ & _ & _ & Hsubs).
  split; [ exact Htr | exact Hsubs ].
Defined.

End SubscriptionFacts.

(** ** Event freeing and retention *)

Module DispatchFacts.

Import Seos SubscriptionFacts.

(** One application of a free-info: the arguments [handleEventFreeing] was
    entered with. *)
Definition FreeReq : Type := (Z * EvtData * TaggedPtr)%type.

Definition FreeReq_eq_dec (x y : FreeReq) : {x = y} + {x <> y}.
Proof. repeat decide equality. Defined.

(** The applications recorded in a trace, oldest first. *)
Definition frees (tr : list TraceEv) : list FreeReq :=
  flat_map (fun ev => match ev with
                      | TrFree ty d fi => [(ty, d, fi)]
                      | _ => []
                      end) tr.

(** The free-infos handed out by successful [osRetainCurrentEvent] calls. *)
Definition retained (tr : list TraceEv) : list TaggedPtr :=
  flat_map (fun ev => match ev with
                      | TrRetain true (Some info) => [info]
                      | _ => []
                      end) tr.

(** How often [x] was applied in a trace. *)
Definition applied (x : FreeReq) (tr : list TraceEv) : nat :=
  count_occ FreeReq_eq_dec (frees tr) x.

Definition own (e : Event) : FreeReq := (evtType e, evtData e, evtFreeingInfo e).




(** *** What a stretch of kernel code did to the trace and to the slot *)







Section WithPlatform.

Variable P : Platform.









(** *** Delivery *)

















End WithPlatform.


(** *** One iteration of the loop (C2) *)




(** A subscriber that retains the event it is handed: the loop leaves the
    freeing to it. *)
Example retain_during_delivery :
  let k := mkKernel [mkTask 5 1 6 SubEmbedded 100 [1024; 0; 0; 0; 0; 0]] 1 1 None [] 64 [] [] in
  let k2 := process_event Examples.plat_app_retains Examples.ev_owned k in
  trace k2 = [TrAppHandle 5 1024 (ArgData (DataPtr 4242));
              TrRetain true (Some (TaggedUint 5))] /\
  applied (own Examples.ev_owned) (trace k2) = 0%nat.
Proof. split; reflexivity. Qed.

(** *** Private events (C9) *)

Lemma retain_fails_when_clear (k : Kernel) :
  mCurEvtEventFreeingInfo k = None -> osRetainCurrentEvent k = (false, None, k).
Proof. unfold osRetainCurrentEvent. now intros ->. Qed.



(** A private event from [osEnqueuePrivateEvt] to its release, through the
    queue: delivered to task 5, which cannot retain it, then freed once. *)
Example private_event_round_trip :
  let k1 := snd (osEnqueuePrivateEvt Examples.plat_app_retains 1024 4242 8192 5
                   Examples.k_owner) in
  mEvtsInternal k1 =
    [mkEvent EVT_PRIVATE_EVT (DataThing Examples.private_for_5) (TaggedFn 4096)] /\
  slab_avail k1 = 63 /\
  let k2 := osMainDequeueLoop Examples.plat_app_retains k1 in
  mEvtsInternal k2 = [] /\ slab_avail k2 = 64 /\
  frees (trace k2) =
    [(1024, DataPtr 4242, TaggedFn 8192);
     (EVT_PRIVATE_EVT, DataThing Examples.private_for_5, TaggedFn 4096)] /\
  retained (trace k2) = [].
Proof. repeat split. Qed.

End DispatchFacts.

(** ** The subscribe action in the loop, and what its producer learns (C7) *)

Module SubscribeCallFacts.

Import Seos SubscriptionFacts.

Lemma list_set_same {A : Type} (l : list A) (i : nat) (x : A) :
  nth_error l i = Some x -> list_set l i x = l.
Proof.
  revert i. induction l as [ | y l IH]; intros [ | i]; cbn; try discriminate.
  - now intros [= ->].
  - intros H. f_equal. now apply IH.
Qed.

Lemma sub_enlarge_mTasks (t : Task) (k : Kernel) :
  mTasks (snd (sub_enlarge t k)) = mTasks k.
Proof.
  unfold sub_enlarge, heapAlloc. cbv zeta.
  destruct k as [ts n nt cur q sl h tr]. cbn [heap].
  destruct h as [ | [junk | ] h]; cbn; try reflexivity.
  destruct (subbedEvents t); reflexivity.
Qed.





(** The stated property: a growth request that failed while the loop
    processed the subscribe shows as a [false] result of the
    [osEventSubscribe] call that queued it. *)
Definition growth_failure_reported (P : Platform) (tid evt : Z) (k : Kernel) : Prop :=
  forall bytes,
    In (TrHeapAlloc bytes false)
       (trace (osMainDequeueLoop P (snd (osEventSubscribe P tid evt k)))) ->
    fst (osEventSubscribe P tid evt k) = false.

(** C7, as stated, fails: [osEventSubscribe] has returned [true] when the
    action is queued; the loop later fails to enlarge the full list of task 5
    and drops the subscribe. *)
Lemma C7_counterexample :
  ~ growth_failure_reported Examples.plat 5 99 Examples.k_heap_exhausted.
Proof.
  intros H. specialize (H 36).
  assert (Hin : In (TrHeapAlloc 36 false)
                  (trace (osMainDequeueLoop Examples.plat
                            (snd (osEventSubscribe Examples.plat 5 99
                                    Examples.k_heap_exhausted)))))
    by (vm_compute; left; reflexivity).
  specialize (H Hin). vm_compute in H. discriminate H.
Qed.

(** C7, amended: when the heap cannot serve the enlargement a subscribe
    needs, the loop drops the action without reporting anything: the task
    table is left as it was and the only effect is the failed request itself.
    [osEventSubscribe] returns [true] as soon as a slab item was available and
    the queue took the action, whatever the heap will do later; it returns
    [false] only when one of these two fails. *)
Theorem C7_growth_failure_is_silent (P : Platform) (k : Kernel) (i : Z)
  (task : Task) (da : InternalThing) :
  osTaskFindByTid k (evtSub_tid da) = Some i ->
  task_at k i = Some task ->
  sub_inv task ->
  ~ In (evtSub_evt da) (subscriptions task) ->
  subbedEvtListSz task = subbedEvtCount task ->
  (forall junk h, heap k <> Some junk :: h) ->
  let k' := osInternalEvtHandle P EVT_SUBSCRIBE_TO_EVT (DataThing da) k in
  mTasks k' = mTasks k /\
  trace k' = trace k ++ [TrHeapAlloc (4 * grown_size (subbedEvtListSz task)) false] /\
  (forall tid evt k0,
     fst (osEventSubscribe P tid evt k0) = true <->
     0 < slab_avail k0 /\
     evtQueueEnqueue P (mEvtsInternal k0)
       (mkEvent EVT_SUBSCRIBE_TO_EVT (DataThing (mkThing tid evt (TaggedFn 0) 0))
          (taggedPtrMakeFromPtr (osDeferredActionFreeF P))) false <> None) /\
  (forall tid evt k0 h,
     fst (osEventSubscribe P tid evt (set_heap h k0)) =
     fst (osEventSubscribe P tid evt k0)).
Proof.
  intros Hfind Hat Hinv Hnin Hfull Hfail. cbv zeta.
  pose proof Hinv as (Hfit & Hc16 & HL & HLlen & Hnd).
  split; [ | split; [ | split ] ].
  - unfold osInternalEvtHandle.
    change (EVT_SUBSCRIBE_TO_EVT =? EVT_SUBSCRIBE_TO_EVT) with true. cbn [orb].
    rewrite Hfind, Hat.
    rewrite subscribe_absent by assumption.
    rewrite Hfull, Z.eqb_refl.
    destruct (sub_enlarge_fails task k HL Hfail) as [Ht _].
    rewrite Ht, sub_append_full by lia.
    pose proof (sub_enlarge_mTasks task k) as Hm.
    destruct (snd (sub_enlarge task k)) as [ts n nt cur q sl h tr].
    cbn in Hm |- *. subst ts. unfold zset. apply list_set_same. exact Hat.
  - destruct (sub_enlarge_fails task k HL Hfail) as [_ Htr].
    rewrite <- Htr.
    unfold osInternalEvtHandle.
    change (EVT_SUBSCRIBE_TO_EVT =? EVT_SUBSCRIBE_TO_EVT) with true. cbn [orb].
    rewrite Hfind, Hat.
    rewrite subscribe_absent by assumption.
    rewrite Hfull, Z.eqb_refl.
    destruct (snd (sub_enlarge task k)) as [ts n nt cur q sl h tr]. reflexivity.
  - intros tid evt k0.
    unfold osEventSubscribe, osEventSubscribeUnsubscribe, slabAllocatorAlloc,
      osEnqueueEvtOrFree_internal, osEnqueueEvt.
    destruct k0 as [ts n nt cur q sl h tr]. cbn [slab_avail set_slab_avail].
    destruct (Z.ltb_spec 0 sl) as [Hsl | Hsl]; cbn [mEvtsInternal fst].
    + destruct (evtQueueEnqueue P q _ false) as [q' | ] eqn:Henq; cbn [fst negb andb].
      * split; [ intros _; split; [ assumption | discriminate ] | reflexivity ].
      * destruct (negb (osDeferredActionFreeF P =? 0)); cbn [fst];
          (split; [ discriminate | intros [_ Hne]; now contradiction Hne ]).
    + split; [ discriminate | intros [Hpos _]; lia ].
  - intros tid evt k0 h.
    unfold osEventSubscribe, osEventSubscribeUnsubscribe, slabAllocatorAlloc,
      osEnqueueEvtOrFree_internal, osEnqueueEvt.
    destruct k0 as [ts n nt cur q sl h0 tr]. cbn [slab_avail set_slab_avail set_heap].
    destruct (0 <? sl); [ | reflexivity ]. cbn [mEvtsInternal].
    destruct (evtQueueEnqueue P q _ false); cbn [fst negb andb]; [ reflexivity | ].
    destruct (negb (osDeferredActionFreeF P =? 0)); reflexivity.
Qed.

Lemma C7_growth_failure_is_silent_witness :
  (osTaskFindByTid Examples.k_heap_exhausted 5 = Some 0 /\
   task_at Examples.k_heap_exhausted 0 = Some Examples.task_full /\
   sub_inv Examples.task_full /\
   ~ In 99 (subscriptions Examples.task_full) /\
   subbedEvtListSz Examples.task_full = subbedEvtCount Examples.task_full /\
   (forall junk h, heap Examples.k_heap_exhausted <> Some junk :: h)) /\
  mTasks (osInternalEvtHandle Examples.plat EVT_SUBSCRIBE_TO_EVT
            (DataThing (mkThing 5 99 (TaggedFn 0) 0)) Examples.k_heap_exhausted)
  = [Examples.task_full] /\
  fst (osEventSubscribe Examples.plat 5 99 Examples.k_heap_exhausted) = true.
Proof.
  assert (Hnin : ~ In 99 (subscriptions Examples.task_full))
    by (intros H; vm_compute in H; intuition discriminate).
  assert (Hfail : forall junk h, heap Examples.k_heap_exhausted <> Some junk :: h)
    by (intros junk h; discriminate).
  split; [ repeat split; try reflexivity; try apply sub_inv_task_full; assumption | ].
  destruct (C7_growth_failure_is_silent Examples.plat Examples.k_heap_exhausted 0
              Examples.task_full (mkThing 5 99 (TaggedFn 0) 0)
              eq_refl eq_refl sub_inv_task_full Hnin eq_refl Hfail)
    as (Htasks & _ & Hret & _).
  split; [ exact Htasks | ].
  apply Hret. split; [ reflexivity | discriminate ].
Defined.

End SubscribeCallFacts.

(** * Further properties of gyro_cal.c *)

Module GyroUpdateFacts.

Import GyroCal GyroCalFacts GyroCalSetup.

(** ** Following a state through an update call

    [inv Q g st]: the property [Q] of the calibration state and of the
    trackers' statics.  The tactics follow it through the code of an update:
    [peel] steps over an assignment to a field [Q] does not read,
    [through_call] over a tracker call, [through_if] into both branches of a
    conditional. *)

Definition inv (Q : GyroCal -> Statics.t -> Prop) (g : GyroCal) (st : Statics.t) : Prop :=
  Q g st.

Lemma inv_if (Q : GyroCal -> Statics.t -> Prop) (b : bool) (g1 g2 : GyroCal)
  (st : Statics.t) :
  inv Q g1 st -> inv Q g2 st -> inv Q (if b then g1 else g2) st.
Proof. destruct b; auto. Qed.

Lemma inv_pair (Q : GyroCal -> Statics.t -> Prop) (r : GyroCal * Statics.t) :
  (forall g st, r = (g, st) -> inv Q g st) -> inv Q (fst r) (snd r).
Proof. destruct r as [g st]. intros H. apply H. reflexivity. Qed.

Ltac is_setter s :=
  lazymatch s with
  | set_accel_stillness_detect => idtac
  | set_gyro_stillness_detect => idtac
  | set_mag_stillness_detect => idtac
  | set_bias_x => idtac
  | set_bias_y => idtac
  | set_bias_z => idtac
  | set_bias_temperature_celsius => idtac
  | set_calibration_time_nanos => idtac
  | set_prev_still => idtac
  | set_start_still_time_nanos => idtac
  | set_gyro_watchdog_start_nanos => idtac
  | set_gyro_watchdog_timeout => idtac
  | set_stillness_win_endtime_nanos => idtac
  | set_new_gyro_cal_available => idtac
  | set_using_mag_sensor => idtac
  | set_stillness_confidence => idtac
  | set_gyro_winmean_min => idtac
  | set_gyro_winmean_max => idtac
  | set_temperature_min_max_celsius => idtac
  | set_temperature_mean_celsius => idtac
  end.

Ltac peel :=
  lazymatch goal with
  | |- inv ?Q (?s ?v ?g) ?st =>
      is_setter s;
      cut (inv Q g st);
      [ generalize g; let g0 := fresh "g" in let H0 := fresh "H" in
        intros g0 H0; destruct g0; exact H0
      | ]
  end.

(** The property holds of the assigned state whatever it was before. *)
Ltac settle :=
  lazymatch goal with
  | |- inv ?Q (?s ?v ?g) ?st =>
      is_setter s;
      generalize g; let g0 := fresh "g" in
      intros g0; destruct g0; unfold inv; cbn; solve [ auto using orb_true_r ]
  end.

Ltac inv_step :=
  first
    [ eassumption
    | peel
    | apply inv_if
    | rewrite computeGyroCal_eq; unfold committed
    | progress unfold reset_detectors
    | settle ].

Ltac inv_solve := repeat inv_step.

Ltac tracker_inv :=
  lazymatch goal with
  | |- inv ?Q (snd (fst (gyroStillMeanTracker ?g ?st ?c))) (snd _) =>
      let H := fresh "H" in
      assert (H : inv Q g st) by inv_solve;
      unfold gyroStillMeanTracker; revert H; generalize g; intros ? H;
      destruct st as [?macc ?stmm ?n [[? ?] ?] [[? ?] ?] ?latest];
      cbn [fst snd]; first [ exact H | inv_solve; exact H ]
  | |- inv ?Q (snd (fst (gyroTemperatureStatsTracker ?g ?st ?x ?c))) (snd _) =>
      let H := fresh "H" in
      assert (H : inv Q g st) by inv_solve;
      unfold gyroTemperatureStatsTracker; revert H; generalize g; intros ? H;
      destruct st as [?macc ?stmm ?n [[? ?] ?] [[? ?] ?] ?latest];
      cbn [fst snd];
      first [ exact H | inv_solve; exact H
            | destruct (0 <? _); cbn [fst snd]; first [ exact H | inv_solve; exact H ] ]
  end.

(** Steps over the next tracker call; [Q] is kept for what the call returns
    when it held of what the call was given. *)
Ltac through_call Q :=
  match goal with
  | |- context [match ?x with pair _ _ => _ end] =>
      lazymatch x with
      | gyroStillMeanTracker _ _ _ => idtac
      | gyroTemperatureStatsTracker _ _ _ _ => idtac
      end;
      let H := fresh "H" in
      first [ assert (H : inv Q (snd (fst x)) (snd x)) by tracker_inv;
              destruct x as [[? ?] ?]; cbn [fst snd] in H
            | destruct x as [[? ?] ?] ]
  end.

Ltac through_if :=
  match goal with
  | |- context [match (if ?b then _ else _) with pair _ _ => _ end] => destruct b eqn:?
  | |- (if ?b then _ else _) = _ -> _ => destruct b eqn:?
  end.

Ltac walk_calls Q := repeat first [ through_call Q | through_if ].

Ltac walk :=
  lazymatch goal with
  | |- _ -> inv ?Q _ _ => walk_calls Q; intros [= <- <-]; inv_solve
  end.

(** ** Sensor streams *)

Inductive Sample : Type :=
| GyroSample (sample_time_nanos : Z) (x y z temperature_celsius : float)
| MagSample (sample_time_nanos : Z) (x y z : float)
| AccelSample (sample_time_nanos : Z) (x y z : float).

Section Updates.

Variable gyroStillDetUpdate :
  StillDet.GyroStillDet -> Z -> Z -> float -> float -> float -> StillDet.GyroStillDet.
Variable gyroStillDetCompute : StillDet.GyroStillDet -> StillDet.GyroStillDet.
Variable gyroStillDetReset : StillDet.GyroStillDet -> bool -> StillDet.GyroStillDet.

(** The driver's call for one sample, and for a stream of them. *)
Definition feed (r : GyroCal * Statics.t) (s : Sample) : GyroCal * Statics.t :=
  match s with
  | GyroSample t x y z temp =>
      gyroCalUpdateGyro gyroStillDetUpdate gyroStillDetCompute gyroStillDetReset
        (fst r) (snd r) t x y z temp
  | MagSample t x y z =>
      gyroCalUpdateMag gyroStillDetUpdate gyroStillDetCompute gyroStillDetReset
        (fst r) (snd r) t x y z
  | AccelSample t x y z =>
      gyroCalUpdateAccel gyroStillDetUpdate gyroStillDetCompute gyroStillDetReset
        (fst r) (snd r) t x y z
  end.

Definition feed_all (samples : list Sample) (r : GyroCal * Statics.t)
  : GyroCal * Statics.t :=
  fold_left feed samples r.

(** A property every update call keeps is kept along a stream. *)
Lemma feed_all_inv (Q : GyroCal -> Statics.t -> Prop) :
  (forall g st s, inv Q g st -> inv Q (fst (feed (g, st) s)) (snd (feed (g, st) s))) ->
  forall samples g st,
    inv Q g st ->
    inv Q (fst (feed_all samples (g, st))) (snd (feed_all samples (g, st))).
Proof.
  intros Hstep samples. induction samples as [ | s samples IH]; intros g st H.
  - exact H.
  - cbn [feed_all fold_left]. fold (feed_all samples).
    specialize (Hstep g st s H).
    destruct (feed (g, st) s) as [g1 st1]. now apply IH.
Qed.

Ltac one_update :=
  let g := fresh "g" in let s := fresh "st" in let H := fresh "H" in
  let g' := fresh "g'" in let s' := fresh "st'" in
  intros g s [? ? ? ? ? | ? ? ? ? | ? ? ? ?] H; cbn [feed fst snd];
  apply inv_pair; intros g' s';
  unfold gyroCalUpdateGyro, gyroCalUpdateMag, gyroCalUpdateAccel,
    deviceStillnessCheck, checkWatchdog;
  walk.

(** *** What updates never write *)

(** The parameters [gyroCalInit] stores. *)
Definition configuration (g : GyroCal) :=
  (min_still_duration_nanos g, max_still_duration_nanos g,
   window_time_duration_nanos g, gyro_watchdog_timeout_duration_nanos g,
   stillness_threshold g, stillness_mean_delta_limit g,
   temperature_delta_limit_celsius g, gyro_calibration_enable g).

Lemma feed_all_configuration (samples : list Sample) (gc : GyroCal) (st : Statics.t) :
  configuration (fst (feed_all samples (gc, st))) = configuration gc.
Proof.
  apply (feed_all_inv (fun g _ => configuration g = configuration gc));
    [ | reflexivity ].
  one_update.
Qed.

(** X1: no sequence of gyro, magnetometer and accelerometer updates changes a
    parameter set by [gyroCalInit]: the stillness durations, the window and
    watchdog durations, the three limits and the enable flag are read only. *)
Theorem updates_keep_configuration (samples : list Sample) (gc : GyroCal)
  (st : Statics.t) :
  configuration (fst (feed_all samples (gc, st))) = configuration gc.
Proof. exact (feed_all_configuration samples gc st). Qed.

(** X2: the static [latest_temperature_celsius], which [gyroCalUpdateGyro]
    compares each temperature sample with, is never assigned: after any
    sequence of updates it holds the value it had before. *)
Theorem reference_temperature_never_written (samples : list Sample) (gc : GyroCal)
  (st : Statics.t) :
  Statics.latest_temperature_celsius (snd (feed_all samples (gc, st))) =
  Statics.latest_temperature_celsius st.
Proof.
  apply (feed_all_inv
           (fun _ s => Statics.latest_temperature_celsius s =
                       Statics.latest_temperature_celsius st));
    [ | reflexivity ].
  one_update.
Qed.

(** X3: the flag [gyro_watchdog_timeout] is sticky: once a watchdog timeout
    has set it, no sequence of updates clears it. *)
Theorem watchdog_flag_is_sticky (samples : list Sample) (gc : GyroCal) (st : Statics.t) :
  gyro_watchdog_timeout gc = true ->
  gyro_watchdog_timeout
    (fst (feed_all samples (gc, st))) = true.
Proof.
  intros Hflag.
  apply (feed_all_inv (fun g _ => gyro_watchdog_timeout g = true)); [ | exact Hflag ].
  one_update.
Qed.

Lemma bias_bounded_same (g g' : GyroCal) :
  same_bias g' g -> bias_bounded g -> bias_bounded g'.
Proof.
  unfold same_bias, bias_bounded. intros (-> & -> & ->). auto.
Qed.

(** X4: a bias inside the range stays inside it: when each axis of the stored
    bias has magnitude below [MAX_GYRO_BIAS], so it has after any sequence of
    updates, whatever the detectors report. *)
Theorem bias_stays_bounded (samples : list Sample) (gc : GyroCal) (st : Statics.t) :
  bias_bounded gc ->
  bias_bounded
    (fst (feed_all samples (gc, st))).
Proof.
  intros Hb.
  apply (feed_all_inv (fun g _ => bias_bounded g)); [ | exact Hb ].
  intros g s smp H. unfold inv in *.
  destruct smp as [t x y z temp | t x y z | t x y z]; cbn [feed fst snd].
  - destruct (update_bias_kept_or_bounded g gyroStillDetUpdate gyroStillDetCompute
                gyroStillDetReset s t x y z temp) as ([Hk | Hk] & _);
      [ eapply bias_bounded_same; eassumption | exact Hk ].
  - destruct (update_bias_kept_or_bounded g gyroStillDetUpdate gyroStillDetCompute
                gyroStillDetReset s t x y z zero) as (_ & [Hk | Hk] & _);
      [ eapply bias_bounded_same; eassumption | exact Hk ].
  - destruct (update_bias_kept_or_bounded g gyroStillDetUpdate gyroStillDetCompute
                gyroStillDetReset s t x y z zero) as (_ & _ & [Hk | Hk]);
      [ eapply bias_bounded_same; eassumption | exact Hk ].
Qed.

(** *** Windows *)

(** The test "is there enough data to do a stillness calculation?", negated. *)
Definition window_pending (g : GyroCal) : bool :=
  (negb (StillDet.stillness_window_ready (mag_stillness_detect g)) &&
   using_mag_sensor g) ||
  negb (StillDet.stillness_window_ready (accel_stillness_detect g)) ||
  negb (StillDet.stillness_window_ready (gyro_stillness_detect g)).

(** The watchdog is not armed, or has not run out at [t]. *)
Definition watchdog_quiet (g : GyroCal) (t : Z) : Prop :=
  gyro_watchdog_start_nanos g <= 0 \/
  t <= u64 (gyro_watchdog_timeout_duration_nanos g + gyro_watchdog_start_nanos g).

Lemma checkWatchdog_quiet (g : GyroCal) (st : Statics.t) (t : Z) :
  watchdog_quiet g t -> checkWatchdog gyroStillDetReset g st t = (g, st).
Proof.
  unfold watchdog_quiet, checkWatchdog. intros [H | H].
  - apply Z.leb_le in H. now rewrite H.
  - destruct (_ <=? 0); [ reflexivity | ].
    assert (Hn : (t >? u64 (gyro_watchdog_timeout_duration_nanos g +
                            gyro_watchdog_start_nanos g)) = false).
    { rewrite Z.gtb_ltb. apply Z.ltb_ge. exact H. }
    now rewrite Hn.
Qed.

Lemma stillness_check_pending (g : GyroCal) (st : Statics.t) (t : Z) :
  watchdog_quiet g t ->
  window_pending g = true ->
  deviceStillnessCheck gyroStillDetCompute gyroStillDetReset g st t = (g, st).
Proof.
  intros Hq Hp. unfold deviceStillnessCheck.
  rewrite (checkWatchdog_quiet g st t Hq).
  unfold window_pending in Hp. now rewrite Hp.
Qed.

(** X5: a sample that completes no window changes nothing but the detector it
    is fed to.  When the watchdog is not due and the detector the sample goes
    to has no window ready after taking it, [gyroCalUpdateAccel] returns the
    state with that detector updated, and [gyroCalUpdateMag] the same with
    [using_mag_sensor] set; the trackers' statics, the window end-time and
    the watchdog start are as before. *)
Theorem unfinished_window_changes_nothing (gc : GyroCal) (st : Statics.t) (t : Z)
  (x y z : float) :
  watchdog_quiet gc t ->
  let acc :=
    gyroStillDetUpdate (accel_stillness_detect gc) (stillness_win_endtime_nanos gc)
      t x y z in
  let mag :=
    gyroStillDetUpdate (mag_stillness_detect gc) (stillness_win_endtime_nanos gc)
      t x y z in
  (StillDet.stillness_window_ready acc = false ->
   gyroCalUpdateAccel gyroStillDetUpdate gyroStillDetCompute gyroStillDetReset
     gc st t x y z
   = (set_accel_stillness_detect acc gc, st)) /\
  (StillDet.stillness_window_ready mag = false ->
   gyroCalUpdateMag gyroStillDetUpdate gyroStillDetCompute gyroStillDetReset
     gc st t x y z
   = (set_using_mag_sensor true (set_mag_stillness_detect mag gc), st)).
Proof.
  intros Hq. cbv zeta. split; intros Hr.
  - unfold gyroCalUpdateAccel. apply stillness_check_pending.
    + destruct gc; exact Hq.
    + unfold window_pending. destruct gc; cbn in Hr |- *. rewrite Hr.
      cbn. rewrite orb_true_r. reflexivity.
  - unfold gyroCalUpdateMag. apply stillness_check_pending.
    + destruct gc; exact Hq.
    + unfold window_pending. destruct gc; cbn in Hr |- *. rewrite Hr.
      reflexivity.
Qed.

Lemma checkWatchdog_window (g : GyroCal) (st : Statics.t) (t : Z) :
  window_time_duration_nanos (fst (checkWatchdog gyroStillDetReset g st t)) =
  window_time_duration_nanos g.
Proof.
  change (inv (fun g' _ => window_time_duration_nanos g' = window_time_duration_nanos g)
            (fst (checkWatchdog gyroStillDetReset g st t))
            (snd (checkWatchdog gyroStillDetReset g st t))).
  assert (H : inv (fun g' _ => window_time_duration_nanos g' =
                               window_time_duration_nanos g) g st) by reflexivity.
  apply inv_pair. intros g' st'. unfold checkWatchdog. walk.
Qed.

Lemma processed_window_fields (gc : GyroCal) (st : Statics.t) (t : Z) :
  window_pending (fst (checkWatchdog gyroStillDetReset gc st t)) = false ->
  let g' := fst (deviceStillnessCheck gyroStillDetCompute gyroStillDetReset gc st t) in
  gyro_watchdog_start_nanos g' = t /\
  stillness_win_endtime_nanos g' = u64 (t + window_time_duration_nanos gc).
Proof.
  intros Hp. cbv zeta.
  pose proof (checkWatchdog_window gc st t) as Hw.
  unfold deviceStillnessCheck.
  destruct (checkWatchdog gyroStillDetReset gc st t) as [g1 s1].
  cbn [fst] in Hp, Hw. unfold window_pending in Hp. rewrite Hp. rewrite <- Hw.
  clear Hp Hw. split.
  - match goal with
    | |- gyro_watchdog_start_nanos (fst ?r) = _ =>
        change (inv (fun g _ => gyro_watchdog_start_nanos g = t) (fst r) (snd r))
    end.
    apply inv_pair. intros g' st'. walk.
  - match goal with
    | |- stillness_win_endtime_nanos (fst ?r) = ?E =>
        change (inv (fun g _ => stillness_win_endtime_nanos g = E) (fst r) (snd r))
    end.
    apply inv_pair. intros g' st'. walk.
Qed.

(** X6: a processed window re-arms both timers.  When, after the watchdog
    check, every detector in use has a window ready, [deviceStillnessCheck]
    leaves the watchdog start at the sample time and the window end-time one
    window duration after it (modulo 2^64), on every path through the
    stillness decision. *)
Theorem processed_window_rearms (gc : GyroCal) (st : Statics.t) (t : Z) :
  window_pending (fst (checkWatchdog gyroStillDetReset gc st t)) = false ->
  let g' := fst (deviceStillnessCheck gyroStillDetCompute gyroStillDetReset gc st t) in
  gyro_watchdog_start_nanos g' = t /\
  stillness_win_endtime_nanos g' = u64 (t + window_time_duration_nanos gc).
Proof. exact (processed_window_fields gc st t). Qed.


(** What [computeGyroCal] publishes. *)
Definition calibration (g : GyroCal) :=
  (bias_x g, bias_y g, bias_z g, bias_temperature_celsius g,
   calibration_time_nanos g, new_gyro_cal_available g).

Lemma no_commit_weaken (c : GyroCal) (g : GyroCal) (st : Statics.t) :
  inv (fun g _ => calibration g = calibration c) g st ->
  inv (fun g _ => prev_still g = true -> calibration g = calibration c) g st.
Proof. unfold inv. auto. Qed.

Ltac finish_stillness :=
  intros [= <- <-];
  first
    [ solve [ apply no_commit_weaken; inv_solve ]
    | try peel;
      lazymatch goal with
      | |- inv _ (set_prev_still false ?g) _ =>
          generalize g; let g0 := fresh "g" in
          intros g0; destruct g0; unfold inv; cbn; discriminate
      end ].

(** X7: a calibration ends the stillness period it was computed from.  An
    update that leaves [prev_still] set has published nothing: bias, bias
    temperature, calibration time and the new-calibration flag are as they
    were before the call. *)
Theorem continuing_stillness_commits_nothing (gc : GyroCal) (st : Statics.t)
  (s : Sample) :
  let g' := fst (feed (gc, st) s) in
  prev_still g' = true -> calibration g' = calibration gc.
Proof.
  cbv zeta.
  match goal with
  | |- prev_still (fst ?r) = true -> _ =>
      change (inv (fun g _ => prev_still g = true -> calibration g = calibration gc)
                (fst r) (snd r))
  end.
  assert (H : inv (fun g _ => calibration g = calibration gc) gc st) by reflexivity.
  apply inv_pair. intros g' st'.
  destruct s as [t x y z temp | t x y z | t x y z]; cbn [feed fst snd];
    unfold gyroCalUpdateGyro, gyroCalUpdateMag, gyroCalUpdateAccel,
      deviceStillnessCheck, checkWatchdog.
  all: walk_calls (fun (g : GyroCal) (_ : Statics.t) => calibration g = calibration gc).
  all: finish_stillness.
Qed.

(** X13: a disabled calibrator never reports a bias: whatever samples it has
    been fed, [gyroCalNewBiasAvailable] returns false. *)
Theorem disabled_never_reports (samples : list Sample) (gc : GyroCal)
  (st : Statics.t) :
  gyro_calibration_enable gc = false ->
  fst (gyroCalNewBiasAvailable
         (fst (feed_all samples (gc, st)))) = false.
Proof.
  intros Hen.
  pose proof (feed_all_configuration samples gc st) as Hc.
  unfold configuration in Hc. injection Hc as _ _ _ _ _ _ _ He.
  unfold gyroCalNewBiasAvailable. cbn [fst]. rewrite He, Hen. reflexivity.
Qed.

End Updates.

Section Arming.

Variable gyroStillDetUpdate :
  StillDet.GyroStillDet -> Z -> Z -> float -> float -> float -> StillDet.GyroStillDet.
Variable gyroStillDetCompute : StillDet.GyroStillDet -> StillDet.GyroStillDet.
Variable gyroStillDetReset : StillDet.GyroStillDet -> bool -> StillDet.GyroStillDet.

Lemma temperature_update_keeps_state (g : GyroCal) (st : Statics.t) (x : float) :
  snd (fst (gyroTemperatureStatsTracker g st x DO_UPDATE_DATA)) = g.
Proof. destruct st. reflexivity. Qed.

(** X8: the first gyro sample arms the window and the watchdog.  On a state
    whose window end-time is not set, [gyroCalUpdateGyro] at sample time [t]
    leaves the end-time at [t] plus the window duration (modulo 2^64) and the
    watchdog start at [t], whether or not the sample completes a window,
    provided the watchdog deadline [timeout + t] does not wrap below [t]. *)
Theorem first_gyro_sample_arms (gc : GyroCal) (st : Statics.t) (t : Z)
  (x y z temperature_celsius : float) :
  stillness_win_endtime_nanos gc <= 0 ->
  t <= u64 (gyro_watchdog_timeout_duration_nanos gc + t) ->
  let g' := fst (gyroCalUpdateGyro gyroStillDetUpdate gyroStillDetCompute
                   gyroStillDetReset gc st t x y z temperature_celsius) in
  stillness_win_endtime_nanos g' = u64 (t + window_time_duration_nanos gc) /\
  gyro_watchdog_start_nanos g' = t.
Proof.
  intros Hend Hdue. cbv zeta. unfold gyroCalUpdateGyro.
  apply Z.leb_le in Hend. rewrite Hend.
  set (armed := set_gyro_watchdog_start_nanos t
                  (set_stillness_win_endtime_nanos
                     (u64 (t + window_time_duration_nanos gc)) gc)).
  assert (Hst : exists st1,
             (if gtb (NANO_ABS (sub temperature_celsius
                                  (Statics.latest_temperature_celsius st))) FLT_MIN
              then
                let '(_, gyro_cal, st0) :=
                  gyroTemperatureStatsTracker armed st temperature_celsius
                    DO_UPDATE_DATA in (gyro_cal, st0)
              else (armed, st)) = (armed, st1)).
  { destruct (gtb _ FLT_MIN).
    - pose proof (temperature_update_keeps_state armed st temperature_celsius) as Hk.
      destruct (gyroTemperatureStatsTracker armed st temperature_celsius DO_UPDATE_DATA)
        as [[b g1] s1].
      cbn [fst snd] in Hk. subst g1. now exists s1.
    - now exists st. }
  destruct Hst as [st1 ->].
  set (g2 := set_gyro_stillness_detect _ armed).
  assert (Hfields : stillness_win_endtime_nanos g2 = u64 (t + window_time_duration_nanos gc) /\
                    gyro_watchdog_start_nanos g2 = t /\
                    gyro_watchdog_timeout_duration_nanos g2 =
                      gyro_watchdog_timeout_duration_nanos gc /\
                    window_time_duration_nanos g2 = window_time_duration_nanos gc).
  { subst g2 armed. destruct gc; cbn. repeat split. }
  destruct Hfields as (He & Hw & Hto & Hwin).
  assert (Hq : watchdog_quiet g2 t).
  { right. rewrite Hto, Hw. exact Hdue. }
  destruct (window_pending g2) eqn:Hp.
  - rewrite (stillness_check_pending gyroStillDetCompute gyroStillDetReset g2 st1 t Hq Hp).
    cbn [fst]. split; assumption.
  - pose proof (checkWatchdog_quiet gyroStillDetReset g2 st1 t Hq) as Hcw.
    destruct (processed_window_fields gyroStillDetCompute gyroStillDetReset g2 st1 t)
      as [H1 H2].
    + rewrite Hcw. exact Hp.
    + rewrite H1, H2, Hwin. split; reflexivity.
Qed.

End Arming.

(** *** Trackers *)

Lemma nothing_above_reset_spread (lim : float) :
  gtb (sub FLT_LOWEST_INIT FLT_MAX) lim = false.
Proof.
  assert (H : sub FLT_LOWEST_INIT FLT_MAX = S754_infinity true)
    by (vm_compute; reflexivity).
  rewrite H. destruct lim as [ [ | ] | [ | ] | | [ | ] m e]; reflexivity.
Qed.

(** X10: after a reset neither gate fires.  With the trackers' statics as
    [DO_RESET] leaves them, [DO_EVALUATE] of the mean tracker and of the
    temperature tracker return false for every limit (negative and NaN
    included), and [DO_STORE_DATA] of the temperature tracker leaves the
    calibration state as it is. *)
Theorem trackers_quiet_after_reset (g0 g1 g : GyroCal) (st : Statics.t) (x : float) :
  let st1 := snd (gyroStillMeanTracker g0 st DO_RESET) in
  let st2 := snd (gyroTemperatureStatsTracker g1 st1 x DO_RESET) in
  fst (fst (gyroStillMeanTracker g st2 DO_EVALUATE)) = false /\
  fst (fst (gyroTemperatureStatsTracker g st2 x DO_EVALUATE)) = false /\
  snd (fst (gyroTemperatureStatsTracker g st2 x DO_STORE_DATA)) = g.
Proof.
  destruct st as [macc stmm n wmin wmax latest].
  cbn [gyroStillMeanTracker gyroTemperatureStatsTracker fst snd Z.ltb Z.compare].
  rewrite !nothing_above_reset_spread. repeat split.
Qed.

(** *** Bias accessors *)

Lemma sub_zero (x : float) : sub x zero = x.
Proof. destruct x as [ [ | ] | [ | ] | | [ | ] m e]; reflexivity. Qed.

(** X11: with calibration enabled and a bias of +0.0 on every axis,
    [gyroCalRemoveBias] returns every sample as it came: finite values,
    infinities and negative zero keep sign and value, and NaN stays NaN. *)
Theorem remove_zero_bias_is_identity (gc : GyroCal) (xi yi zi : float)
  (out : float * float * float) :
  gyro_calibration_enable gc = true ->
  (bias_x gc, bias_y gc, bias_z gc) = (zero, zero, zero) ->
  gyroCalRemoveBias gc xi yi zi out = (xi, yi, zi).
Proof.
  intros Hen [= Hx Hy Hz]. unfold gyroCalRemoveBias.
  rewrite Hen, Hx, Hy, Hz, !sub_zero. reflexivity.
Qed.

(** X12: a committed calibration is reported once.  When calibration is
    enabled and the gyro window means pass the range test, after
    [computeGyroCal] the first [gyroCalNewBiasAvailable] returns true, the
    second false, and [gyroCalGetBias] returns the window means with the mean
    temperature of the stillness period. *)
Theorem new_bias_is_reported_once (gc : GyroCal) (t : Z) :
  gyro_calibration_enable gc = true ->
  bias_acceptable (gyro_stillness_detect gc) = true ->
  let g1 := computeGyroCal gc t in
  let g2 := snd (gyroCalNewBiasAvailable g1) in
  fst (gyroCalNewBiasAvailable g1) = true /\
  fst (gyroCalNewBiasAvailable g2) = false /\
  gyroCalGetBias g2 =
    (StillDet.prev_mean_x (gyro_stillness_detect gc),
     StillDet.prev_mean_y (gyro_stillness_detect gc),
     StillDet.prev_mean_z (gyro_stillness_detect gc),
     temperature_mean_celsius gc) /\
  calibration_time_nanos g2 = t.
Proof.
  intros Hen Hacc. cbv zeta. rewrite computeGyroCal_eq, Hacc.
  unfold committed, gyroCalNewBiasAvailable, gyroCalGetBias.
  destruct gc; cbn in Hen |- *. rewrite Hen, andb_false_r. repeat split.
Qed.

(** *** Initialisation *)

(** X9: what [gyroCalInit] establishes.  The calibrator reports the bias and
    calibration time it was given, with bias temperature +0.0 and no new
    calibration pending; its parameters are the arguments, the watchdog
    timeout being twice the window duration (modulo 2^64); the window and the
    watchdog are unarmed, so that the watchdog check does nothing at any sample
    time; and neither tracker gate fires. *)
Theorem gyroCalInit_establishes
  (gyroStillDetInit : StillDet.GyroStillDet -> float -> float -> StillDet.GyroStillDet)
  (gyroStillDetReset : StillDet.GyroStillDet -> bool -> StillDet.GyroStillDet)
  (det_words : nat) (st : Statics.t) (dmin dmax : Z) (bx by_ bz : float)
  (ctime window : Z) (gv gd av ad mv md thr mlim tlim : float) (enable : bool) :
  let r := gyroCalInit gyroStillDetInit det_words st dmin dmax bx by_ bz ctime window
             gv gd av ad mv md thr mlim tlim enable in
  let g := fst r in
  gyroCalGetBias g = (bx, by_, bz, zero) /\
  calibration_time_nanos g = ctime /\
  fst (gyroCalNewBiasAvailable g) = false /\
  configuration g = (dmin, dmax, window, u64 (2 * window), thr, mlim, tlim, enable) /\
  (prev_still g, using_mag_sensor g, gyro_watchdog_timeout g) = (false, false, false) /\
  (stillness_win_endtime_nanos g, gyro_watchdog_start_nanos g) = (0, 0) /\
  (forall t, checkWatchdog gyroStillDetReset g (snd r) t = r) /\
  fst (fst (gyroStillMeanTracker g (snd r) DO_EVALUATE)) = false /\
  fst (fst (gyroTemperatureStatsTracker g (snd r) zero DO_EVALUATE)) = false.
Proof.
  cbv zeta. destruct st as [macc stmm n wmin wmax latest].
  unfold gyroCalInit, zeroed.
  cbn [gyroStillMeanTracker gyroTemperatureStatsTracker fst snd].
  unfold gyroCalGetBias, gyroCalNewBiasAvailable, configuration, checkWatchdog.
  cbn [bias_x bias_y bias_z bias_temperature_celsius calibration_time_nanos
       gyro_calibration_enable new_gyro_cal_available fst snd
       min_still_duration_nanos max_still_duration_nanos window_time_duration_nanos
       gyro_watchdog_timeout_duration_nanos stillness_threshold
       stillness_mean_delta_limit temperature_delta_limit_celsius prev_still
       using_mag_sensor gyro_watchdog_timeout stillness_win_endtime_nanos
       gyro_watchdog_start_nanos Z.leb Z.compare Z.ltb].
  rewrite andb_false_r, !nothing_above_reset_spread.
  repeat split.
Qed.

(** *** Concrete runs *)

Definition stream : list Sample :=
  [AccelSample 3000 zero zero zero; GyroSample 4000 zero zero zero zero;
   MagSample 5000 zero zero zero].

Lemma watchdog_flag_is_sticky_witness :
  gyro_watchdog_timeout GyroScenes.gc_flagged = true /\
  gyro_watchdog_timeout
    (fst (feed_all GyroScenes.update_keep GyroScenes.compute_keep Examples.reset_flag
            stream (GyroScenes.gc_flagged, Statics.init))) = true.
Proof.
  split; [ reflexivity | ].
  apply watchdog_flag_is_sticky. reflexivity.
Defined.

Lemma bias_stays_bounded_witness :
  bias_bounded GyroScenes.gc_window_ready /\
  bias_bounded
    (fst (feed_all GyroScenes.update_keep GyroScenes.compute_keep Examples.reset_flag
            stream (GyroScenes.gc_window_ready, Statics.init))).
Proof.
  assert (H : bias_bounded GyroScenes.gc_window_ready)
    by (repeat split; vm_compute; reflexivity).
  split; [ exact H | ].
  apply bias_stays_bounded. exact H.
Defined.

Lemma unfinished_window_changes_nothing_witness :
  watchdog_quiet Examples.gc0 5 /\
  gyroCalUpdateAccel GyroScenes.update_keep GyroScenes.compute_keep Examples.reset_flag
    Examples.gc0 Statics.init 5 zero zero zero
  = (set_accel_stillness_detect Examples.det0 Examples.gc0, Statics.init) /\
  gyroCalUpdateMag GyroScenes.update_keep GyroScenes.compute_keep Examples.reset_flag
    Examples.gc0 Statics.init 5 zero zero zero
  = (set_using_mag_sensor true (set_mag_stillness_detect Examples.det0 Examples.gc0),
     Statics.init).
Proof.
  assert (Hq : watchdog_quiet Examples.gc0 5) by (left; cbn; lia).
  destruct (unfinished_window_changes_nothing GyroScenes.update_keep
              GyroScenes.compute_keep Examples.reset_flag Examples.gc0 Statics.init 5
              zero zero zero Hq) as [Ha Hm].
  split; [ exact Hq | ].
  split; [ apply Ha; reflexivity | apply Hm; reflexivity ].
Defined.

Lemma processed_window_rearms_witness :
  window_pending
    (fst (checkWatchdog Examples.reset_flag GyroScenes.gc_window_ready Statics.init 3000))
  = false /\
  gyro_watchdog_start_nanos
    (fst (deviceStillnessCheck GyroScenes.compute_keep Examples.reset_flag
            GyroScenes.gc_window_ready Statics.init 3000)) = 3000 /\
  stillness_win_endtime_nanos
    (fst (deviceStillnessCheck GyroScenes.compute_keep Examples.reset_flag
            GyroScenes.gc_window_ready Statics.init 3000)) = 500003000.
Proof.
  assert (Hp : window_pending
                 (fst (checkWatchdog Examples.reset_flag GyroScenes.gc_window_ready
                         Statics.init 3000)) = false) by reflexivity.
  destruct (processed_window_rearms GyroScenes.compute_keep Examples.reset_flag
              GyroScenes.gc_window_ready Statics.init 3000 Hp) as [H1 H2].
  split; [ exact Hp | ].
  split; [ exact H1 | ]. rewrite H2. reflexivity.
Defined.

Lemma continuing_stillness_commits_nothing_witness :
  prev_still
    (fst (feed GyroScenes.update_keep GyroScenes.compute_keep Examples.reset_flag
            (GyroScenes.gc_window_ready, Statics.init) (AccelSample 3000 zero zero zero)))
  = true /\
  calibration
    (fst (feed GyroScenes.update_keep GyroScenes.compute_keep Examples.reset_flag
            (GyroScenes.gc_window_ready, Statics.init) (AccelSample 3000 zero zero zero)))
  = calibration GyroScenes.gc_window_ready.
Proof.
  assert (Hs : prev_still
                 (fst (feed GyroScenes.update_keep GyroScenes.compute_keep
                         Examples.reset_flag (GyroScenes.gc_window_ready, Statics.init)
                         (AccelSample 3000 zero zero zero))) = true)
    by (vm_compute; reflexivity).
  split; [ exact Hs | ].
  apply (continuing_stillness_commits_nothing GyroScenes.update_keep
           GyroScenes.compute_keep Examples.reset_flag GyroScenes.gc_window_ready
           Statics.init (AccelSample 3000 zero zero zero) Hs).
Defined.

Lemma first_gyro_sample_arms_witness :
  (stillness_win_endtime_nanos Examples.gc_disabled <= 0 /\
   1000 <= u64 (gyro_watchdog_timeout_duration_nanos Examples.gc_disabled + 1000)) /\
  stillness_win_endtime_nanos
    (fst (gyroCalUpdateGyro GyroScenes.update_keep GyroScenes.compute_keep
            Examples.reset_flag Examples.gc_disabled Statics.init 1000
            zero zero zero Examples.f_half)) = 1000 /\
  gyro_watchdog_start_nanos
    (fst (gyroCalUpdateGyro GyroScenes.update_keep GyroScenes.compute_keep
            Examples.reset_flag Examples.gc_disabled Statics.init 1000
            zero zero zero Examples.f_half)) = 1000.
Proof.
  assert (H1 : stillness_win_endtime_nanos Examples.gc_disabled <= 0) by (cbn; lia).
  assert (H2 : 1000 <= u64 (gyro_watchdog_timeout_duration_nanos Examples.gc_disabled
                            + 1000)) by (vm_compute; discriminate).
  destruct (first_gyro_sample_arms GyroScenes.update_keep GyroScenes.compute_keep
              Examples.reset_flag Examples.gc_disabled Statics.init 1000
              zero zero zero Examples.f_half H1 H2) as [He Hw].
  split; [ split; assumption | ].
  split; [ rewrite He; reflexivity | exact Hw ].
Defined.

Lemma remove_zero_bias_is_identity_witness :
  (gyro_calibration_enable GyroScenes.gc_window_ready = true /\
   (bias_x GyroScenes.gc_window_ready, bias_y GyroScenes.gc_window_ready,
    bias_z GyroScenes.gc_window_ready) = (zero, zero, zero)) /\
  gyroCalRemoveBias GyroScenes.gc_window_ready Examples.f_half Examples.f_m0_002
    (S754_zero true) (one, one, one)
  = (Examples.f_half, Examples.f_m0_002, S754_zero true).
Proof.
  split; [ split; reflexivity | ].
  apply remove_zero_bias_is_identity; reflexivity.
Defined.

Lemma new_bias_is_reported_once_witness :
  (gyro_calibration_enable
     (set_gyro_stillness_detect Examples.det_small_means GyroScenes.gc_window_ready)
   = true /\
   bias_acceptable
     (gyro_stillness_detect
        (set_gyro_stillness_detect Examples.det_small_means GyroScenes.gc_window_ready))
   = true) /\
  fst (gyroCalNewBiasAvailable
         (computeGyroCal
            (set_gyro_stillness_detect Examples.det_small_means
               GyroScenes.gc_window_ready) 3000)) = true /\
  fst (gyroCalNewBiasAvailable
         (snd (gyroCalNewBiasAvailable
                 (computeGyroCal
                    (set_gyro_stillness_detect Examples.det_small_means
                       GyroScenes.gc_window_ready) 3000)))) = false.
Proof.
  assert (H1 : gyro_calibration_enable
                 (set_gyro_stillness_detect Examples.det_small_means
                    GyroScenes.gc_window_ready) = true) by reflexivity.
  assert (H2 : bias_acceptable
                 (gyro_stillness_detect
                    (set_gyro_stillness_detect Examples.det_small_means
                       GyroScenes.gc_window_ready)) = true)
    by (vm_compute; reflexivity).
  destruct (new_bias_is_reported_once
              (set_gyro_stillness_detect Examples.det_small_means
                 GyroScenes.gc_window_ready) 3000 H1 H2) as (Ha & Hb & _).
  split; [ split; assumption | ].
  split; assumption.
Defined.

Lemma disabled_never_reports_witness :
  gyro_calibration_enable Examples.gc0 = false /\
  fst (gyroCalNewBiasAvailable
         (fst (feed_all GyroScenes.update_keep GyroScenes.compute_keep
                 Examples.reset_flag stream (Examples.gc0, Statics.init)))) = false.
Proof.
  split; [ reflexivity | ].
  apply disabled_never_reports. reflexivity.
Defined.

End GyroUpdateFacts.

(** * Further properties of seos.c: producers, delivery, deferred calls *)

Module KernelFacts.

Import Seos SeosFacts SubscriptionFacts DispatchFacts SubscribeCallFacts.

(** ** What code entered from the kernel can change

    Apps and callbacks reach the kernel through the calls of [Syscall]; these
    queue events, take slab items and retain the current event.  They leave
    the task table, the tid counter and the heap alone, and the only trace
    entries they add record [osRetainCurrentEvent]. *)

Definition is_retain (ev : TraceEv) : Prop :=
  match ev with TrRetain _ _ => True | _ => False end.

Definition calls_only (k k' : Kernel) : Prop :=
  mTasks k' = mTasks k /\ mTaskCnt k' = mTaskCnt k /\
  mNextTidInfo k' = mNextTidInfo k /\ heap k' = heap k /\
  exists tr, trace k' = trace k ++ tr /\ Forall is_retain tr.

Lemma calls_only_refl (k : Kernel) : calls_only k k.
Proof.
  repeat split. exists []. split; [ now rewrite app_nil_r | constructor ].
Qed.

Lemma calls_only_trans (k1 k2 k3 : Kernel) :
  calls_only k1 k2 -> calls_only k2 k3 -> calls_only k1 k3.
Proof.
  intros (A1 & B1 & C1 & D1 & tr1 & E1 & F1) (A2 & B2 & C2 & D2 & tr2 & E2 & F2).
  repeat split; try congruence.
  exists (tr1 ++ tr2). split.
  - rewrite E2, E1, app_assoc. reflexivity.
  - apply Forall_app. split; assumption.
Qed.

Lemma calls_only_same (k k' : Kernel) :
  mTasks k' = mTasks k -> mTaskCnt k' = mTaskCnt k ->
  mNextTidInfo k' = mNextTidInfo k -> heap k' = heap k -> trace k' = trace k ->
  calls_only k k'.
Proof.
  intros A B C D E. repeat split; try assumption.
  exists []. split; [ now rewrite app_nil_r | constructor ].
Qed.

Ltac case_slab :=
  match goal with
  | |- context [0 <? ?sl] => destruct (0 <? sl)
  end; cbv beta iota.

Ltac case_enqueue :=
  match goal with
  | |- context [evtQueueEnqueue ?P ?q ?e ?u] => destruct (evtQueueEnqueue P q e u)
  end; cbn [negb andb fst snd set_mEvtsInternal set_slab_avail slab_avail].

Section WithPlatform.

Variable P : Platform.

Lemma osEnqueueEvt_calls_only (ty : Z) (d : EvtData) (fn : Z) (k : Kernel) :
  calls_only k (snd (osEnqueueEvt P ty d fn k)).
Proof.
  unfold osEnqueueEvt. destruct (evtQueueEnqueue P _ _ false); cbn [snd].
  - destruct k; now apply calls_only_same.
  - apply calls_only_refl.
Qed.

Lemma osEventSubscribeUnsubscribe_calls_only (tid evt : Z) (sub : bool) (k : Kernel) :
  calls_only k (snd (osEventSubscribeUnsubscribe P tid evt sub k)).
Proof.
  unfold osEventSubscribeUnsubscribe, slabAllocatorAlloc,
    osEnqueueEvtOrFree_internal, osEnqueueEvt, slabAllocatorFree.
  destruct k as [ts n nt cur q sl h tr]. cbn [slab_avail set_slab_avail mEvtsInternal].
  case_slab; [ | apply calls_only_refl ].
  case_enqueue.
  - now apply calls_only_same.
  - destruct (negb (osDeferredActionFreeF P =? 0)); now apply calls_only_same.
Qed.

Lemma syscall_calls_only (c : Syscall) (k : Kernel) : calls_only k (syscall P c k).
Proof.
  destruct c as [ | tid evt | tid evt | ty d fn ]; cbn [syscall].
  - unfold osRetainCurrentEvent.
    destruct k as [ts n nt [info | ] q sl h tr]; cbn;
      (repeat split; eexists; split; [ reflexivity | repeat constructor ]).
  - apply osEventSubscribeUnsubscribe_calls_only.
  - apply osEventSubscribeUnsubscribe_calls_only.
  - apply osEnqueueEvt_calls_only.
Qed.

Lemma run_calls_only (code : list Syscall) : forall k, calls_only k (run P code k).
Proof.
  unfold run. induction code as [ | c code IH]; intros k; cbn [fold_left].
  - apply calls_only_refl.
  - eapply calls_only_trans; [ apply syscall_calls_only | apply IH ].
Qed.

(** *** Producer calls that fail *)

(** X14: a producer call that fails has no effect.  When [osEventSubscribe],
    [osEventUnsubscribe], [osEnqueuePrivateEvt], [osEnqueuePrivateEvtAsApp]
    or [osDefer] returns false, the slab item it took has been given back
    and the kernel state is exactly what it was; when it returns true, one
    slab item is in use for the action. *)
Theorem failed_producer_call_has_no_effect (k : Kernel) :
  osDeferredActionFreeF P <> 0 ->
  (forall tid evt sub,
     let r := osEventSubscribeUnsubscribe P tid evt sub k in
     (fst r = false -> snd r = k) /\
     (fst r = true -> slab_avail (snd r) = slab_avail k - 1)) /\
  (forall ty d info toTid,
     let r := osEnqueuePrivateEvtEx P ty d info toTid k in
     (fst r = false -> snd r = k) /\
     (fst r = true -> slab_avail (snd r) = slab_avail k - 1)) /\
  (forall callback cookie urgent,
     let r := osDefer P callback cookie urgent k in
     (fst r = false -> snd r = k) /\
     (fst r = true -> slab_avail (snd r) = slab_avail k - 1)).
Proof.
  intros Hfn. apply Z.eqb_neq in Hfn.
  destruct k as [ts n nt cur q sl h tr].
  assert (Hback : sl - 1 + 1 = sl) by lia.
  split; [ | split ].
  - intros tid evt sub. cbv zeta.
    unfold osEventSubscribeUnsubscribe, slabAllocatorAlloc,
      osEnqueueEvtOrFree_internal, osEnqueueEvt, slabAllocatorFree.
    cbn [slab_avail set_slab_avail mEvtsInternal]. rewrite Hfn.
    case_slab; [ | split; [ reflexivity | discriminate ] ].
    case_enqueue.
    + split; [ discriminate | reflexivity ].
    + rewrite Hback. split; [ reflexivity | discriminate ].
  - intros ty d info toTid. cbv zeta.
    unfold osEnqueuePrivateEvtEx, slabAllocatorAlloc,
      osEnqueueEvtOrFree_internal, osEnqueueEvt, slabAllocatorFree.
    cbn [slab_avail set_slab_avail mEvtsInternal]. rewrite Hfn.
    case_slab; [ | split; [ reflexivity | discriminate ] ].
    case_enqueue.
    + split; [ discriminate | reflexivity ].
    + rewrite Hback. split; [ reflexivity | discriminate ].
  - intros callback cookie urgent. cbv zeta.
    unfold osDefer, slabAllocatorAlloc, slabAllocatorFree.
    cbn [slab_avail set_slab_avail mEvtsInternal].
    case_slab; [ | split; [ reflexivity | discriminate ] ].
    case_enqueue.
    + split; [ discriminate | reflexivity ].
    + rewrite Hback. split; [ reflexivity | discriminate ].
Qed.


(** *** Delivery to subscribers *)

(** The test the loop makes of a slot: a real task one of whose first
    [subbedEvtCount] entries is the event type. *)
Definition wants (ty : Z) (t : Task) : bool :=
  match subbedEvents t with
  | SubNull => false
  | _ => negb (sub_index t ty =? subbedEvtCount t)
  end.

(** The app entries a delivery of ([ty], [d]) to [tasks] makes. *)
Definition deliveries (ty : Z) (d : EvtData) (tasks : list Task) : list TraceEv :=
  map (fun t => TrAppHandle (tid t) ty (ArgData d)) (filter (wants ty) tasks).

Definition app_entry (ev : TraceEv) : bool :=
  match ev with TrAppHandle _ _ _ => true | _ => false end.

(** The entries into apps a trace records. *)
Definition entries (tr : list TraceEv) : list TraceEv := filter app_entry tr.

Lemma entries_app (a b : list TraceEv) : entries (a ++ b) = entries a ++ entries b.
Proof. apply filter_app. Qed.

Lemma entries_retain (tr : list TraceEv) : Forall is_retain tr -> entries tr = [].
Proof.
  induction 1 as [ | ev tr Hev _ IH]; [ reflexivity | ].
  destruct ev; try contradiction. exact IH.
Qed.

(** [k'] has the registry of [k], and its trace is that of [k] with the app
    entries [es] added. *)
Definition delivered (es : list TraceEv) (k k' : Kernel) : Prop :=
  mTasks k' = mTasks k /\ mTaskCnt k' = mTaskCnt k /\
  entries (trace k') = entries (trace k) ++ es.

Lemma delivered_refl (k : Kernel) : delivered [] k k.
Proof. repeat split. now rewrite app_nil_r. Qed.

Lemma delivered_trans (e1 e2 : list TraceEv) (k1 k2 k3 : Kernel) :
  delivered e1 k1 k2 -> delivered e2 k2 k3 -> delivered (e1 ++ e2) k1 k3.
Proof.
  intros (A1 & B1 & C1) (A2 & B2 & C2).
  repeat split; try congruence. rewrite C2, C1, app_assoc. reflexivity.
Qed.

Lemma calls_only_delivered (k k' : Kernel) : calls_only k k' -> delivered [] k k'.
Proof.
  intros (A & B & _ & _ & tr & E & F). repeat split; try assumption.
  rewrite E, entries_app, (entries_retain tr F). reflexivity.
Qed.

Lemma cpuAppHandle_delivered (t : Task) (ty : Z) (arg : HandlerArg) (k : Kernel) :
  delivered [TrAppHandle (tid t) ty arg] k (cpuAppHandle P t ty arg k).
Proof.
  unfold cpuAppHandle.
  apply (delivered_trans [TrAppHandle (tid t) ty arg] [] k
           (emit (TrAppHandle (tid t) ty arg) k)).
  - destruct k as [ts n nt cur q sl h tr]. repeat split. cbn.
    rewrite entries_app. reflexivity.
  - apply calls_only_delivered, run_calls_only.
Qed.

Lemma deliver_to_slot_delivered (i ty : Z) (d : EvtData) (k : Kernel) (t : Task) :
  task_at k i = Some t ->
  delivered (deliveries (clear_discardable ty) d [t]) k (deliver_to_slot P i ty d k).
Proof.
  intros Hat. unfold deliver_to_slot, deliveries, wants. rewrite Hat. cbn [filter].
  destruct (subbedEvents t); [ apply delivered_refl | | ];
    (destruct (sub_index t (clear_discardable ty) =? subbedEvtCount t); cbn [negb map];
     [ apply delivered_refl | apply cpuAppHandle_delivered ]).
Qed.

Lemma deliveries_app (ty : Z) (d : EvtData) (a b : list Task) :
  deliveries ty d (a ++ b) = deliveries ty d a ++ deliveries ty d b.
Proof. unfold deliveries. now rewrite filter_app, map_app. Qed.

Lemma deliver_from_delivered (ty : Z) (d : EvtData) (n : nat) :
  forall (j : nat) (k : Kernel),
    0 <= mTaskCnt k <= Z.of_nat (length (mTasks k)) ->
    (Z.to_nat (mTaskCnt k) <= j + n)%nat ->
    delivered
      (deliveries (clear_discardable ty) d
         (skipn j (firstn (Z.to_nat (mTaskCnt k)) (mTasks k))))
      k (deliver_from P n (Z.of_nat j) ty d k).
Proof.
  induction n as [ | n IH]; intros j k Hc Hn; cbn [deliver_from].
  - rewrite skipn_all2 by (rewrite length_firstn; lia). apply delivered_refl.
  - destruct (Z.ltb_spec (Z.of_nat j) (mTaskCnt k)) as [Hlt | Hge].
    + assert (Hj : (j < length (mTasks k))%nat) by lia.
      destruct (nth_error (mTasks k) j) as [t | ] eqn:Ht;
        [ | apply nth_error_None in Ht; lia ].
      assert (Hat : task_at k (Z.of_nat j) = Some t)
        by (unfold task_at; now rewrite Nat2Z.id).
      pose proof (deliver_to_slot_delivered (Z.of_nat j) ty d k t Hat) as Hd.
      pose proof Hd as (A & B & C).
      assert (Hsplit : skipn j (firstn (Z.to_nat (mTaskCnt k)) (mTasks k)) =
                       t :: skipn (S j) (firstn (Z.to_nat (mTaskCnt k)) (mTasks k))).
      { assert (Hnth : nth_error (firstn (Z.to_nat (mTaskCnt k)) (mTasks k)) j = Some t)
          by (rewrite nth_error_firstn;
              replace (j <? Z.to_nat (mTaskCnt k))%nat with true
                by (symmetry; apply Nat.ltb_lt; lia);
              exact Ht).
        clear - Hnth. revert j Hnth.
        induction (firstn (Z.to_nat (mTaskCnt k)) (mTasks k)) as [ | a l IHl];
          intros [ | j] Hnth; cbn in *; try discriminate.
        - now injection Hnth as ->.
        - now apply IHl. }
      rewrite Hsplit.
      change (t :: ?l) with ([t] ++ l). rewrite deliveries_app.
      apply (delivered_trans _ _ k (deliver_to_slot P (Z.of_nat j) ty d k));
        [ exact Hd | ].
      replace (Z.of_nat j + 1) with (Z.of_nat (S j)) by lia.
      specialize (IH (S j) (deliver_to_slot P (Z.of_nat j) ty d k)).
      rewrite A, B in IH. apply IH; [ exact Hc | lia ].
    + rewrite skipn_all2 by (rewrite length_firstn; lia). apply delivered_refl.
Qed.

Lemma wants_iff_subscribed (ty : Z) (t : Task) :
  count_fits t ->
  wants ty t = true <-> subbedEvents t <> SubNull /\ In ty (subscriptions t).
Proof.
  intros Hfit. unfold wants. split.
  - intros Hw.
    assert (Hnn : subbedEvents t <> SubNull)
      by (destruct (subbedEvents t); [ discriminate | | ]; discriminate).
    split; [ exact Hnn | ].
    destruct (in_dec Z.eq_dec ty (subscriptions t)) as [Hin | Hnin]; [ exact Hin | ].
    rewrite (sub_index_absent t ty Hfit Hnin), Z.eqb_refl in Hw.
    destruct (subbedEvents t); discriminate.
  - intros [Hnn Hin].
    destruct (sub_index_found t ty Hfit Hin) as [Hidx _].
    replace (sub_index t ty =? subbedEvtCount t) with false
      by (symmetry; apply Z.eqb_neq; lia).
    destruct (subbedEvents t); [ contradiction | reflexivity | reflexivity ].
Qed.

Lemma deliver_delivered (e : Event) (k : Kernel) :
  EVT_NO_FIRST_USER_EVENT P <= evtType e ->
  0 <= mTaskCnt k <= Z.of_nat (length (mTasks k)) ->
  delivered
    (deliveries (clear_discardable (evtType e)) (evtData e)
       (firstn (Z.to_nat (mTaskCnt k)) (mTasks k)))
    k (deliver P e k).
Proof.
  intros Huser Hc. unfold deliver.
  apply Z.ltb_ge in Huser. rewrite Huser.
  set (k0 := set_mCurEvtEventFreeingInfo (Some (evtFreeingInfo e)) k).
  assert (H0 : mTasks k0 = mTasks k /\ mTaskCnt k0 = mTaskCnt k /\ trace k0 = trace k)
    by (subst k0; destruct k; repeat split).
  destruct H0 as (A & B & C).
  pose proof (deliver_from_delivered (evtType e) (evtData e) (length (mTasks k0)) 0 k0)
    as Hd.
  cbn [skipn Z.of_nat] in Hd.
  destruct Hd as (A' & B' & C'); [ rewrite A, B; exact Hc | rewrite A, B; lia | ].
  rewrite A, B, C in *. repeat split; assumption.
Qed.

(** X15: a broadcast event is handed, once, to every task subscribed to it
    when the delivery starts, in slot order and with the discardable bit
    cleared.  The apps entered can queue subscribes and other events
    meanwhile; none of that changes the task table, so it does not change who
    receives this event.  [wants] is the loop's own test; for a task whose
    count fits its buffer it says that the type is in the task's list. *)
Theorem broadcast_reaches_subscribers (e : Event) (k : Kernel) :
  EVT_NO_FIRST_USER_EVENT P <= evtType e ->
  0 <= mTaskCnt k <= Z.of_nat (length (mTasks k)) ->
  let k' := deliver P e k in
  mTasks k' = mTasks k /\ mTaskCnt k' = mTaskCnt k /\
  entries (trace k') =
    entries (trace k) ++
    deliveries (clear_discardable (evtType e)) (evtData e)
      (firstn (Z.to_nat (mTaskCnt k)) (mTasks k)) /\
  (forall ty t,
     count_fits t ->
     wants ty t = true <-> subbedEvents t <> SubNull /\ In ty (subscriptions t)).
Proof.
  intros Huser Hc. cbv zeta.
  destruct (deliver_delivered e k Huser Hc) as (A & B & C).
  split; [ exact A | split; [ exact B | split; [ exact C | ] ] ].
  intros ty t. apply wants_iff_subscribed.
Qed.

(** *** Deferred callbacks *)

(** The deferred callbacks a trace records, with their cookies. *)
Definition deferred_calls (tr : list TraceEv) : list (Z * Z) :=
  flat_map (fun ev => match ev with
                      | TrDeferred callback cookie => [(callback, cookie)]
                      | _ => []
                      end) tr.

Lemma deferred_calls_app (a b : list TraceEv) :
  deferred_calls (a ++ b) = deferred_calls a ++ deferred_calls b.
Proof. apply flat_map_app. Qed.

Lemma deferred_calls_retain (tr : list TraceEv) :
  Forall is_retain tr -> deferred_calls tr = [].
Proof.
  induction 1 as [ | ev tr Hev _ IH]; [ reflexivity | ].
  destruct ev; try contradiction. exact IH.
Qed.

(** [k'] has the registry of [k] and the same deferred calls on record. *)
Definition nothing_deferred (k k' : Kernel) : Prop :=
  mTasks k' = mTasks k /\ mTaskCnt k' = mTaskCnt k /\
  deferred_calls (trace k') = deferred_calls (trace k).

Lemma nothing_deferred_trans (k1 k2 k3 : Kernel) :
  nothing_deferred k1 k2 -> nothing_deferred k2 k3 -> nothing_deferred k1 k3.
Proof. intros (A1 & B1 & C1) (A2 & B2 & C2). repeat split; congruence. Qed.

Lemma calls_only_nothing_deferred (k k' : Kernel) :
  calls_only k k' -> nothing_deferred k k'.
Proof.
  intros (A & B & _ & _ & tr & E & F). repeat split; try assumption.
  rewrite E, deferred_calls_app, (deferred_calls_retain tr F). apply app_nil_r.
Qed.

Lemma emit_nothing_deferred (ev : TraceEv) (k : Kernel) :
  deferred_calls [ev] = [] -> nothing_deferred k (emit ev k).
Proof.
  intros H. destruct k as [ts n nt cur q sl h tr]. repeat split. cbn.
  rewrite deferred_calls_app, H. apply app_nil_r.
Qed.

Lemma set_slot_nothing_deferred (v : option TaggedPtr) (k : Kernel) :
  nothing_deferred k (set_mCurEvtEventFreeingInfo v k).
Proof. destruct k. repeat split. Qed.

Lemma cpuAppHandle_nothing_deferred (t : Task) (ty : Z) (arg : HandlerArg) (k : Kernel) :
  nothing_deferred k (cpuAppHandle P t ty arg k).
Proof.
  unfold cpuAppHandle. eapply nothing_deferred_trans.
  - apply (emit_nothing_deferred (TrAppHandle (tid t) ty arg)). reflexivity.
  - apply calls_only_nothing_deferred, run_calls_only.
Qed.

Lemma handleEventFreeing_nothing_deferred (ty : Z) (d : EvtData) (info : TaggedPtr)
  (k : Kernel) :
  nothing_deferred k (handleEventFreeing P ty d info k).
Proof.
  unfold handleEventFreeing.
  assert (H0 : nothing_deferred k (emit (TrFree ty d info) k))
    by (apply emit_nothing_deferred; reflexivity).
  destruct (_ || _); [ exact H0 | ].
  eapply nothing_deferred_trans; [ exact H0 | ].
  destruct (taggedPtrIsPtr info).
  - unfold callEventFreeF.
    eapply nothing_deferred_trans;
      [ apply (emit_nothing_deferred (TrCallFreeF (taggedPtrToPtr info) d)); reflexivity | ].
    destruct (_ =? _).
    + unfold slabAllocatorFree.
      destruct (emit (TrCallFreeF (taggedPtrToPtr info) d) (emit (TrFree ty d info) k)).
      repeat split.
    + apply calls_only_nothing_deferred, run_calls_only.
  - destruct (osTaskFindByTid _ _) as [i | ].
    + destruct (task_at _ i) as [t | ].
      * apply cpuAppHandle_nothing_deferred.
      * repeat split.
    + apply (emit_nothing_deferred TrLogError). reflexivity.
Qed.

(** X16: a deferred callback is called exactly once.  When the loop takes an
    [EVT_DEFERRED_CALLBACK] action off the queue it calls the callback with
    its cookie once; nothing the callback does, and nothing the freeing of the
    action does, calls it again or touches the task table. *)
Theorem deferred_callback_runs_once (callback cookie : Z) (w2 : TaggedPtr) (w3 : Z)
  (info : TaggedPtr) (k : Kernel) :
  EVT_DEFERRED_CALLBACK < EVT_NO_FIRST_USER_EVENT P ->
  let e := mkEvent EVT_DEFERRED_CALLBACK
             (DataThing (mkThing callback cookie w2 w3)) info in
  let k' := process_event P e k in
  deferred_calls (trace k') = deferred_calls (trace k) ++ [(callback, cookie)] /\
  mTasks k' = mTasks k /\ mTaskCnt k' = mTaskCnt k /\
  mCurEvtEventFreeingInfo k' = None.
Proof.
  intros Hint. cbv zeta. unfold process_event, release, deliver.
  cbn [evtType evtData evtFreeingInfo].
  apply Z.ltb_lt in Hint. rewrite Hint.
  unfold osInternalEvtHandle.
  change (EVT_DEFERRED_CALLBACK =? EVT_SUBSCRIBE_TO_EVT) with false.
  change (EVT_DEFERRED_CALLBACK =? EVT_UNSUBSCRIBE_TO_EVT) with false.
  change (EVT_DEFERRED_CALLBACK =? EVT_DEFERRED_CALLBACK) with true.
  cbn [orb deferred_callback deferred_cookie word0 word1].
  set (k0 := set_mCurEvtEventFreeingInfo (Some info) k).
  set (k1 := run P (deferCode P callback cookie) (emit (TrDeferred callback cookie) k0)).
  assert (H1 : mTasks k1 = mTasks k /\ mTaskCnt k1 = mTaskCnt k /\
               deferred_calls (trace k1) =
                 deferred_calls (trace k) ++ [(callback, cookie)]).
  { destruct (calls_only_nothing_deferred _ _
                (run_calls_only (deferCode P callback cookie)
                   (emit (TrDeferred callback cookie) k0))) as (A & B & C).
    fold k1 in A, B, C. rewrite A, B, C. subst k0.
    destruct k as [ts n nt cur q sl h tr]. cbn. rewrite deferred_calls_app.
    repeat split. }
  destruct H1 as (A & B & C).
  assert (H2 : forall k2, nothing_deferred k1 k2 ->
                 deferred_calls (trace (set_mCurEvtEventFreeingInfo None k2)) =
                   deferred_calls (trace k) ++ [(callback, cookie)] /\
                 mTasks (set_mCurEvtEventFreeingInfo None k2) = mTasks k /\
                 mTaskCnt (set_mCurEvtEventFreeingInfo None k2) = mTaskCnt k /\
                 mCurEvtEventFreeingInfo (set_mCurEvtEventFreeingInfo None k2) = None).
  { intros k2 (A2 & B2 & C2). destruct k2. cbn in *. repeat split; congruence. }
  apply H2. destruct (mCurEvtEventFreeingInfo k1).
  - apply handleEventFreeing_nothing_deferred.
  - repeat split.
Qed.

(** *** Subscribing through the queue *)

Lemma find_tid_from_zero (slots : list Task) (n : nat) :
  forall i, find_tid_from slots n i 0 = None.
Proof.
  revert slots. induction n as [ | n IH]; intros [ | s slots] i; cbn; try reflexivity.
  destruct (tid s =? 0); cbn; apply IH.
Qed.

(** The kernel's own actions are freed by giving their slab item back. *)
Lemma release_internal_action (ty : Z) (da : InternalThing) (k : Kernel)
  (info : TaggedPtr) :
  osDeferredActionFreeF P <> 0 ->
  mCurEvtEventFreeingInfo k = Some info ->
  let e := mkEvent ty (DataThing da) (TaggedFn (osDeferredActionFreeF P)) in
  let k' := release P e k in
  mTasks k' = mTasks k /\ mTaskCnt k' = mTaskCnt k /\ heap k' = heap k /\
  mEvtsInternal k' = mEvtsInternal k /\
  slab_avail k' = slab_avail k + 1 /\
  mCurEvtEventFreeingInfo k' = None.
Proof.
  intros Hfn Hslot. cbv zeta. unfold release. rewrite Hslot.
  cbn [evtType evtData evtFreeingInfo].
  unfold handleEventFreeing, callEventFreeF, slabAllocatorFree.
  cbn [taggedPtrIsPtr taggedPtrIsUint taggedPtrToPtr andb orb].
  apply Z.eqb_neq in Hfn. rewrite Hfn, Z.eqb_refl.
  destruct k as [ts n nt cur q sl h tr]. cbn. repeat split.
Qed.

(** X17: a subscribe or unsubscribe for a task that is not live is dropped.
    Tid 0 never names a task, and when the loop comes to an action whose tid
    it does not find, handling it changes nothing; the iteration's only effect
    is to free the action, which gives its slab item back. *)
Theorem subscribe_for_missing_task_is_dropped (k : Kernel) (sub : bool)
  (da : InternalThing) :
  (forall k0, osTaskFindByTid k0 0 = None) /\
  (osTaskFindByTid k (evtSub_tid da) = None ->
   osInternalEvtHandle P (act_type sub) (DataThing da) k = k /\
   (osDeferredActionFreeF P <> 0 ->
    act_type sub < EVT_NO_FIRST_USER_EVENT P ->
    let k' := process_event P
                (mkEvent (act_type sub) (DataThing da)
                   (TaggedFn (osDeferredActionFreeF P))) k in
    mTasks k' = mTasks k /\ mTaskCnt k' = mTaskCnt k /\ heap k' = heap k /\
    mEvtsInternal k' = mEvtsInternal k /\ slab_avail k' = slab_avail k + 1)).
Proof.
  split; [ intros k0; apply find_tid_from_zero | ].
  intros Hnone.
  assert (Hdrop : forall k1, osTaskFindByTid k1 (evtSub_tid da) = None ->
                    osInternalEvtHandle P (act_type sub) (DataThing da) k1 = k1).
  { intros k1 Hn. unfold osInternalEvtHandle.
    replace ((act_type sub =? EVT_SUBSCRIBE_TO_EVT)
             || (act_type sub =? EVT_UNSUBSCRIBE_TO_EVT)) with true
      by (destruct sub; reflexivity).
    now rewrite Hn. }
  split; [ now apply Hdrop | ].
  intros Hfn Hint. cbv zeta. unfold process_event, deliver.
  cbn [evtType evtData evtFreeingInfo].
  apply Z.ltb_lt in Hint. rewrite Hint.
  set (k1 := set_mCurEvtEventFreeingInfo (Some (TaggedFn (osDeferredActionFreeF P))) k).
  assert (H1 : osTaskFindByTid k1 (evtSub_tid da) = None) by (destruct k; exact Hnone).
  rewrite (Hdrop k1 H1).
  assert (Hslot : mCurEvtEventFreeingInfo k1 = Some (TaggedFn (osDeferredActionFreeF P)))
    by (destruct k; reflexivity).
  destruct (release_internal_action (act_type sub) da k1 _ Hfn Hslot)
    as (A & B & C & D & E & F).
  rewrite A, B, C, D, E. destruct k; repeat split.
Qed.


End WithPlatform.

(** *** Concrete runs *)

Lemma failed_producer_call_has_no_effect_witness :
  osDeferredActionFreeF Examples.plat <> 0 /\
  osDefer Examples.plat 77 9 false KernelScenes.k_no_slab
    = (false, KernelScenes.k_no_slab) /\
  slab_avail (snd (osDefer Examples.plat 77 9 false Examples.k_owner)) = 63.
Proof.
  assert (Hfn : osDeferredActionFreeF Examples.plat <> 0) by discriminate.
  split; [ exact Hfn | ].
  destruct (failed_producer_call_has_no_effect Examples.plat KernelScenes.k_no_slab Hfn)
    as (_ & _ & Hd).
  destruct (failed_producer_call_has_no_effect Examples.plat Examples.k_owner Hfn)
    as (_ & _ & Hd').
  split.
  - destruct (Hd 77 9 false) as [Hfail _].
    rewrite <- (Hfail eq_refl) at 2. reflexivity.
  - destruct (Hd' 77 9 false) as [_ Hok]. rewrite (Hok eq_refl). reflexivity.
Defined.

Lemma broadcast_reaches_subscribers_witness :
  (EVT_NO_FIRST_USER_EVENT KernelScenes.plat_busy <= evtType KernelScenes.ev_discardable /\
   0 <= mTaskCnt KernelScenes.k_three <= Z.of_nat (length (mTasks KernelScenes.k_three))) /\
  entries (trace (deliver KernelScenes.plat_busy KernelScenes.ev_discardable
                    KernelScenes.k_three))
  = [TrAppHandle 5 1024 (ArgData (DataPtr 4242));
     TrAppHandle 7 1024 (ArgData (DataPtr 4242))].
Proof.
  assert (H1 : EVT_NO_FIRST_USER_EVENT KernelScenes.plat_busy <=
               evtType KernelScenes.ev_discardable) by (vm_compute; discriminate).
  assert (H2 : 0 <= mTaskCnt KernelScenes.k_three <=
               Z.of_nat (length (mTasks KernelScenes.k_three)))
    by (vm_compute; split; discriminate).
  split; [ split; assumption | ].
  destruct (broadcast_reaches_subscribers KernelScenes.plat_busy
              KernelScenes.ev_discardable KernelScenes.k_three H1 H2)
    as (_ & _ & He & _).
  rewrite He. reflexivity.
Defined.

Lemma deferred_callback_runs_once_witness :
  EVT_DEFERRED_CALLBACK < EVT_NO_FIRST_USER_EVENT Examples.plat /\
  deferred_calls
    (trace (process_event Examples.plat
              (mkEvent EVT_DEFERRED_CALLBACK (DataThing (mkThing 77 9 (TaggedFn 0) 0))
                 (TaggedFn 4096)) Examples.k_owner))
  = [(77, 9)].
Proof.
  assert (H : EVT_DEFERRED_CALLBACK < EVT_NO_FIRST_USER_EVENT Examples.plat)
    by reflexivity.
  split; [ exact H | ].
  destruct (deferred_callback_runs_once Examples.plat 77 9 (TaggedFn 0) 0
              (TaggedFn 4096) Examples.k_owner H) as (Hd & _).
  rewrite Hd. reflexivity.
Defined.



Lemma subscribe_for_missing_task_is_dropped_witness :
  osTaskFindByTid Examples.k_owner 9 = None /\
  osInternalEvtHandle Examples.plat EVT_SUBSCRIBE_TO_EVT
    (DataThing (mkThing 9 1024 (TaggedFn 0) 0)) Examples.k_owner = Examples.k_owner.
Proof.
  assert (H : osTaskFindByTid Examples.k_owner
                (evtSub_tid (mkThing 9 1024 (TaggedFn 0) 0)) = None) by reflexivity.
  split; [ exact H | ].
  exact (proj1 (proj2 (subscribe_for_missing_task_is_dropped Examples.plat
                         Examples.k_owner true (mkThing 9 1024 (TaggedFn 0) 0)) H)).
Defined.

End KernelFacts.

(** * Further properties of seos.c: the task table *)

From Stdlib Require Import Permutation.

Module RegistryFacts.

Import Seos SeosApps SeosFacts SubscriptionFacts KernelFacts.

(** ** Lists as arrays *)

Lemma nth_error_list_set_eq {A : Type} (l : list A) (i : nat) (y : A) :
  (i < length l)%nat -> nth_error (list_set l i y) i = Some y.
Proof.
  revert i. induction l as [ | z l IH]; intros [ | i] H; cbn in *; try lia; auto.
  apply IH. lia.
Qed.


Lemma firstn_list_set_beyond {A : Type} (l : list A) (i n : nat) (y : A) :
  (n <= i)%nat -> firstn n (list_set l i y) = firstn n l.
Proof.
  revert i n. induction l as [ | z l IH]; intros [ | i] [ | n] H; cbn; auto; try lia.
  f_equal. apply IH. lia.
Qed.

Lemma firstn_succ_list_set_at {A : Type} (l : list A) (c : nat) (v : A) :
  (c < length l)%nat -> firstn (S c) (list_set l c v) = firstn c l ++ [v].
Proof.
  revert c. induction l as [ | z l IH]; intros [ | c] H; cbn in *; try lia; auto.
  f_equal. apply IH. lia.
Qed.

Lemma firstn_list_set_within {A : Type} (l : list A) (i n : nat) (y : A) :
  (i < n)%nat -> firstn n (list_set l i y) = list_set (firstn n l) i y.
Proof.
  revert i n. induction l as [ | z l IH]; intros [ | i] [ | n] H; cbn; auto; try lia.
  f_equal. apply IH. lia.
Qed.

(** ** Looking tasks up *)

(** The live part of the table. *)
Definition live_tasks (k : Kernel) : list Task :=
  firstn (Z.to_nat (mTaskCnt k)) (mTasks k).

(** What [find_tid_from] returns, as a position in the list. *)
Lemma find_tid_from_Some (slots : list Task) (n : nat) (v : Z) :
  forall i j,
    find_tid_from slots n i v = Some j ->
    exists m t,
      j = i + Z.of_nat m /\ (m < n)%nat /\ nth_error slots m = Some t /\
      tid t = v /\ v <> 0.
Proof.
  revert slots. induction n as [ | n IH]; intros [ | s slots] i j; cbn; try discriminate.
  destruct (negb (tid s =? 0) && (tid s =? v)) eqn:E.
  - intros [= <-]. exists 0%nat, s.
    apply andb_true_iff in E. destruct E as [E0 Ev].
    apply negb_true_iff, Z.eqb_neq in E0. apply Z.eqb_eq in Ev.
    repeat split; try lia; congruence.
  - intros H. destruct (IH slots (i + 1) j H) as (m & t & Hj & Hm & Hn & Ht & Hv).
    exists (S m), t. repeat split; try assumption; lia.
Qed.

Lemma find_tid_from_None (slots : list Task) (n : nat) (v : Z) :
  forall i,
    find_tid_from slots n i v = None <->
    v = 0 \/ ~ In v (map tid (firstn n slots)).
Proof.
  revert slots. induction n as [ | n IH]; intros [ | s slots] i; cbn;
    try (split; [ intros _; right; tauto | reflexivity ]).
  destruct (negb (tid s =? 0) && (tid s =? v)) eqn:E.
  - apply andb_true_iff in E. destruct E as [E0 Ev].
    apply negb_true_iff, Z.eqb_neq in E0. apply Z.eqb_eq in Ev.
    split; [ discriminate | ]. intros [H | H]; [ congruence | tauto ].
  - rewrite IH. apply andb_false_iff in E.
    assert (Hs : tid s = v -> v = 0).
    { intros Hv. destruct E as [E | E].
      - apply negb_false_iff, Z.eqb_eq in E. congruence.
      - apply Z.eqb_neq in E. contradiction. }
    split; intros [H | H]; auto.
    all: first
      [ right; intros Hin; apply H; right; exact Hin
      | destruct (Z.eq_dec (tid s) v) as [Hv | Hv];
        [ left; auto | right; intros [Hv' | Hin]; contradiction ] ].
Qed.


(** ** Swap-with-last removal *)

(** Slot [i] of a list taken out by copying the last element over it. *)
Definition remove_swap {A : Type} (l : list A) (i : nat) : list A :=
  match nth_error l (length l - 1) with
  | Some x => firstn (length l - 1) (list_set l i x)
  | None => l
  end.

Lemma remove_swap_split {A : Type} (l1 l2 : list A) (a : A) :
  remove_swap (l1 ++ a :: l2) (length l1) =
  match rev l2 with
  | [] => l1
  | z :: m => l1 ++ z :: rev m
  end.
Proof.
  unfold remove_swap.
  destruct (rev l2) as [ | z m] eqn:Hrev.
  - apply (f_equal (@rev A)) in Hrev. rewrite rev_involutive in Hrev. subst l2.
    rewrite length_app. cbn [length rev].
    replace (length l1 + 1 - 1)%nat with (length l1) by lia.
    rewrite nth_error_app2 by lia. rewrite Nat.sub_diag. cbn [nth_error].
    rewrite list_set_app_r.
    replace (length l1) with (length l1 + 0)%nat at 1 by lia.
    rewrite firstn_app_2. cbn. apply app_nil_r.
  - apply (f_equal (@rev A)) in Hrev. rewrite rev_involutive in Hrev. cbn in Hrev.
    subst l2. rewrite length_app. cbn [length]. rewrite length_app. cbn [length].
    replace (length l1 + S (length (rev m) + 1) - 1)%nat
      with (length l1 + S (length (rev m)))%nat by lia.
    rewrite nth_error_app2 by lia.
    replace (length l1 + S (length (rev m)) - length l1)%nat
      with (S (length (rev m))) by lia.
    cbn [nth_error]. rewrite nth_error_app2 by lia. rewrite Nat.sub_diag.
    cbn [nth_error]. rewrite list_set_app_r.
    rewrite firstn_app_2. f_equal.
    change (z :: rev m ++ [z]) with ((z :: rev m) ++ [z]).
    replace (S (length (rev m))) with (length (z :: rev m) + 0)%nat by (cbn; lia).
    rewrite firstn_app_2. cbn [firstn]. apply app_nil_r.
Qed.

Lemma remove_swap_perm {A : Type} (l1 l2 : list A) (a : A) :
  Permutation (remove_swap (l1 ++ a :: l2) (length l1)) (l1 ++ l2).
Proof.
  rewrite remove_swap_split.
  destruct (rev l2) as [ | z m] eqn:Hrev.
  - apply (f_equal (@rev A)) in Hrev. rewrite rev_involutive in Hrev. subst l2.
    cbn. now rewrite app_nil_r.
  - apply (f_equal (@rev A)) in Hrev. rewrite rev_involutive in Hrev. cbn in Hrev.
    subst l2. apply Permutation_app_head. apply Permutation_cons_append.
Qed.

Lemma split_at {A : Type} (l : list A) (i : nat) (a : A) :
  nth_error l i = Some a -> exists l1 l2, l = l1 ++ a :: l2 /\ length l1 = i.
Proof. apply nth_error_split. Qed.

(** ** [osUnloadApp] *)

Section WithCpu.

Variable C : Cpu.
Variable P : Platform.

Lemma firstn_firstn_list_set {A : Type} (l : list A) (n m i : nat) (x : A) :
  (n <= m)%nat -> (i < m)%nat ->
  firstn n (list_set (firstn m l) i x) = firstn n (list_set l i x).
Proof.
  intros Hnm Him. rewrite <- firstn_list_set_within by assumption.
  rewrite firstn_firstn. now rewrite Nat.min_l by assumption.
Qed.

Lemma osUnloadApp_live (i : Z) (k : Kernel) :
  0 <= i < mTaskCnt k ->
  mTaskCnt k <= Z.of_nat (length (mTasks k)) ->
  mTaskCnt k < 2 ^ 32 ->
  mTaskCnt (osUnloadApp i k) = mTaskCnt k - 1 /\
  mTasks (osUnloadApp i k) =
    (if mTaskCnt k - 1 >? i
     then match task_at k (mTaskCnt k - 1) with
          | Some t => zset (mTasks k) i t
          | None => mTasks k
          end
     else mTasks k) /\
  live_tasks (osUnloadApp i k) = remove_swap (live_tasks k) (Z.to_nat i).
Proof.
  intros Hi Hlen H32. unfold osUnloadApp.
  assert (Hu : u32 (mTaskCnt k - 1) = mTaskCnt k - 1)
    by (unfold u32; apply Z.mod_small; lia).
  rewrite Hu.
  set (c := mTaskCnt k) in *.
  assert (Hlast : exists tl, task_at k (c - 1) = Some tl).
  { unfold task_at. destruct (nth_error (mTasks k) (Z.to_nat (c - 1))) eqn:E; eauto.
    apply nth_error_None in E. lia. }
  destruct Hlast as [tl Htl]. rewrite Htl.
  assert (Hcnt : forall k0, mTaskCnt k0 = c ->
                   mTaskCnt (set_mTaskCnt (u32 (mTaskCnt k0 - 1)) k0) = c - 1 /\
                   mTasks (set_mTaskCnt (u32 (mTaskCnt k0 - 1)) k0) = mTasks k0).
  { intros k0 Hk0. rewrite Hk0, Hu. destruct k0; split; reflexivity. }
  assert (Hrs : remove_swap (live_tasks k) (Z.to_nat i) =
                firstn (Z.to_nat (c - 1)) (list_set (mTasks k) (Z.to_nat i) tl)).
  { unfold remove_swap, live_tasks. fold c.
    assert (Hl : length (firstn (Z.to_nat c) (mTasks k)) = Z.to_nat c)
      by (rewrite length_firstn; lia).
    rewrite Hl.
    replace (Z.to_nat c - 1)%nat with (Z.to_nat (c - 1)) by lia.
    rewrite nth_error_firstn.
    replace (Z.to_nat (c - 1) <? Z.to_nat c)%nat with true
      by (symmetry; apply Nat.ltb_lt; lia).
    unfold task_at in Htl. rewrite Htl.
    apply firstn_firstn_list_set; lia. }
  destruct (Z.gtb_spec (c - 1) i) as [Hgt | Hle].
  - destruct (Hcnt (set_mTasks (zset (mTasks k) i tl) k)) as [A B];
      [ destruct k; reflexivity | ].
    split; [ exact A | ]. split.
    + rewrite B. destruct k; reflexivity.
    + unfold live_tasks at 1. rewrite A, B, Hrs. destruct k; reflexivity.
  - destruct (Hcnt k eq_refl) as [A B].
    split; [ exact A | ]. split; [ exact B | ].
    unfold live_tasks at 1. rewrite A, B, Hrs.
    assert (Hil : i = c - 1) by lia. subst i.
    unfold task_at in Htl.
    rewrite SubscribeCallFacts.list_set_same by exact Htl. reflexivity.
Qed.

Lemma osUnloadApp_counter (i : Z) (k : Kernel) :
  mNextTidInfo (osUnloadApp i k) = mNextTidInfo k.
Proof.
  unfold osUnloadApp. destruct (_ >? _); [ destruct (task_at _ _) | ];
    destruct k; reflexivity.
Qed.

Lemma nth_error_live (k : Kernel) (j : Z) :
  0 <= j < mTaskCnt k -> nth_error (live_tasks k) (Z.to_nat j) = task_at k j.
Proof.
  intros Hj. unfold live_tasks, task_at. rewrite nth_error_firstn.
  replace (Z.to_nat j <? Z.to_nat (mTaskCnt k))%nat with true
    by (symmetry; apply Nat.ltb_lt; lia).
  reflexivity.
Qed.

Lemma length_live (k : Kernel) :
  0 <= mTaskCnt k <= Z.of_nat (length (mTasks k)) ->
  length (live_tasks k) = Z.to_nat (mTaskCnt k).
Proof. intros H. unfold live_tasks. rewrite length_firstn. lia. Qed.


Lemma osTaskFindByTid_None (k : Kernel) (v : Z) :
  osTaskFindByTid k v = None <-> v = 0 \/ ~ In v (map tid (live_tasks k)).
Proof. apply find_tid_from_None. Qed.


(** ** [osStartApp] and [osStopTask] *)

(** The table is the array of [MAX_TASKS] slots, of which [mTaskCnt] are in
    use. *)
Definition table_ok (k : Kernel) : Prop :=
  Z.of_nat (length (mTasks k)) = MAX_TASKS C /\
  0 <= mTaskCnt k <= MAX_TASKS C /\ MAX_TASKS C < 2 ^ 32.

(** The loader [osLoadApp] tries for the app at [app]. *)
Definition loads (app : Z) : bool :=
  if marker (app_at C app) =? APP_HDR_MARKER_INTERNAL C
  then cpuInternalAppLoad C app
  else cpuAppLoad C app.

(** What [osStartApp] makes of the slot it takes: header, list capacity, list
    pointer and tid are assigned; the count and the embedded array are what
    the slot held. *)
Definition started (app t : Z) (slot : Task) : Task :=
  set_tid t
    (set_subbedEvents SubEmbedded
       (set_subbedEvtListSz (u16 (MAX_EMBEDDED_EVT_SUBS C)) (set_appHdr app slot))).

Lemma list_set_twice {A : Type} (l : list A) (i : nat) (x y : A) :
  list_set (list_set l i x) i y = list_set l i y.
Proof.
  revert i. induction l as [ | z l IH]; intros [ | i]; cbn; auto.
  f_equal. apply IH.
Qed.

Lemma remove_swap_last {A : Type} (l : list A) (a : A) :
  remove_swap (l ++ [a]) (length l) = l.
Proof. apply (remove_swap_split l [] a). Qed.

Lemma osStartApp_cases (fuel : nat) (app : Z) (k : Kernel) (b : bool) (k' : Kernel) :
  table_ok k -> tid_range_ok P -> counter_ok P k ->
  osStartApp C P fuel app k = Some (b, k') ->
  length (mTasks k') = length (mTasks k) /\ counter_ok P k' /\
  ((b = false /\ mTaskCnt k' = mTaskCnt k /\ live_tasks k' = live_tasks k /\
    (mTaskCnt k = MAX_TASKS C \/ loads app = false \/
     exists t, in_tid_range P t /\ fst (cpuAppInit C app t) = false)) \/
   (b = true /\ loads app = true /\ mTaskCnt k < MAX_TASKS C /\
    mTaskCnt k' = mTaskCnt k + 1 /\
    exists slot t,
      task_at k (mTaskCnt k) = Some slot /\
      fst (cpuAppInit C app t) = true /\
      live_tasks k' = live_tasks k ++ [started app t slot] /\
      in_tid_range P t /\ osTaskFindByTid k t = None /\ mNextTidInfo k' = t)).
Proof.
  intros (Hlen & Hcnt & H32) Hrange Hctr.
  unfold osStartApp, osLoadApp. fold (loads app).
  destruct (Z.eqb_spec (mTaskCnt k) (MAX_TASKS C)) as [Hfull | Hroom].
  { intros [= <- <-]. split; [ reflexivity | split; [ exact Hctr | ] ].
    left. repeat split. left. exact Hfull. }
  set (c := mTaskCnt k) in *.
  assert (Hc : (Z.to_nat c < length (mTasks k))%nat) by lia.
  destruct (task_at k c) as [slot | ] eqn:Hslot;
    [ | unfold task_at in Hslot; apply nth_error_None in Hslot; lia ].
  set (k1 := set_mTasks (zset (mTasks k) c (set_appHdr app slot)) k).
  assert (Hk1 : mTasks k1 = zset (mTasks k) c (set_appHdr app slot) /\
                mTaskCnt k1 = c /\ mNextTidInfo k1 = mNextTidInfo k)
    by (subst k1 c; destruct k; repeat split).
  destruct Hk1 as (Hk1t & Hk1c & Hk1n).
  destruct (loads app) eqn:Hload; cbn [negb].
  2:{ intros [= <- <-]. rewrite Hk1t. unfold zset. rewrite length_list_set.
      split; [ reflexivity | split ].
      - unfold counter_ok. rewrite Hk1n. exact Hctr.
      - left. split; [ reflexivity | split; [ exact Hk1c | split ] ].
        + unfold live_tasks. rewrite Hk1c, Hk1t. fold c. unfold zset.
          apply firstn_list_set_beyond. lia.
        + right. left. reflexivity. }
  set (k2 := set_mTaskCnt (u32 (mTaskCnt k1 + 1)) k1).
  assert (Hu : u32 (c + 1) = c + 1) by (unfold u32; apply Z.mod_small; lia).
  assert (Hk2 : mTasks k2 = mTasks k1 /\ mTaskCnt k2 = c + 1 /\
                mNextTidInfo k2 = mNextTidInfo k)
    by (subst k2; rewrite Hk1c, Hu; destruct k1; cbn in *; repeat split; assumption).
  destruct Hk2 as (Hk2t & Hk2c & Hk2n).
  assert (Hat2 : task_at k2 c = Some (set_appHdr app slot)).
  { unfold task_at. rewrite Hk2t, Hk1t. unfold zset. now apply nth_error_list_set_eq. }
  rewrite Hat2.
  set (task3 := set_subbedEvents SubEmbedded
                  (set_subbedEvtListSz (u16 (MAX_EMBEDDED_EVT_SUBS C))
                     (set_appHdr app slot))).
  set (k3 := set_mTasks (zset (mTasks k2) c task3) k2).
  assert (Hk3 : mTasks k3 = zset (mTasks k) c task3 /\ mTaskCnt k3 = c + 1 /\
                mNextTidInfo k3 = mNextTidInfo k).
  { subst k3. rewrite Hk2t, Hk1t. unfold zset. rewrite list_set_twice.
    destruct k2; cbn in *. repeat split; assumption. }
  destruct Hk3 as (Hk3t & Hk3c & Hk3n).
  destruct (osGetFreeTid P fuel k3) as [[t k4] | ] eqn:Hfree; [ | discriminate ].
  assert (Hctr3 : counter_ok P k3) by (unfold counter_ok; rewrite Hk3n; exact Hctr).
  destruct (osGetFreeTid_sound P fuel Hrange k3 t k4 Hctr3 Hfree)
    as (Hk4 & Htr & Hnone3 & _).
  assert (Hk4v : mTasks k4 = zset (mTasks k) c task3 /\ mTaskCnt k4 = c + 1 /\
                 mNextTidInfo k4 = t)
    by (rewrite Hk4; destruct k3; cbn in *; repeat split; assumption).
  destruct Hk4v as (Hk4t & Hk4c & Hk4n).
  set (k5 := set_mTasks (zset (mTasks k4) c (set_tid t task3)) k4).
  assert (Hk5 : mTasks k5 = zset (mTasks k) c (started app t slot) /\
                mTaskCnt k5 = c + 1 /\ mNextTidInfo k5 = t).
  { subst k5. rewrite Hk4t. unfold zset. rewrite list_set_twice.
    destruct k4; cbn in *. repeat split; assumption. }
  destruct Hk5 as (Hk5t & Hk5c & Hk5n).
  assert (Hhdr : appHdr (set_tid t task3) = app)
    by (subst task3; destruct slot; reflexivity).
  rewrite Hhdr.
  destruct (cpuAppInit C app t) as [done code] eqn:Hinit.
  destruct (run_calls_only P code k5) as (Hk6t & Hk6c & Hk6n & _).
  set (k6 := run P code k5) in *.
  rewrite Hk5t in Hk6t. rewrite Hk5c in Hk6c. rewrite Hk5n in Hk6n.
  assert (Hlive6 : live_tasks k6 = live_tasks k ++ [started app t slot]).
  { unfold live_tasks. rewrite Hk6c, Hk6t. fold c.
    replace (Z.to_nat (c + 1)) with (S (Z.to_nat c)) by lia.
    unfold zset. now apply firstn_succ_list_set_at. }
  assert (Hlen6 : length (mTasks k6) = length (mTasks k))
    by (rewrite Hk6t; unfold zset; apply length_list_set).
  assert (Hnone : osTaskFindByTid k t = None).
  { apply osTaskFindByTid_None. apply osTaskFindByTid_None in Hnone3.
    destruct Hnone3 as [Hz | Hnin]; [ left; exact Hz | right ].
    intros Hin. apply Hnin. unfold live_tasks. rewrite Hk3c, Hk3t.
    replace (Z.to_nat (c + 1)) with (S (Z.to_nat c)) by lia.
    unfold zset. rewrite firstn_succ_list_set_at by assumption.
    rewrite map_app, in_app_iff. left. exact Hin. }
  assert (Hctr6 : counter_ok P k6).
  { unfold counter_ok. rewrite Hk6n. unfold in_tid_range in Htr. lia. }
  destruct done; cbn [negb].
  - intros [= <- <-]. split; [ exact Hlen6 | split; [ exact Hctr6 | ] ].
    right. split; [ reflexivity | split; [ reflexivity | ] ].
    split; [ lia | split; [ exact Hk6c | ] ].
    exists slot, t. rewrite Hinit.
    split; [ reflexivity | split; [ reflexivity | split; [ exact Hlive6 | ] ] ].
    split; [ exact Htr | split; [ exact Hnone | exact Hk6n ] ].
  - intros [= <- <-].
    destruct (osUnloadApp_live c k6) as (Hcu & Htu & Hlu); [ lia | lia | lia | ].
    split; [ | split ].
    + rewrite Htu.
      replace (mTaskCnt k6 - 1 >? c) with false
        by (symmetry; rewrite Z.gtb_ltb; apply Z.ltb_ge; lia).
      exact Hlen6.
    + unfold counter_ok.
      rewrite osUnloadApp_counter. exact Hctr6.
    + left. split; [ reflexivity | split; [ lia | split ] ].
      * rewrite Hlu, Hlive6.
        replace (Z.to_nat c) with (length (live_tasks k))
          by (apply length_live; fold c; lia).
        apply remove_swap_last.
      * right. right. exists t. rewrite Hinit. split; [ exact Htr | reflexivity ].
Qed.

(** With a slot to take, a loader that succeeds and a free tid, [osStartApp]
    returns, and returns the same whatever fuel it has beyond the size of the
    tid range. *)
Lemma osStartApp_returns (app : Z) (k : Kernel) :
  table_ok k -> tid_range_ok P -> counter_ok P k ->
  mTaskCnt k + 1 < range_size P ->
  exists res,
    forall fuel, (Z.to_nat (range_size P) <= fuel)%nat ->
      osStartApp C P fuel app k = Some res.
Proof.
  intros (Hlen & Hcnt & H32) Hrange Hctr Hfree.
  assert (Hall : forall fuel, (Z.to_nat (range_size P) <= fuel)%nat ->
                   osStartApp C P fuel app k =
                   osStartApp C P (Z.to_nat (range_size P)) app k /\
                   osStartApp C P fuel app k <> None).
  { intros fuel Hfuel.
    unfold osStartApp, osLoadApp. fold (loads app).
    destruct (Z.eqb_spec (mTaskCnt k) (MAX_TASKS C)) as [Hfull | Hroom];
      [ split; [ reflexivity | discriminate ] | ].
    destruct (task_at k (mTaskCnt k)) as [slot | ] eqn:Hslot;
      [ | split; [ reflexivity | discriminate ] ].
    destruct (loads app); cbn [negb]; [ | split; [ reflexivity | discriminate ] ].
    match goal with
    | |- context [task_at ?k2 (mTaskCnt k)] =>
        destruct (task_at k2 (mTaskCnt k)) as [t2 | ];
        [ | split; [ reflexivity | discriminate ] ]
    end.
    match goal with
    | |- context [osGetFreeTid P fuel ?k3] =>
        assert (H3 : counter_ok P k3 /\ 0 <= mTaskCnt k3 < range_size P);
        [ | destruct H3 as [Hc3 Hn3];
            destruct (osGetFreeTid_terminates P k3 Hrange Hc3
                        (free_tid_exists P k3 Hrange Hn3)) as [r Hr] ]
    end.
    { assert (Hu : u32 (mTaskCnt k + 1) = mTaskCnt k + 1)
        by (unfold u32; apply Z.mod_small; lia).
      unfold counter_ok in *. destruct k as [ts n nt cur q sl h tr]. cbn in *.
      rewrite Hu. lia. }
    rewrite (Hr fuel Hfuel), (Hr _ (Nat.le_refl _)).
    split; [ reflexivity | ].
    destruct (cpuAppInit C _ r) as [[ | ] code]; discriminate. }
  destruct (osStartApp C P (Z.to_nat (range_size P)) app k) as [res | ] eqn:E0.
  - exists res. intros fuel Hfuel. now destruct (Hall fuel Hfuel) as [-> _].
  - exfalso. destruct (Hall _ (Nat.le_refl _)) as [_ Hne]. congruence.
Qed.

(** X20: starting an app gives it a tid no live task has.  When the table
    has a free slot, the loader and the app's init succeed and the tid range
    is larger than the table, [osStartApp] returns true (given fuel for one
    turn of the tid range); the count has gone up by one, the live slots are
    as they were, and the slot behind them holds the new task: with the app's
    header, the embedded list of [MAX_EMBEDDED_EVT_SUBS] entries, and a tid
    from the valid range that [osTaskFindByTid] did not find before.  The
    subscription count is not assigned: it is what the slot held. *)
Theorem start_app_registers_fresh_tid (app : Z) (k : Kernel) :
  table_ok k -> tid_range_ok P -> counter_ok P k ->
  mTaskCnt k < MAX_TASKS C ->
  mTaskCnt k + 1 < range_size P ->
  loads app = true ->
  (forall t, fst (cpuAppInit C app t) = true) ->
  exists t slot k',
    (forall fuel, (Z.to_nat (range_size P) <= fuel)%nat ->
       osStartApp C P fuel app k = Some (true, k')) /\
    mTaskCnt k' = mTaskCnt k + 1 /\
    task_at k (mTaskCnt k) = Some slot /\
    live_tasks k' = live_tasks k ++ [started app t slot] /\
    in_tid_range P t /\ osTaskFindByTid k t = None /\
    appHdr (started app t slot) = app /\
    subbedEvents (started app t slot) = SubEmbedded /\
    subbedEvtListSz (started app t slot) = u16 (MAX_EMBEDDED_EVT_SUBS C) /\
    subbedEvtCount (started app t slot) = subbedEvtCount slot.
Proof.
  intros Htab Hrange Hctr Hroom Hfree Hload Hinit.
  destruct (osStartApp_returns app k Htab Hrange Hctr Hfree) as [[b k'] Hres].
  pose proof (Hres _ (Nat.le_refl _)) as H0.
  destruct (osStartApp_cases _ app k b k' Htab Hrange Hctr H0) as (_ & _ & Hcases).
  destruct Hcases as [(Hb & _ & _ & Hwhy) | (Hb & _ & _ & Hc' & slot & t & Hs & _ & Hl & Ht & Hn & _)].
  - exfalso. destruct Hwhy as [Hfull | [Hnl | (t & _ & Hni)]].
    + lia.
    + congruence.
    + rewrite Hinit in Hni. discriminate.
  - subst b. exists t, slot, k'.
    split; [ exact Hres | ].
    split; [ exact Hc' | split; [ exact Hs | split; [ exact Hl | ] ] ].
    split; [ exact Ht | split; [ exact Hn | ] ].
    destruct slot; repeat split.
Qed.

(** X21: a start that fails leaves the registry as it was.  Whenever
    [osStartApp] returns false (the table is full, the loader refuses, or the
    app's init fails after a tid was assigned) the count and the live slots
    are unchanged, so every tid resolves as before. *)
Theorem failed_start_leaves_registry (fuel : nat) (app : Z) (k k' : Kernel) :
  table_ok k -> tid_range_ok P -> counter_ok P k ->
  osStartApp C P fuel app k = Some (false, k') ->
  mTaskCnt k' = mTaskCnt k /\
  live_tasks k' = live_tasks k /\
  (forall t, osTaskFindByTid k' t = osTaskFindByTid k t) /\
  (mTaskCnt k = MAX_TASKS C \/ loads app = false \/
   exists t, in_tid_range P t /\ fst (cpuAppInit C app t) = false).
Proof.
  intros Htab Hrange Hctr Hres.
  destruct (osStartApp_cases _ app k false k' Htab Hrange Hctr Hres) as (_ & _ & Hcases).
  destruct Hcases as [(_ & Hc & Hl & Hwhy) | (Hb & _)]; [ | discriminate ].
  split; [ exact Hc | split; [ exact Hl | split; [ | exact Hwhy ] ] ].
  intros t.
  assert (Hfind : forall k0, osTaskFindByTid k0 t =
                    find_tid_from (live_tasks k0) (Z.to_nat (mTaskCnt k0)) 0 t).
  { intros k0. unfold osTaskFindByTid, live_tasks.
    generalize (Z.to_nat (mTaskCnt k0)) as n. generalize 0 as i.
    generalize (mTasks k0) as l.
    intros l i n. revert l i. induction n as [ | n IH]; intros [ | s l] i; cbn;
      try reflexivity.
    destruct (_ && _); [ reflexivity | apply IH ]. }
  rewrite (Hfind k'), (Hfind k), Hc, Hl. reflexivity.
Qed.

(** *** The registry invariant *)

(** The table is in order: the live tids are pairwise distinct and in the
    valid range, and the tid counter is in its range. *)
Definition registry_ok (k : Kernel) : Prop :=
  table_ok k /\ counter_ok P k /\
  NoDup (map tid (live_tasks k)) /\
  Forall (fun t => in_tid_range P (tid t)) (live_tasks k).

Lemma osStopTask_live (i : Z) (k : Kernel) (t : Task) :
  0 <= i < mTaskCnt k ->
  mTaskCnt k <= Z.of_nat (length (mTasks k)) ->
  mTaskCnt k < 2 ^ 32 ->
  task_at k i = Some t ->
  let k' := snd (osStopTask C P (Some i) k) in
  fst (osStopTask C P (Some i) k) = true /\
  mTaskCnt k' = mTaskCnt k - 1 /\
  length (mTasks k') = length (mTasks k) /\
  mNextTidInfo k' = mNextTidInfo k /\
  live_tasks k' = remove_swap (live_tasks k) (Z.to_nat i).
Proof.
  intros Hi Hlen H32 Hat. cbv zeta. unfold osStopTask. rewrite Hat. cbn [fst snd].
  destruct (run_calls_only P (cpuAppEnd C (appHdr t)) k) as (A & B & N & _).
  set (k1 := run P (cpuAppEnd C (appHdr t)) k) in *.
  destruct (osUnloadApp_live i k1) as (Hc & Ht & Hl); [ lia | rewrite A, B; lia | lia | ].
  split; [ reflexivity | ].
  split; [ lia | split; [ | split ] ].
  - rewrite Ht.
    destruct (mTaskCnt k1 - 1 >? i); [ destruct (task_at k1 (mTaskCnt k1 - 1)) | ];
      unfold zset; rewrite ?length_list_set; now rewrite A.
  - rewrite osUnloadApp_counter. exact N.
  - rewrite Hl. unfold live_tasks. now rewrite A, B.
Qed.

(** X22: the registry stays in order.  Distinct live tids from the valid
    range, a count within the table and a tid counter within its range are
    kept by every [osStartApp], whatever it returns, and by [osStopTask] of
    any live task. *)
Theorem registry_stays_in_order (k : Kernel) :
  tid_range_ok P ->
  registry_ok k ->
  (forall fuel app b k',
     osStartApp C P fuel app k = Some (b, k') -> registry_ok k') /\
  (forall i,
     0 <= i < mTaskCnt k ->
     fst (osStopTask C P (Some i) k) = true /\
     registry_ok (snd (osStopTask C P (Some i) k))).
Proof.
  intros Hrange (Htab & Hctr & Hnd & Hin).
  pose proof Htab as (Hlen & Hcnt & H32).
  split.
  - intros fuel app b k' Hres.
    destruct (osStartApp_cases fuel app k b k' Htab Hrange Hctr Hres)
      as (Hlen' & Hctr' & Hcases).
    assert (Htab' : mTaskCnt k' = mTaskCnt k \/
                    (mTaskCnt k < MAX_TASKS C /\ mTaskCnt k' = mTaskCnt k + 1) ->
                    table_ok k').
    { intros Hc. unfold table_ok. rewrite Hlen'. lia. }
    destruct Hcases as [(_ & Hc & Hl & _) |
                        (_ & _ & Hroom & Hc & slot & t & _ & _ & Hl & Ht & Hn & _)].
    + split; [ apply Htab'; left; exact Hc | ].
      split; [ exact Hctr' | ]. rewrite Hl. split; assumption.
    + split; [ apply Htab'; right; split; assumption | ].
      split; [ exact Hctr' | ]. rewrite Hl. split.
      * rewrite map_app. cbn [map].
        apply osTaskFindByTid_None in Hn.
        assert (Hstid : tid (started app t slot) = t) by (destruct slot; reflexivity).
        rewrite Hstid.
        destruct Hn as [Hz | Hnin];
          [ destruct Hrange as (H1 & _); unfold in_tid_range in Ht; lia | ].
        apply NoDup_app; [ exact Hnd | repeat constructor; intros [] | ].
        intros x Hx [<- | []]. contradiction.
      * apply Forall_app. split; [ exact Hin | ].
        constructor; [ | constructor ]. destruct slot; exact Ht.
  - intros i Hi.
    destruct (task_at k i) as [t | ] eqn:Hat;
      [ | unfold task_at in Hat; apply nth_error_None in Hat; lia ].
    destruct (osStopTask_live i k t Hi) as (Hr & Hc & Hl & Hn & Hlive);
      [ lia | lia | exact Hat | ].
    split; [ exact Hr | ].
    assert (Hnth : nth_error (live_tasks k) (Z.to_nat i) = Some t)
      by (rewrite nth_error_live by lia; exact Hat).
    destruct (split_at _ _ _ Hnth) as (l1 & l2 & Hsplit & Hl1).
    assert (Hperm : Permutation (live_tasks (snd (osStopTask C P (Some i) k))) (l1 ++ l2))
      by (rewrite Hlive, Hsplit, <- Hl1; apply remove_swap_perm).
    split; [ unfold table_ok; rewrite Hl; lia | ].
    split; [ unfold counter_ok; rewrite Hn; exact Hctr | ].
    split.
    + eapply Permutation_NoDup; [ apply Permutation_map, Permutation_sym, Hperm | ].
      rewrite Hsplit, map_app in Hnd. cbn [map] in Hnd.
      rewrite map_app. eapply NoDup_remove_1, Hnd.
    + eapply Permutation_Forall; [ apply Permutation_sym, Hperm | ].
      rewrite Hsplit in Hin. apply Forall_app in Hin. destruct Hin as [H1 H2].
      apply Forall_app. split; [ exact H1 | ]. now inversion H2.
Qed.

(** ** Looking apps up *)

Lemma find_app_from_Some (slots : list Task) (n : nat) (id : Z) :
  forall i j,
    find_app_from C slots n i id = Some j ->
    exists m t,
      j = i + Z.of_nat m /\ (m < n)%nat /\ nth_error slots m = Some t /\
      appHdr t <> 0 /\ appId (app_at C (appHdr t)) = id.
Proof.
  revert slots. induction n as [ | n IH]; intros [ | s slots] i j; cbn; try discriminate.
  destruct (negb (appHdr s =? 0) && (appId (app_at C (appHdr s)) =? id)) eqn:E.
  - intros [= <-]. exists 0%nat, s.
    apply andb_true_iff in E. destruct E as [E0 Ev].
    apply negb_true_iff, Z.eqb_neq in E0. apply Z.eqb_eq in Ev.
    repeat split; try lia; assumption.
  - intros H. destruct (IH slots (i + 1) j H) as (m & t & Hj & Hm & Hn & Ht & Hv).
    exists (S m), t. repeat split; try assumption; lia.
Qed.

Lemma find_app_from_first (slots : list Task) (n : nat) (id : Z) :
  forall i m t,
    (m < n)%nat -> nth_error slots m = Some t ->
    appHdr t <> 0 -> appId (app_at C (appHdr t)) = id ->
    exists j, find_app_from C slots n i id = Some j /\ i <= j <= i + Z.of_nat m.
Proof.
  revert slots. induction n as [ | n IH]; intros [ | s slots] i m t Hm Hn Hh Hid;
    try lia; try (destruct m; discriminate).
  cbn [find_app_from].
  destruct (negb (appHdr s =? 0) && (appId (app_at C (appHdr s)) =? id)) eqn:E.
  - exists i. split; [ reflexivity | lia ].
  - destruct m as [ | m]; cbn in Hn.
    + injection Hn as ->. exfalso.
      apply andb_false_iff in E. destruct E as [E | E].
      * apply negb_false_iff, Z.eqb_eq in E. contradiction.
      * apply Z.eqb_neq in E. contradiction.
    + destruct (IH slots (i + 1) m t) as (j & Hj & Hr); try assumption; try lia.
      exists j. split; [ exact Hj | lia ].
Qed.

(** X23: the two app-info calls agree.  What [osAppInfoById] reports for an
    app id is what [osAppInfoByIndex] reports for the index it returns:
    the same id, version and size, and [osTidById] returns the tid of the task in
    that slot; the index is below [mTaskCnt].  Conversely a slot that
    [osAppInfoByIndex] reports is found by its app id at that index or, when
    an earlier slot holds an app of the same id, at the earlier one.  An index
    of [mTaskCnt] or more is not reported. *)
Theorem app_info_calls_agree (k : Kernel) :
  (forall id i ver size,
     osAppInfoById C k id = Some (i, ver, size) ->
     0 <= i < mTaskCnt k /\
     osAppInfoByIndex C k i = Some (id, ver, size) /\
     osTaskFindByAppID C k id = Some i /\
     osTidById C k id = option_map tid (task_at k i)) /\
  (forall i id ver size,
     0 <= i ->
     osAppInfoByIndex C k i = Some (id, ver, size) ->
     exists j ver' size',
       osAppInfoById C k id = Some (j, ver', size') /\ 0 <= j <= i) /\
  (forall i, mTaskCnt k <= i -> osAppInfoByIndex C k i = None).
Proof.
  split; [ | split ].
  - intros id i ver size. unfold osAppInfoById, osAppInfoByIndex, osTaskFindByAppID,
      osTidById.
    destruct (find_app_from C (mTasks k) (Z.to_nat (mTaskCnt k)) 0 id) as [j | ] eqn:Hf;
      [ | discriminate ].
    destruct (find_app_from_Some _ _ _ _ _ Hf) as (m & t & Hj & Hm & Hn & Hh & Hid).
    assert (Hat : task_at k j = Some t)
      by (unfold task_at; subst j; cbn; now rewrite Nat2Z.id).
    rewrite Hat. cbn [option_map]. intros [= <- <- <-].
    split; [ lia | ].
    replace (j <? mTaskCnt k) with true by (symmetry; apply Z.ltb_lt; lia).
    rewrite Hat.
    replace (appHdr t =? 0) with false by (symmetry; now apply Z.eqb_neq).
    rewrite Hid. repeat split.
  - intros i id ver size Hi. unfold osAppInfoByIndex, osAppInfoById.
    destruct (Z.ltb_spec i (mTaskCnt k)) as [Hlt | Hge]; [ | discriminate ].
    destruct (task_at k i) as [t | ] eqn:Hat; [ | discriminate ].
    destruct (Z.eqb_spec (appHdr t) 0) as [Hz | Hnz]; [ discriminate | ].
    intros [= <- <- <-].
    destruct (find_app_from_first (mTasks k) (Z.to_nat (mTaskCnt k))
                (appId (app_at C (appHdr t))) 0 (Z.to_nat i) t)
      as (j & Hj & Hr); try assumption; try lia; try reflexivity.
    rewrite Hj.
    destruct (find_app_from_Some _ _ _ _ _ Hj) as (m & t' & Hjm & Hm & Hn & _).
    assert (Hat' : task_at k j = Some t')
      by (unfold task_at; subst j; cbn; now rewrite Nat2Z.id).
    rewrite Hat'. cbn [option_map]. do 3 eexists. split; [ reflexivity | lia ].
  - intros i Hi. unfold osAppInfoByIndex.
    now replace (i <? mTaskCnt k) with false by (symmetry; apply Z.ltb_ge; lia).
Qed.

End WithCpu.

(** ** Concrete runs *)

Import RegistryScenes.

Lemma registry_ok_k_abc : registry_ok cpu16 Examples.plat k_abc.
Proof.
  split; [ | split; [ | split ] ].
  - repeat split; try reflexivity; discriminate.
  - split; discriminate.
  - repeat (constructor; [ cbn; intuition discriminate | ]). constructor.
  - repeat (constructor; [ split; discriminate | ]). constructor.
Qed.


Lemma start_app_registers_fresh_tid_witness :
  (table_ok cpu16 k_abc /\ tid_range_ok Examples.plat /\
   counter_ok Examples.plat k_abc /\ mTaskCnt k_abc < MAX_TASKS cpu16 /\
   mTaskCnt k_abc + 1 < range_size Examples.plat /\
   loads cpu16 103 = true /\
   (forall t, fst (cpuAppInit cpu16 103 t) = true)) /\
  exists t k',
    osStartApp cpu16 Examples.plat (Z.to_nat (range_size Examples.plat)) 103 k_abc
      = Some (true, k') /\
    mTaskCnt k' = 4 /\ in_tid_range Examples.plat t /\
    osTaskFindByTid k_abc t = None /\
    map tid (live_tasks k') = [10; 20; 30; t].
Proof.
  destruct registry_ok_k_abc as (Htab & Hctr & _ & _).
  assert (Hrange : tid_range_ok Examples.plat)
    by (repeat split; try reflexivity; discriminate).
  assert (Hroom : mTaskCnt k_abc < MAX_TASKS cpu16) by reflexivity.
  assert (Hfree : mTaskCnt k_abc + 1 < range_size Examples.plat) by reflexivity.
  assert (Hload : loads cpu16 103 = true) by reflexivity.
  assert (Hinit : forall t, fst (cpuAppInit cpu16 103 t) = true) by reflexivity.
  split; [ repeat split; try assumption; try apply Htab; try apply Hrange; apply Hctr | ].
  destruct (start_app_registers_fresh_tid cpu16 Examples.plat 103 k_abc
              Htab Hrange Hctr Hroom Hfree Hload Hinit)
    as (t & slot & k' & Hres & Hc & Hs & Hl & Ht & Hn & _).
  exists t, k'.
  split; [ apply Hres; apply Nat.le_refl | ].
  split; [ rewrite Hc; reflexivity | ].
  split; [ exact Ht | split; [ exact Hn | ] ].
  rewrite Hl, map_app. destruct slot; reflexivity.
Defined.

Lemma failed_start_leaves_registry_witness :
  (table_ok cpu1 Examples.k_owner /\ tid_range_ok Examples.plat /\
   counter_ok Examples.plat Examples.k_owner /\
   osStartApp cpu1 Examples.plat 3 103 Examples.k_owner
     = Some (false, Examples.k_owner)) /\
  mTaskCnt Examples.k_owner = 1 /\
  live_tasks Examples.k_owner = [Examples.task_with 5 100] /\
  mTaskCnt Examples.k_owner = MAX_TASKS cpu1.
Proof.
  assert (Htab : table_ok cpu1 Examples.k_owner)
    by (repeat split; try reflexivity; discriminate).
  assert (Hrange : tid_range_ok Examples.plat)
    by (repeat split; try reflexivity; discriminate).
  assert (Hctr : counter_ok Examples.plat Examples.k_owner) by (split; discriminate).
  assert (Hres : osStartApp cpu1 Examples.plat 3 103 Examples.k_owner
                 = Some (false, Examples.k_owner)) by reflexivity.
  split; [ repeat split; try assumption; try apply Htab; try apply Hrange; apply Hctr | ].
  destruct (failed_start_leaves_registry cpu1 Examples.plat 3 103 Examples.k_owner
              Examples.k_owner Htab Hrange Hctr Hres) as (Hc & Hl & _ & _).
  split; [ exact Hc | split; [ exact Hl | reflexivity ] ].
Defined.

Lemma registry_stays_in_order_witness :
  (tid_range_ok Examples.plat /\ registry_ok cpu16 Examples.plat k_abc) /\
  fst (osStopTask cpu16 Examples.plat (Some 0) k_abc) = true /\
  registry_ok cpu16 Examples.plat (snd (osStopTask cpu16 Examples.plat (Some 0) k_abc)).
Proof.
  assert (Hrange : tid_range_ok Examples.plat)
    by (repeat split; try reflexivity; discriminate).
  split; [ split; [ exact Hrange | exact registry_ok_k_abc ] | ].
  destruct (registry_stays_in_order cpu16 Examples.plat k_abc Hrange registry_ok_k_abc)
    as [_ Hstop].
  apply Hstop. split; [ discriminate | reflexivity ].
Defined.

Lemma app_info_calls_agree_witness :
  osAppInfoById cpu16 k_abc 1101 = Some (1, 1, 64) /\
  osAppInfoByIndex cpu16 k_abc 1 = Some (1101, 1, 64) /\
  osTidById cpu16 k_abc 1101 = Some 20.
Proof.
  assert (H : osAppInfoById cpu16 k_abc 1101 = Some (1, 1, 64)) by reflexivity.
  split; [ exact H | ].
  destruct (proj1 (app_info_calls_agree cpu16 k_abc) 1101 1 1 64 H) as (_ & Hi & _ & Ht).
  split; [ exact Hi | rewrite Ht; reflexivity ].
Defined.

End RegistryFacts.

(** * Further properties of seos.c: the app iterator *)

Module ExtAppFacts.

Import Seos SeosExtApps.

(** ** Arithmetic of the record header *)

Lemma lor_below (a b n : Z) :
  0 <= n -> 0 <= a < 2 ^ n -> 0 <= b < 2 ^ n -> 0 <= Z.lor a b < 2 ^ n.
Proof.
  intros Hn Ha Hb.
  assert (E : Z.lor a b mod 2 ^ n = Z.lor a b).
  { rewrite <- Z.land_ones by exact Hn.
    rewrite Z.land_lor_distr_l, !Z.land_ones by exact Hn.
    rewrite !Z.mod_small by assumption. reflexivity. }
  rewrite <- E. apply Z.mod_pos_bound. lia.
Qed.

Lemma lor_disjoint (a b : Z) : Z.land a b = 0 -> Z.lor a b = a + b.
Proof.
  intros H. rewrite <- Z.lxor_lor by exact H.
  symmetry. apply Z.add_nocarry_lxor. exact H.
Qed.

Lemma round_up_mask (x : Z) :
  0 <= x < 2 ^ 32 -> Z.land x (u32 (Z.lnot 3)) = x - x mod 4.
Proof.
  intros Hx.
  replace (x - x mod 4) with (Z.shiftl (Z.shiftr x 2) 2).
  2:{ rewrite Z.shiftl_mul_pow2, Z.shiftr_div_pow2 by lia.
      change (2 ^ 2) with 4. pose proof (Z.div_mod x 4 ltac:(lia)). lia. }
  change (u32 (Z.lnot 3)) with (Z.shiftl (Z.ones 30) 2).
  apply Z.bits_inj'. intros n Hn.
  rewrite Z.land_spec, !Z.shiftl_spec by exact Hn.
  destruct (Z.ltb_spec n 2) as [Hlt | Hge].
  - rewrite (Z.testbit_neg_r _ (n - 2)) by lia.
    rewrite (Z.testbit_neg_r _ (n - 2)) by lia. apply andb_false_r.
  - rewrite Z.shiftr_spec by lia. replace (n - 2 + 2) with n by lia.
    destruct (Z.ltb_spec n 32) as [Hlt | Hbig].
    + rewrite Z.ones_spec_low by lia. apply andb_true_r.
    + rewrite Z.ones_spec_high by lia. rewrite andb_false_r.
      symmetry. destruct (Z.eq_dec x 0) as [-> | Hnz]; [ apply Z.testbit_0_l | ].
      apply Z.bits_above_log2; [ lia | ].
      apply Z.lt_le_trans with 32; [ | exact Hbig ].
      apply Z.log2_lt_pow2; lia.
Qed.

Section WithFlash.

Variable F : Flash.

(** The two nibbles of a record's marker byte and its stored length. *)
Definition marker_low (q : Z) : Z := Z.land (byte_at F q) 15.
Definition marker_high (q : Z) : Z := Z.land (Z.shiftr (byte_at F q) 4) 15.
Definition stored_len (q : Z) : Z :=
  byte_at F (q + 1) * 2 ^ 16 + byte_at F (q + 2) * 2 ^ 8 + byte_at F (q + 3).

(** The record at [q] is one the iterator stops at. *)
Definition is_app_record (q : Z) : Prop :=
  marker_low q = marker_high q \/ marker_low q = BL_FLASH_APP_ID F.

(** Bytes a record of payload length [len] takes: header, payload rounded up
    to a multiple of four, footer. *)
Definition footprint (len : Z) : Z := 4 + 4 * ((len + 3) / 4) + 4.

Lemma byte_at_range (p : Z) : 0 <= byte_at F p < 256.
Proof. unfold byte_at. apply Z.mod_pos_bound. reflexivity. Qed.

Lemma len_decoded (q : Z) :
  u32 (Z.lor (Z.lor (Z.shiftl (byte_at F (q + 1)) 16)
                    (Z.shiftl (byte_at F (q + 2)) 8))
             (byte_at F (q + 3))) = stored_len q
  /\ 0 <= stored_len q < 2 ^ 24.
Proof.
  pose proof (byte_at_range (q + 1)) as H1.
  pose proof (byte_at_range (q + 2)) as H2.
  pose proof (byte_at_range (q + 3)) as H3.
  unfold stored_len.
  set (b1 := byte_at F (q + 1)) in *. set (b2 := byte_at F (q + 2)) in *.
  set (b3 := byte_at F (q + 3)) in *.
  assert (Hhigh : forall b n, 0 <= b < 256 -> 8 <= n -> Z.testbit b n = false).
  { intros b n Hb Hn. destruct (Z.eq_dec b 0) as [-> | Hnz]; [ apply Z.testbit_0_l | ].
    apply Z.bits_above_log2; [ lia | ].
    apply Z.lt_le_trans with 8; [ apply Z.log2_lt_pow2; lia | exact Hn ]. }
  assert (E1 : Z.lor (Z.shiftl b1 16) (Z.shiftl b2 8) = b1 * 2 ^ 16 + b2 * 2 ^ 8).
  { rewrite lor_disjoint; [ rewrite !Z.shiftl_mul_pow2 by lia; reflexivity | ].
    apply Z.bits_inj'. intros n Hn. rewrite Z.land_spec, !Z.shiftl_spec by exact Hn.
    rewrite Z.bits_0.
    destruct (Z.ltb_spec n 16).
    - rewrite (Z.testbit_neg_r b1) by lia. reflexivity.
    - rewrite (Hhigh b2) by lia. apply andb_false_r. }
  assert (E2 : Z.lor (b1 * 2 ^ 16 + b2 * 2 ^ 8) b3 = b1 * 2 ^ 16 + b2 * 2 ^ 8 + b3).
  { apply lor_disjoint.
    apply Z.bits_inj'. intros n Hn. rewrite Z.bits_0, Z.land_spec.
    destruct (Z.ltb_spec n 8).
    - replace (b1 * 2 ^ 16 + b2 * 2 ^ 8) with ((b1 * 2 ^ 8 + b2) * 2 ^ 8) by lia.
      rewrite Z.mul_pow2_bits_low by lia. reflexivity.
    - rewrite (Hhigh b3) by lia. apply andb_false_r. }
  rewrite E1, E2.
  assert (B : 0 <= b1 * 2 ^ 16 + b2 * 2 ^ 8 + b3 < 2 ^ 24) by lia.
  split; [ unfold u32; apply Z.mod_small; lia | exact B ].
Qed.

Lemma total_len_footprint (len : Z) :
  0 <= len < 2 ^ 24 ->
  u32 (u32 (4 + Z.land (u32 (len + 3)) (u32 (Z.lnot 3))) + 4) = footprint len.
Proof.
  intros Hl. unfold footprint.
  assert (E3 : u32 (len + 3) = len + 3) by (unfold u32; apply Z.mod_small; lia).
  rewrite E3, round_up_mask by lia.
  pose proof (Z.div_mod (len + 3) 4 ltac:(lia)) as D.
  pose proof (Z.mod_pos_bound (len + 3) 4 ltac:(lia)) as M.
  replace (len + 3 - (len + 3) mod 4) with (4 * ((len + 3) / 4)) by lia.
  assert (0 <= 4 * ((len + 3) / 4) <= len + 3) by lia.
  unfold u32.
  rewrite (Z.mod_small (4 + 4 * ((len + 3) / 4))) by lia.
  apply Z.mod_small. lia.
Qed.

Lemma footprint_bounds (len : Z) :
  0 <= len -> len + 8 <= footprint len <= len + 11.
Proof.
  intros Hl. unfold footprint.
  pose proof (Z.div_mod (len + 3) 4 ltac:(lia)) as D.
  pose proof (Z.mod_pos_bound (len + 3) 4 ltac:(lia)) as M. lia.
Qed.

(** One pass through the loop body, with the header arithmetic done. *)
Lemma next_record_step (E : Z) (fuel : nat) (p : Z) :
  next_record F E (S fuel) p =
  if p + footprint (stored_len p) >? E then Some None
  else if negb (marker_low p =? marker_high p)
          && negb (marker_low p =? BL_FLASH_APP_ID F)
       then next_record F E fuel (p + footprint (stored_len p))
       else Some (Some (p + footprint (stored_len p), stored_len p, p + 4)).
Proof.
  cbn [next_record]. cbv zeta.
  destruct (len_decoded p) as [-> Hl].
  rewrite total_len_footprint by exact Hl. reflexivity.
Qed.

(** What the loop hands back when it is left at a record. *)
Lemma next_record_yield (E : Z) (fuel : nat) :
  forall p p' len a,
    next_record F E fuel p = Some (Some (p', len, a)) ->
    p + 4 <= a /\ len = stored_len (a - 4) /\ is_app_record (a - 4) /\
    p' = a - 4 + footprint len /\ p' <= E.
Proof.
  induction fuel as [|fuel IH]; intros p p' len a H; [ discriminate H | ].
  rewrite next_record_step in H.
  destruct (p + footprint (stored_len p) >? E) eqn:Hfit; [ discriminate H | ].
  assert (Hin : p + footprint (stored_len p) <= E)
    by (rewrite Z.gtb_ltb in Hfit; apply Z.ltb_ge in Hfit; exact Hfit).
  destruct (negb (marker_low p =? marker_high p)
            && negb (marker_low p =? BL_FLASH_APP_ID F)) eqn:Hskip.
  - destruct (len_decoded p) as [_ Hl].
    pose proof (footprint_bounds (stored_len p) (proj1 Hl)).
    destruct (IH _ _ _ _ H) as (A & B). split; [ lia | exact B ].
  - injection H as <- <- <-.
    replace (p + 4 - 4) with p by lia.
    split; [ lia | ]. split; [ reflexivity | ].
    split; [ | split; [ reflexivity | exact Hin ] ].
    apply andb_false_iff in Hskip.
    destruct Hskip as [Hs | Hs]; apply negb_false_iff, Z.eqb_eq in Hs;
      [ left | right ]; exact Hs.
Qed.

(** The loop is left once the fuel covers the area in steps of eight bytes. *)
Lemma next_record_returns (E : Z) (fuel : nat) :
  forall p, (1 <= fuel)%nat -> E - p < 8 * Z.of_nat fuel ->
    next_record F E fuel p <> None.
Proof.
  induction fuel as [|fuel IH]; intros p H1 Hm; [ lia | ].
  rewrite next_record_step.
  destruct (p + footprint (stored_len p) >? E) eqn:Hfit; [ discriminate | ].
  assert (Hin : p + footprint (stored_len p) <= E)
    by (rewrite Z.gtb_ltb in Hfit; apply Z.ltb_ge in Hfit; exact Hfit).
  destruct (negb (marker_low p =? marker_high p)
            && negb (marker_low p =? BL_FLASH_APP_ID F)); [ | discriminate ].
  destruct (len_decoded p) as [_ Hl].
  pose proof (footprint_bounds (stored_len p) (proj1 Hl)).
  apply IH; lia.
Qed.

Lemma next_record_more_fuel (E : Z) (fuel : nat) :
  forall p r fuel', next_record F E fuel p = Some r -> (fuel <= fuel')%nat ->
    next_record F E fuel' p = Some r.
Proof.
  induction fuel as [|fuel IH]; intros p r fuel' H Hle; [ discriminate H | ].
  destruct fuel' as [|fuel']; [ lia | ].
  rewrite next_record_step in *.
  destruct (p + footprint (stored_len p) >? E); [ exact H | ].
  destruct (negb (marker_low p =? marker_high p)
            && negb (marker_low p =? BL_FLASH_APP_ID F)); [ | exact H ].
  apply IH; [ exact H | lia ].
Qed.

Lemma osExtAppIteratorNext_true (fuel : nat) (it it' : ExtAppIterator) :
  osExtAppIteratorNext F fuel it = Some (true, it') ->
  sharedEnd it' = sharedEnd it /\
  shared it + 4 <= app it' /\
  appLen it' = stored_len (app it' - 4) /\
  0 <= appLen it' < 2 ^ 24 /\
  is_app_record (app it' - 4) /\
  shared it' = app it' - 4 + footprint (appLen it') /\
  shared it' <= sharedEnd it.
Proof.
  unfold osExtAppIteratorNext. intros H.
  destruct (next_record F (sharedEnd it) fuel (shared it)) as [[[[p len] a]|]|] eqn:E;
    try discriminate H.
  injection H as <-. cbn [sharedEnd shared app appLen].
  destruct (next_record_yield _ _ _ _ _ _ E) as (A & B & C & D & G).
  destruct (len_decoded (a - 4)) as [_ Hl].
  repeat split; try assumption; rewrite B; apply Hl.
Qed.

(** X24: When [osExtAppIteratorNext] returns true, the app it reports is a record
    of the area the iterator had not passed yet: its header lies at or after
    the old position, its marker nibbles are equal or the low one is
    [BL_FLASH_APP_ID], [appLen] is the 24-bit length stored in the header,
    the payload and the footer end at or before [sharedEnd], and the new
    position is the first byte after the record.  When it returns false the
    iterator is unchanged. *)
Theorem yielded_app_lies_in_area (fuel : nat) (b : bool) (it it' : ExtAppIterator) :
  osExtAppIteratorNext F fuel it = Some (b, it') ->
  sharedEnd it' = sharedEnd it /\
  (b = false -> it' = it) /\
  (b = true ->
     shared it + 4 <= app it' /\
     is_app_record (app it' - 4) /\
     appLen it' = stored_len (app it' - 4) /\
     0 <= appLen it' < 2 ^ 24 /\
     app it' + appLen it' + 4 <= shared it' /\
     shared it' = app it' - 4 + footprint (appLen it') /\
     shared it + 8 <= shared it' <= sharedEnd it).
Proof.
  intros H. destruct b.
  - destruct (osExtAppIteratorNext_true _ _ _ H) as (A & B & C & D & G & I & J).
    pose proof (footprint_bounds _ (proj1 D)).
    split; [ exact A | ]. split; [ discriminate | ]. intros _.
    repeat split; try assumption; lia.
  - unfold osExtAppIteratorNext in H.
    destruct (next_record F (sharedEnd it) fuel (shared it)) as [[[[p len] a]|]|];
      try discriminate H.
    injection H as <-. split; [ reflexivity | ]. split; [ reflexivity | discriminate ].
Qed.

(** X25: [osExtAppIteratorNext] returns: every pass of its loop moves on by at
    least eight bytes, so one pass more than an eighth of the bytes left in
    the area is enough, and more passes allowed do not change the result. *)
Theorem iterator_next_returns (fuel : nat) (it : ExtAppIterator) :
  (Z.to_nat ((sharedEnd it - shared it) / 8) + 1 <= fuel)%nat ->
  exists b it',
    osExtAppIteratorNext F fuel it = Some (b, it') /\
    forall fuel', (fuel <= fuel')%nat ->
      osExtAppIteratorNext F fuel' it = Some (b, it').
Proof.
  intros Hf.
  assert (Hr : next_record F (sharedEnd it) fuel (shared it) <> None).
  { apply next_record_returns; [ lia | ].
    pose proof (Z.div_mod (sharedEnd it - shared it) 8 ltac:(lia)) as D.
    pose proof (Z.mod_pos_bound (sharedEnd it - shared it) 8 ltac:(lia)) as M.
    destruct (Z.le_gt_cases 0 ((sharedEnd it - shared it) / 8)); lia. }
  destruct (next_record F (sharedEnd it) fuel (shared it)) as [r|] eqn:E;
    [ | contradiction ].
  assert (Hm : forall fuel', (fuel <= fuel')%nat ->
             next_record F (sharedEnd it) fuel' (shared it) = Some r)
    by (intros; eapply next_record_more_fuel; eassumption).
  destruct r as [[[p len] a]|].
  - exists true, (mkExtAppIterator p (sharedEnd it) a len).
    unfold osExtAppIteratorNext. rewrite E. split; [ reflexivity | ].
    intros fuel' Hle. rewrite (Hm fuel' Hle). reflexivity.
  - exists false, it.
    unfold osExtAppIteratorNext. rewrite E. split; [ reflexivity | ].
    intros fuel' Hle. rewrite (Hm fuel' Hle). reflexivity.
Qed.

(** [walk it l]: successive calls from [it] return true and leave the
    iterators [l], in this order. *)
Fixpoint walk (fuel : nat) (it : ExtAppIterator) (l : list ExtAppIterator) : Prop :=
  match l with
  | [] => True
  | it1 :: l' => osExtAppIteratorNext F fuel it = Some (true, it1) /\ walk fuel it1 l'
  end.

Lemma walk_facts (fuel : nat) (l : list ExtAppIterator) :
  forall it, walk fuel it l ->
    Forall (fun it' => shared it + 4 <= app it' /\
                       app it' + appLen it' + 4 <= sharedEnd it /\
                       0 <= appLen it') l /\
    ForallOrdPairs (fun a b => app a + appLen a + 8 <= app b) l /\
    (l <> [] -> shared it + 8 * Z.of_nat (length l) <= sharedEnd it).
Proof.
  induction l as [|it1 l IH]; intros it H.
  - split; [ constructor | ]. split; [ constructor | ]. intros C; contradiction.
  - destruct H as [H1 H2].
    destruct (osExtAppIteratorNext_true _ _ _ H1) as (A & B & C & D & G & I & J).
    pose proof (footprint_bounds _ (proj1 D)) as Hfp.
    destruct (IH _ H2) as (Hall & Hord & Hcnt).
    split; [ | split ].
    + constructor; [ lia | ].
      eapply Forall_impl; [ | exact Hall ].
      cbv beta. intros x (X1 & X2 & X3). lia.
    + constructor; [ | exact Hord ].
      eapply Forall_impl; [ | exact Hall ].
      cbv beta. intros x (X1 & X2 & X3). lia.
    + intros _. cbn [length]. destruct l as [|it2 l'].
      * cbn. lia.
      * assert (it2 :: l' <> []) as Hne by discriminate.
        specialize (Hcnt Hne). cbn [length] in *. lia.
Qed.

(** X26: Walking the shared area from [osExtAppIteratorInit] on: whatever number
    of calls return true, every app reported lies inside the area
    [platGetSharedAreaInfo] gave, with room for its header before and its
    footer after it, the apps come in increasing address order without
    overlap, and there are at most an eighth of the area's bytes of them. *)
Theorem walk_stays_in_shared_area (fuel : nat) (it0 : ExtAppIterator)
    (l : list ExtAppIterator) :
  walk fuel (osExtAppIteratorInit F it0) l ->
  let area := fst (platGetSharedAreaInfo F) in
  let sz := u32 (snd (platGetSharedAreaInfo F)) in
  Forall (fun it => area + 4 <= app it /\ app it + appLen it + 4 <= area + sz) l /\
  ForallOrdPairs (fun a b => app a + appLen a + 8 <= app b) l /\
  8 * Z.of_nat (length l) <= sz.
Proof.
  intros H area sz.
  destruct (walk_facts _ _ _ H) as (Hall & Hord & Hcnt).
  assert (Es : shared (osExtAppIteratorInit F it0) = area
               /\ sharedEnd (osExtAppIteratorInit F it0) = area + sz).
  { unfold osExtAppIteratorInit, area, sz.
    destruct (platGetSharedAreaInfo F) as [a s]. split; reflexivity. }
  destruct Es as [Es Ee]. rewrite Es, Ee in *.
  split; [ | split; [ exact Hord | ] ].
  - eapply Forall_impl; [ | exact Hall ]. cbv beta. intros x (X1 & X2 & X3).
    split; assumption.
  - destruct l as [|it1 l'].
    + cbn. unfold sz, u32. pose proof (Z.mod_pos_bound (snd (platGetSharedAreaInfo F)) (2 ^ 32) ltac:(lia)).
      lia.
    + assert (it1 :: l' <> []) as Hne by discriminate.
      specialize (Hcnt Hne). lia.
Qed.

End WithFlash.

(** ** Concrete runs *)

Import FlashScenes.

(** The first call skips the record at 0x1000 and reports the app at 0x1014. *)
Lemma yielded_app_lies_in_area_witness :
  osExtAppIteratorNext flash0 3 it0
    = Some (true, mkExtAppIterator 4128 4160 4116 6) /\
  is_app_record flash0 4112 /\ 4096 + 8 <= 4128 <= 4160.
Proof.
  assert (H : osExtAppIteratorNext flash0 3 it0
              = Some (true, mkExtAppIterator 4128 4160 4116 6)) by reflexivity.
  split; [ exact H | ].
  destruct (yielded_app_lies_in_area flash0 3 true it0 _ H) as (_ & _ & Ht).
  destruct (Ht eq_refl) as (_ & Ha & _ & _ & _ & _ & Hb).
  split; [ exact Ha | exact Hb ].
Defined.

Lemma iterator_next_returns_witness :
  (Z.to_nat ((sharedEnd it0 - shared it0) / 8) + 1 <= 9)%nat /\
  exists b it', osExtAppIteratorNext flash0 9 it0 = Some (b, it').
Proof.
  assert (H : (Z.to_nat ((sharedEnd it0 - shared it0) / 8) + 1 <= 9)%nat)
    by (vm_compute; repeat constructor).
  split; [ exact H | ].
  destruct (iterator_next_returns flash0 9 it0 H) as (b & it' & Hr & _).
  exists b, it'. exact Hr.
Defined.

Lemma walk_stays_in_shared_area_witness :
  walk flash0 3 (osExtAppIteratorInit flash0 (mkExtAppIterator 0 0 0 0))
    [mkExtAppIterator 4128 4160 4116 6] /\
  Forall (fun it => 4096 + 4 <= app it /\ app it + appLen it + 4 <= 4096 + 64)
    [mkExtAppIterator 4128 4160 4116 6].
Proof.
  assert (H : walk flash0 3 (osExtAppIteratorInit flash0 (mkExtAppIterator 0 0 0 0))
                [mkExtAppIterator 4128 4160 4116 6])
    by (split; [ reflexivity | exact I ]).
  split; [ exact H | ].
  exact (proj1 (walk_stays_in_shared_area flash0 3 _ _ H)).
Defined.

End ExtAppFacts.
